(** * LogProcessor: the optical-power extraction engine

    A shallow embedding of [extract_power_info] (src/LogProcessor.py) and of
    the library functions it calls, of [detect_type], of the two device
    summaries [parse_huawei_logs] and [parse_h3c_logs] and of the driver
    [classify_logs], followed by their properties, those of the port-state
    scanner first.

    Text is modelled as [string], a character being an 8-bit code point
    (0..255, what the [latin-1] codec of [safe_open] produces).  On that
    range the character classes of Python's [re] and of [str.strip] are
    written out below. *)

From Stdlib Require Import String Ascii List Bool Arith ZArith Lia.
From Stdlib Require Import SpecFloat.
Import ListNotations.
Local Open Scope string_scope.
Local Open Scope list_scope.
Local Open Scope nat_scope.

(* ================================================================== *)
(** ** Characters and strings *)

Module Chars.

Definition code (a : ascii) : nat := nat_of_ascii a.

Definition between (lo hi : nat) (a : ascii) : bool :=
  (lo <=? code a) && (code a <=? hi).

Definition is_char (c a : ascii) : bool := Ascii.eqb c a.

Definition is_digit : ascii -> bool := between 48 57.
Definition is_upper : ascii -> bool := between 65 90.
Definition is_lower : ascii -> bool := between 97 122.
Definition is_alpha (a : ascii) : bool := is_upper a || is_lower a.

(** [\s] on [str], and the characters removed by [str.strip()]. *)
Definition is_space (a : ascii) : bool :=
  between 9 13 a || between 28 32 a
  || (code a =? 133) || (code a =? 160).

(** [\w] on [str]: alphanumeric code points and the underscore. *)
Definition is_word (a : ascii) : bool :=
  is_digit a || is_alpha a || (code a =? 95)
  || (code a =? 170) || (code a =? 178) || (code a =? 179)
  || (code a =? 181) || (code a =? 185) || (code a =? 186)
  || between 188 190 a || between 192 214 a
  || between 216 246 a || between 248 255 a.

Definition lower (a : ascii) : ascii :=
  if is_upper a then ascii_of_nat (code a + 32) else a.

(** A literal character of a pattern compiled with [re.IGNORECASE]. *)
Definition is_char_ci (c a : ascii) : bool := Ascii.eqb (lower c) (lower a).

End Chars.

Module Str.

Fixpoint take (n : nat) (s : string) : string :=
  match n, s with
  | S n', String a s' => String a (take n' s')
  | _, _ => EmptyString
  end.

Fixpoint rev_onto (s acc : string) : string :=
  match s with
  | EmptyString => acc
  | String a s' => rev_onto s' (String a acc)
  end.

Definition rev (s : string) : string := rev_onto s EmptyString.

Fixpoint lstrip (s : string) : string :=
  match s with
  | String a s' => if Chars.is_space a then lstrip s' else s
  | EmptyString => EmptyString
  end.

(** [s.strip()] *)
Definition strip (s : string) : string := rev (lstrip (rev (lstrip s))).

(** [s.lower()] on the letters A-Z. *)
Fixpoint lower (s : string) : string :=
  match s with
  | EmptyString => EmptyString
  | String a s' => String (Chars.lower a) (lower s')
  end.

Fixpoint starts_with (p s : string) : bool :=
  match p, s with
  | EmptyString, _ => true
  | String a p', String b s' => Ascii.eqb a b && starts_with p' s'
  | String _ _, EmptyString => false
  end.

(** [sub in s] *)
Fixpoint contains (sub s : string) : bool :=
  starts_with sub s ||
  match s with
  | EmptyString => false
  | String _ s' => contains sub s'
  end.

(** ['\n'.join(parts)] *)
Fixpoint join_lines (parts : list string) : string :=
  match parts with
  | [] => EmptyString
  | [p] => p
  | p :: rest => (p ++ String "010"%char (join_lines rest))%string
  end.

End Str.

(* ================================================================== *)
(** ** A backtracking matcher for the fragment of [re] the program uses

    Greedy repetition, ordered alternation, capture groups, [^] (without
    [re.MULTILINE]) and [\b]; [search] returns the leftmost match, as
    [Pattern.search] does. *)

Module Re.

Inductive regex : Type :=
| Eps : regex
| Chr : (ascii -> bool) -> regex
| Cat : regex -> regex -> regex
| Alt : regex -> regex -> regex
| Star : regex -> regex
| Grp : nat -> regex -> regex
| Bol : regex
| Wb : regex.

(** Captures, most recent first. *)
Definition caps := list (nat * string).

Fixpoint cap_get (n : nat) (c : caps) : option string :=
  match c with
  | [] => None
  | (k, v) :: c' => if Nat.eqb k n then Some v else cap_get n c'
  end.

Definition word_opt (o : option ascii) : bool :=
  match o with Some a => Chars.is_word a | None => false end.

Definition head (s : string) : option ascii :=
  match s with String a _ => Some a | EmptyString => None end.

Section Matcher.
Context {A : Type}.

(** A continuation receives the character before the position reached,
    the rest of the subject and the captures. *)
Definition cont := option ascii -> string -> caps -> option A.

Definition orelse (x : option A) (y : unit -> option A) : option A :=
  match x with Some v => Some v | None => y tt end.

Fixpoint m (r : regex) : option ascii -> string -> caps -> cont -> option A :=
  match r with
  | Eps => fun prev s c k => k prev s c
  | Chr p => fun prev s c k =>
      match s with
      | String a s' => if p a then k (Some a) s' c else None
      | EmptyString => None
      end
  | Cat a b => fun prev s c k =>
      m a prev s c (fun prev' s' c' => m b prev' s' c' k)
  | Alt a b => fun prev s c k =>
      orelse (m a prev s c k) (fun _ => m b prev s c k)
  | Star a => fun prev s c k =>
      (fix loop (fuel : nat) (prev : option ascii) (s : string) (c : caps)
         {struct fuel} : option A :=
         match fuel with
         | O => k prev s c
         | S fuel' =>
             orelse
               (m a prev s c (fun prev' s' c' =>
                  if String.length s' <? String.length s
                  then loop fuel' prev' s' c' else None))
               (fun _ => k prev s c)
         end) (String.length s) prev s c
  | Grp n a => fun prev s c k =>
      m a prev s c (fun prev' s' c' =>
        k prev' s' ((n, Str.take (String.length s - String.length s') s) :: c'))
  | Bol => fun prev s c k =>
      match prev with None => k prev s c | Some _ => None end
  | Wb => fun prev s c k =>
      if xorb (word_opt prev) (word_opt (head s)) then k prev s c else None
  end.

End Matcher.

(** A match: the text before it, the matched text, the text after it, the
    character that ends it (for a search resumed there) and its groups. *)
Record rmatch : Type := mkMatch {
  m_before : string;
  m_text : string;
  m_after : string;
  m_last : option ascii;
  m_caps : caps
}.

Definition match_at (r : regex) (prev : option ascii) (s : string)
  : option (string * string * option ascii * caps) :=
  m r prev s [] (fun prev' s' c =>
    Some (Str.take (String.length s - String.length s') s, s', prev', c)).

Fixpoint find (r : regex) (prev : option ascii) (skipped : string) (s : string)
  : option rmatch :=
  match match_at r prev s with
  | Some (txt, rest, last, c) =>
      Some (mkMatch (Str.rev skipped) txt rest last c)
  | None =>
      match s with
      | EmptyString => None
      | String a s' => find r (Some a) (String a skipped) s'
      end
  end.

(** [r.search(s)] *)
Definition search (r : regex) (s : string) : option rmatch :=
  find r None EmptyString s.

(** [bool(r.search(s))] *)
Definition matches (r : regex) (s : string) : bool :=
  match search r s with Some _ => true | None => false end.

(** [m.group(n)] for a group that took part in the match. *)
Definition group (n : nat) (mt : rmatch) : string :=
  match cap_get n (m_caps mt) with Some v => v | None => EmptyString end.

(** [r.search(s).group(n)] when there is a match. *)
Definition search_group (n : nat) (r : regex) (s : string) : option string :=
  match search r s with Some mt => Some (group n mt) | None => None end.

(** The pieces between the successive non-overlapping matches of [r],
    for a pattern that matches no empty string (an empty match stops the
    scan here): [re.split(r, s)] is [pieces], [re.sub(r, '', s)] their
    concatenation. *)
Fixpoint pieces_from (fuel : nat) (r : regex) (prev : option ascii) (s : string)
  : list string :=
  match fuel with
  | O => [s]
  | S fuel' =>
      match find r prev EmptyString s with
      | None => [s]
      | Some mt =>
          match m_text mt with
          | EmptyString => [s]
          | String _ _ => m_before mt :: pieces_from fuel' r (m_last mt) (m_after mt)
          end
      end
  end.

Definition split (r : regex) (s : string) : list string :=
  pieces_from (String.length s) r None s.

Definition remove_all (r : regex) (s : string) : string :=
  String.concat EmptyString (split r s).

(** *** Pattern combinators *)

Definition plus (r : regex) : regex := Cat r (Star r).
Definition opt (r : regex) : regex := Alt r Eps.
Definition seq (rs : list regex) : regex := fold_right Cat Eps rs.
Definition alts (r : regex) (rs : list regex) : regex :=
  fold_left Alt rs r.

Definition ch (c : ascii) : regex := Chr (Chars.is_char c).
Definition any_of (cs : string) : regex :=
  Chr (fun a => existsb (Ascii.eqb a) (list_ascii_of_string cs)).
Definition none_of (cs : string) : regex :=
  Chr (fun a => negb (existsb (Ascii.eqb a) (list_ascii_of_string cs))).

(** A literal, case-sensitive. *)
Fixpoint lit (s : string) : regex :=
  match s with
  | EmptyString => Eps
  | String a s' => Cat (ch a) (lit s')
  end.

(** A literal under [re.IGNORECASE]. *)
Fixpoint lit_ci (s : string) : regex :=
  match s with
  | EmptyString => Eps
  | String a s' => Cat (Chr (Chars.is_char_ci a)) (lit_ci s')
  end.

Definition ws : regex := Chr Chars.is_space.          (* \s *)
Definition nws : regex := Chr (fun a => negb (Chars.is_space a)). (* \S *)
Definition dg : regex := Chr Chars.is_digit.          (* \d *)
Definition wd : regex := Chr Chars.is_word.           (* \w *)

(** [-?\d+(?:\.\d+)?] *)
Definition number : regex :=
  seq [opt (ch "-"); plus dg; opt (Cat (ch ".") (plus dg))].

End Re.

(* ================================================================== *)
(** ** [float(str)] and the comparison of floats

    Python floats are IEEE binary64 values: [spec_float] at precision 53.
    [float] rounds the decimal it reads once, to nearest even. *)

Module PyFloat.

Definition prec : Z := 53.
Definition emax : Z := 1024.

Definition pyfloat : Type := spec_float.

Definition digit_val (a : ascii) : N := N.of_nat (Chars.code a - 48).

(** A run of digits in which single underscores may separate digits;
    [seen] tells that the previous character was a digit.  Returns the
    accumulated value, the number of digits read and the rest. *)
Fixpoint digitpart (seen : bool) (acc : N) (cnt : nat) (s : string)
  : N * nat * string :=
  match s with
  | String a s' =>
      if Chars.is_digit a
      then digitpart true (acc * 10 + digit_val a)%N (S cnt) s'
      else if seen && Chars.is_char "_" a then
        match s' with
        | String b s'' =>
            if Chars.is_digit b
            then digitpart true (acc * 10 + digit_val b)%N (S cnt) s''
            else (acc, cnt, s)
        | EmptyString => (acc, cnt, s)
        end
      else (acc, cnt, s)
  | EmptyString => (acc, cnt, s)
  end.

Definition sign_of (s : string) : bool * string :=
  match s with
  | String a s' =>
      if Chars.is_char "-" a then (true, s')
      else if Chars.is_char "+" a then (false, s')
      else (false, s)
  | EmptyString => (false, s)
  end.

(** The optional exponent: [None] when an [e] is not followed by digits. *)
Definition exponent (s : string) : option (Z * string) :=
  match s with
  | String a s' =>
      if Chars.is_char_ci "e" a then
        let '(neg, s1) := sign_of s' in
        let '(v, cnt, rest) := digitpart false 0%N 0 s1 in
        match cnt with
        | O => None
        | S _ => Some (if neg then Z.opp (Z.of_N v) else Z.of_N v, rest)
        end
      else Some (0%Z, s)
  | EmptyString => Some (0%Z, s)
  end.

(** The binary64 value nearest to [(-1)^neg * mant * 10^dexp]. *)
Definition of_decimal (neg : bool) (mant : N) (dexp : Z) : pyfloat :=
  match mant with
  | N0 => S754_zero neg
  | Npos p =>
      match dexp with
      | Zneg d =>
          SFdiv prec emax (S754_finite neg p 0)
                (S754_finite false (Pos.pow 10 d) 0)
      | _ => binary_round prec emax neg (p * Z.to_pos (10 ^ dexp))%positive 0
      end
  end.

Definition number (neg : bool) (s : string) : option pyfloat :=
  let '(ip, ic, r1) := digitpart false 0%N 0 s in
  let '(mant, fc, r2) :=
    match r1 with
    | String a r1' =>
        if Chars.is_char "." a
        then let '(m, c, r) := digitpart false ip 0 r1' in (m, c, r)
        else (ip, 0, r1)
    | EmptyString => (ip, 0, r1)
    end in
  match ic + fc with
  | O => None
  | S _ =>
      match exponent r2 with
      | Some (e, EmptyString) => Some (of_decimal neg mant (e - Z.of_nat fc))
      | _ => None
      end
  end.

(** [float(s)]; [None] stands for the [ValueError] it raises. *)
Definition float (s : string) : option pyfloat :=
  let '(neg, body) := sign_of (Str.strip s) in
  let low := Str.lower body in
  if String.eqb low "inf" || String.eqb low "infinity"
  then Some (S754_infinity neg)
  else if String.eqb low "nan" then Some S754_nan
  else number neg body.

Definition of_int (z : Z) : pyfloat := binary_normalize prec emax z 0 false.

(** [a <= b] on floats. *)
Definition leb (a b : pyfloat) : bool := SFleb a b.

(** [-50 <= val <= 10] *)
Definition in_range (val : pyfloat) : bool :=
  leb (of_int (-50)) val && leb val (of_int 10).

End PyFloat.

(* ================================================================== *)
(** ** The pattern catalog *)

Module Pat.
Import Re.

Definition ci := lit_ci.
Definition ws1 := plus ws.   (* \s+ *)
Definition ws0 := Star ws.   (* \s* *)

(** [valid\s+only\s+(?:on|for)\s+optical\s+interface\.?] *)
Definition NON_OPTICAL_RE : regex :=
  seq [ci "valid"; ws1; ci "only"; ws1; Alt (ci "on") (ci "for"); ws1;
       ci "optical"; ws1; ci "interface"; opt (ch ".")].

(** [transceiver\s+(?:is\s+)?absent\.?] *)
Definition ABSENT_RE : regex :=
  seq [ci "transceiver"; ws1; opt (Cat (ci "is") ws1); ci "absent";
       opt (ch ".")].

(** [transceiver\s+(?:does\s+not\s+support|not\s+supported|unsupported)] *)
Definition NOT_SUPPORT_RE : regex :=
  seq [ci "transceiver"; ws1;
       alts (seq [ci "does"; ws1; ci "not"; ws1; ci "support"])
            [seq [ci "not"; ws1; ci "supported"]; ci "unsupported"]].

(** [Transfer\s+Distance\(m\)\s*:\s*] then an optional [\d+\s*], then
    [\(\s*copper\s*\)] *)
Definition TRANSFER_DISTANCE_COPPER_RE : regex :=
  seq [ci "Transfer"; ws1; ci "Distance(m)"; ws0; ch ":"; ws0;
       opt (Cat (plus dg) ws0); ch "("; ws0; ci "copper"; ws0; ch ")"].

(** [(?:^|\s)(?:Port\s+|interface\s+)?] followed by group 1,
    [[A-Za-z\-]+(?:Ethernet)?\d+(?:[\/\-]\d+)+[A-Za-z0-9\/\-]*] *)
Definition PORT_RE : regex :=
  seq [Alt Bol ws;
       opt (Alt (Cat (ci "Port") ws1) (Cat (ci "interface") ws1));
       Grp 1 (seq [plus (Chr (fun a => Chars.is_alpha a || Chars.is_char "-" a));
                   opt (ci "Ethernet");
                   plus dg;
                   plus (Cat (any_of "/-") (plus dg));
                   Star (Chr (fun a => Chars.is_alpha a || Chars.is_digit a
                                       || Chars.is_char "/" a
                                       || Chars.is_char "-" a))])].

(** The tail shared by the power shapes: [\s*[:=]?\s*(-?\d+(?:\.\d+)?)]
    with the value in group [g]. *)
Definition value_tail (g : nat) : regex :=
  seq [ws0; opt (any_of ":="); ws0; Grp g number].

(** [(?:Current\s+)?(?:TX\s*Power|TxPower)(?:\s*\(dB[mM]\))?]
    [\s*[:=]?\s*(-?\d+(?:\.\d+)?)], and the same for RX. *)
Definition direct_power (xx : string) : regex :=
  seq [opt (Cat (ci "Current") ws1);
       Alt (seq [ci xx; ws0; ci "Power"]) (Cat (ci xx) (ci "Power"));
       opt (Cat ws0 (ci "(dBm)"));
       value_tail 1].

Definition TX_POWER_RE : regex := direct_power "TX".
Definition RX_POWER_RE : regex := direct_power "RX".

(** [TX\s*power\s*\(dB[mM]\)\s*(-?\d+(?:\.\d+)?)], and the same for RX. *)
Definition h3c_power (xx : string) : regex :=
  seq [ci xx; ws0; ci "power"; ws0; ci "(dBm)"; ws0; Grp 1 number].

Definition H3C_TABLE_TX_RE : regex := h3c_power "TX".
Definition H3C_TABLE_RX_RE : regex := h3c_power "RX".

(** [(TX|RX|Tx|Rx)\s*Power\s*[:=]?\s*(-?\d+(?:\.\d+)?)] *)
Definition POWER_VALUE_RE : regex :=
  seq [Grp 1 (alts (ci "TX") [ci "RX"; ci "Tx"; ci "Rx"]);
       ws0; ci "Power"; value_tail 2].

(** [display\s+transceiver\s+diagnosis\s+interface\b] *)
Definition HUAWEI_DIAG_CMD_RE : regex :=
  seq [ci "display"; ws1; ci "transceiver"; ws1; ci "diagnosis"; ws1;
       ci "interface"; Wb].

(** [display\s+transceiver\s+diagnosis\s+interface\s+detail\b] *)
Definition HUAWEI_DIAG_DETAIL_CMD_RE : regex :=
  seq [ci "display"; ws1; ci "transceiver"; ws1; ci "diagnosis"; ws1;
       ci "interface"; ws1; ci "detail"; Wb].

(** [display\s+transceiver\s+verbose\b] *)
Definition HUAWEI_VERB_CMD_RE : regex :=
  seq [ci "display"; ws1; ci "transceiver"; ws1; ci "verbose"; Wb].

Definition H3C_DIAG_CMD_RE : regex := HUAWEI_DIAG_CMD_RE.
Definition H3C_VERB_CMD_RE : regex := HUAWEI_VERB_CMD_RE.

(** [(?:display\s+transceiver\s+(?:diagnosis\s+interface(?:\s+detail)?]
    [|verbose)|undo\s+screen-length\s+disable)] *)
Definition ALL_TRANSCEIVER_CMD_RE : regex :=
  Alt (seq [ci "display"; ws1; ci "transceiver"; ws1;
            Alt (seq [ci "diagnosis"; ws1; ci "interface";
                      opt (Cat ws1 (ci "detail"))])
                (ci "verbose")])
      (seq [ci "undo"; ws1; ci "screen-length"; ws1; ci "disable"]).

(** [^Current diagnostic parameters:] *)
Definition RE_CURRENT_DIAG : regex :=
  Cat Bol (ci "Current diagnostic parameters:").

(** [^Alarm thresholds:] *)
Definition RE_ALARM_THRESHOLDS : regex :=
  Cat Bol (ci "Alarm thresholds:").

(** [status\s+(normal|abnormal)] of the scanner's last rule. *)
Definition STATUS_RE : regex :=
  seq [ci "status"; ws1; Grp 1 (Alt (ci "normal") (ci "abnormal"))].

(** [\s{2,}] that separates the columns of a table. *)
Definition COLUMN_GAP_RE : regex := seq [ws; ws; ws0].

(** [[\[<]([\w\-]+)[\]>]] *)
Definition PROMPT_RE : regex :=
  seq [any_of "[<";
       Grp 1 (plus (Chr (fun a => Chars.is_word a || Chars.is_char "-" a)));
       any_of "]>"].

(** [[\[<](SD-(?:JN|JY)-[^\]>]+)[\]>]+] *)
Definition BRACKET_RE : regex :=
  seq [any_of "[<";
       Grp 1 (seq [ci "SD-"; Alt (ci "JN") (ci "JY"); ch "-";
                   plus (none_of "]>")]);
       plus (any_of "]>")].

(** [Device\s+Name\s*:\s*(\S+)] *)
Definition DEVICE_NAME_RE : regex :=
  seq [ci "Device"; ws1; ci "Name"; ws0; ch ":"; ws0; Grp 1 (plus nws)].

(** [System\s+Name\s*:\s*(\S+)] *)
Definition SYSTEM_NAME_RE : regex :=
  seq [ci "System"; ws1; ci "Name"; ws0; ch ":"; ws0; Grp 1 (plus nws)].

(** [\x1b\[\d+[A-Za-z]|[\x07\x08]] *)
Definition CONTROL_RE : regex :=
  Alt (seq [ch "027"; ch "["; plus dg; Chr Chars.is_alpha])
      (Chr (fun a => Chars.is_char "007" a || Chars.is_char "008" a)).

End Pat.

(* ================================================================== *)
(** ** The data model of the scanner *)

(** The values [status] takes: the five literals the scanner assigns and
    the text matched by [(normal|abnormal)] under [re.IGNORECASE], kept as
    matched (so never the literal ['unknown']). *)
Inductive Status : Type :=
| unknown
| non_optical
| absent
| not_supported
| copper_port
| reported (txt : string).

(** [status != 'unknown'] *)
Definition status_known (s : Status) : bool :=
  match s with
  | unknown => false
  | _ => true
  end.

Inductive CommandType : Type :=
| cmd_unknown
| huawei_diag
| huawei_diag_detail
| huawei_verb
| h3c_diag
| h3c_verb.

(** The variables [save_port] declares [nonlocal].  [parsing_power_data]
    is a local of [extract_power_info] itself: it is unbound ([None])
    until first assigned and survives from one segment to the next. *)
Record ScanContext : Type := mkCtx {
  current_port : option string;
  tx_power : option PyFloat.pyfloat;
  rx_power : option PyFloat.pyfloat;
  status : Status;
  is_optical_port : bool;
  command_type : CommandType;
  table_header_found : bool;
  rx_power_col_idx : option nat;
  tx_power_col_idx : option nat;
  parsing_power_data : option bool
}.

(** One dictionary appended to [power_info]. *)
Record PortRecord : Type := mkRecord {
  Vendor : string;
  NetworkType : string;
  Device : string;
  Port : string;
  TX_Power : option PyFloat.pyfloat;
  RX_Power : option PyFloat.pyfloat;
  Status_ : Status;
  CommandType_ : CommandType;
  LogFileName : string
}.

Definition set_current_port (v : option string) (c : ScanContext) :=
  mkCtx v (tx_power c) (rx_power c) (status c) (is_optical_port c)
        (command_type c) (table_header_found c) (rx_power_col_idx c)
        (tx_power_col_idx c) (parsing_power_data c).

Definition set_tx_power (v : option PyFloat.pyfloat) (c : ScanContext) :=
  mkCtx (current_port c) v (rx_power c) (status c) (is_optical_port c)
        (command_type c) (table_header_found c) (rx_power_col_idx c)
        (tx_power_col_idx c) (parsing_power_data c).

Definition set_rx_power (v : option PyFloat.pyfloat) (c : ScanContext) :=
  mkCtx (current_port c) (tx_power c) v (status c) (is_optical_port c)
        (command_type c) (table_header_found c) (rx_power_col_idx c)
        (tx_power_col_idx c) (parsing_power_data c).

Definition set_status (v : Status) (c : ScanContext) :=
  mkCtx (current_port c) (tx_power c) (rx_power c) v (is_optical_port c)
        (command_type c) (table_header_found c) (rx_power_col_idx c)
        (tx_power_col_idx c) (parsing_power_data c).

Definition set_is_optical_port (v : bool) (c : ScanContext) :=
  mkCtx (current_port c) (tx_power c) (rx_power c) (status c) v
        (command_type c) (table_header_found c) (rx_power_col_idx c)
        (tx_power_col_idx c) (parsing_power_data c).

Definition set_command_type (v : CommandType) (c : ScanContext) :=
  mkCtx (current_port c) (tx_power c) (rx_power c) (status c)
        (is_optical_port c) v (table_header_found c) (rx_power_col_idx c)
        (tx_power_col_idx c) (parsing_power_data c).

Definition set_table_header_found (v : bool) (c : ScanContext) :=
  mkCtx (current_port c) (tx_power c) (rx_power c) (status c)
        (is_optical_port c) (command_type c) v (rx_power_col_idx c)
        (tx_power_col_idx c) (parsing_power_data c).

Definition set_col_idx (rx tx : option nat) (c : ScanContext) :=
  mkCtx (current_port c) (tx_power c) (rx_power c) (status c)
        (is_optical_port c) (command_type c) (table_header_found c) rx tx
        (parsing_power_data c).

Definition set_parsing_power_data (v : option bool) (c : ScanContext) :=
  mkCtx (current_port c) (tx_power c) (rx_power c) (status c)
        (is_optical_port c) (command_type c) (table_header_found c)
        (rx_power_col_idx c) (tx_power_col_idx c) v.

(** The truth value of [current_port]: neither [None] nor empty. *)
Definition port_truthy (p : option string) : bool :=
  match p with
  | Some (String _ _) => true
  | _ => false
  end.

Definition is_none {A : Type} (o : option A) : bool :=
  match o with None => true | Some _ => false end.

(** The scanner with its result list [power_info]. *)
Definition state : Type := ScanContext * list PortRecord.

(* ================================================================== *)
(** ** The scanner *)

(** The arguments and locals of [extract_power_info] that the segment loop
    and [save_port] close over; [logname] is [os.path.basename(fp)]. *)
Record Env : Type := mkEnv {
  vendor : string;
  network_type : string;
  device : string;
  logname : string
}.

Section Scanner.

Variable e : Env.

(** The condition under which [save_port] appends a record. *)
Definition worth_saving (c : ScanContext) : bool :=
  port_truthy (current_port c)
  && (negb (is_none (tx_power c)) || negb (is_none (rx_power c))
      || status_known (status c)).

Definition record_of (c : ScanContext) : PortRecord :=
  mkRecord (vendor e) (network_type e) (device e)
           (match current_port c with Some p => p | None => EmptyString end)
           (tx_power c) (rx_power c) (status c) (command_type c) (logname e).

(** The assignments that end [save_port]. *)
Definition reset_ctx : ScanContext :=
  mkCtx None None None unknown false cmd_unknown false None None (Some false).

Definition save_port (st : state) : state :=
  let '(c, power_info) := st in
  (reset_ctx,
   if worth_saving c then power_info ++ [record_of c] else power_info).

(** The command-type rule: the tag after the line has been looked at. *)
Definition mark_command (line : string) (ct : CommandType) : CommandType :=
  if String.eqb (vendor e) "Huawei" then
    if Re.matches Pat.HUAWEI_DIAG_CMD_RE line then huawei_diag
    else if Re.matches Pat.HUAWEI_DIAG_DETAIL_CMD_RE line then huawei_diag_detail
    else if Re.matches Pat.HUAWEI_VERB_CMD_RE line then huawei_verb
    else ct
  else if String.eqb (vendor e) "H3C" then
    if Re.matches Pat.H3C_DIAG_CMD_RE line then h3c_diag
    else if Re.matches Pat.H3C_VERB_CMD_RE line then h3c_verb
    else ct
  else ct.

(** [vendor in ('H3C', 'Huawei')] *)
Definition vendor_known : bool :=
  String.eqb (vendor e) "H3C" || String.eqb (vendor e) "Huawei".

(** [try: val = float(raw); if -50 <= val <= 10: field = val] with the
    exception swallowed: the new value of the field. *)
Definition accept (raw : string) (field : option PyFloat.pyfloat)
  : option PyFloat.pyfloat :=
  match PyFloat.float raw with
  | Some val => if PyFloat.in_range val then Some val else field
  | None => field
  end.

(** [next(i for i, h in enumerate(headers) if label in h)] *)
Fixpoint index_of (label : string) (i : nat) (headers : list string)
  : option nat :=
  match headers with
  | [] => None
  | h :: rest =>
      if Str.contains label h then Some i else index_of label (S i) rest
  end.

Definition is_table_header (line : string) : bool :=
  vendor_known && Str.contains "Temp." line && Str.contains "Voltage" line
  && Str.contains "RX power" line && Str.contains "TX power" line.

(** The header rule: a [StopIteration] from either lookup unsets both
    indices. *)
Definition on_table_header (line : string) (c : ScanContext) : ScanContext :=
  let headers := Re.split Pat.COLUMN_GAP_RE (Str.strip line) in
  let c1 := set_table_header_found true c in
  match index_of "RX power" 0 headers, index_of "TX power" 0 headers with
  | Some i, Some j => set_col_idx (Some i) (Some j) c1
  | _, _ => set_col_idx None None c1
  end.

(** One cell of the data row: [columns[idx]] when [idx] is set and in
    range, validated into the field. *)
Definition cell (idx : option nat) (columns : list string)
                (field : option PyFloat.pyfloat) : option PyFloat.pyfloat :=
  match idx with
  | Some i =>
      match nth_error columns i with
      | Some raw => accept raw field
      | None => field
      end
  | None => field
  end.

(** The data-row rule. *)
Definition on_table_row (line : string) (c : ScanContext) : ScanContext :=
  let columns := Re.split Pat.COLUMN_GAP_RE (Str.strip line) in
  let c1 := set_rx_power (cell (rx_power_col_idx c) columns (rx_power c)) c in
  let c2 := set_tx_power (cell (tx_power_col_idx c) columns (tx_power c1)) c1 in
  set_table_header_found false c2.

(** A power shape whose value is group 1: validate and assign on a match. *)
Definition by_shape (r : Re.regex) (line : string)
                    (field : option PyFloat.pyfloat) : option PyFloat.pyfloat :=
  match Re.search r line with
  | Some mt => accept (Re.group 1 mt) field
  | None => field
  end.

(** The fallback shape, tried only while the field is [None]. *)
Definition by_fallback (which : string) (line : string)
                       (field : option PyFloat.pyfloat)
  : option PyFloat.pyfloat :=
  if is_none field then
    match Re.search Pat.POWER_VALUE_RE line with
    | Some pm =>
        if String.eqb (Str.lower (Re.group 1 pm)) which
        then accept (Re.group 2 pm) field
        else field
    | None => field
    end
  else field.

(** The rules that end the loop body, none of which skips the others:
    the direct shapes, the H3C shapes, the fallback, the status token. *)
Definition on_values (line : string) (c : ScanContext) : ScanContext :=
  let c1 := set_tx_power (by_shape Pat.TX_POWER_RE line (tx_power c)) c in
  let c2 := set_rx_power (by_shape Pat.RX_POWER_RE line (rx_power c1)) c1 in
  let c3 :=
    if String.eqb (vendor e) "H3C" then
      let d1 := set_tx_power (by_shape Pat.H3C_TABLE_TX_RE line (tx_power c2)) c2 in
      set_rx_power (by_shape Pat.H3C_TABLE_RX_RE line (rx_power d1)) d1
    else c2 in
  let c4 := set_tx_power (by_fallback "tx" line (tx_power c3)) c3 in
  let c5 := set_rx_power (by_fallback "rx" line (rx_power c4)) c4 in
  match Re.search Pat.STATUS_RE line with
  | Some sm => set_status (reported (Re.group 1 sm)) c5
  | None => c5
  end.

Definition mark_not_optical (s : Status) (c : ScanContext) : ScanContext :=
  set_is_optical_port false (set_status s c).

(** What follows the port rule in the loop body, on the stripped line. *)
Definition classify (line : string) (c : ScanContext) : ScanContext :=
  if Re.matches Pat.NON_OPTICAL_RE line then mark_not_optical non_optical c
  else if Re.matches Pat.ABSENT_RE line then mark_not_optical absent c
  else if Re.matches Pat.NOT_SUPPORT_RE line then mark_not_optical not_supported c
  else if negb (is_none (current_port c))
          && Re.matches Pat.TRANSFER_DISTANCE_COPPER_RE line
       then mark_not_optical copper_port c
  else if negb (is_optical_port c) then c
  else if vendor_known && Re.matches Pat.RE_CURRENT_DIAG line
       then set_parsing_power_data (Some true) c
  else if vendor_known && Re.matches Pat.RE_ALARM_THRESHOLDS line
       then set_table_header_found false (set_parsing_power_data (Some false) c)
  else if is_table_header line then on_table_header line c
  else if table_header_found c then on_table_row line c
  else on_values line c.

(** The port rule: flush, then open the port named by group 1. *)
Definition open_port (p : string) (st : state) : state :=
  let '(c, power_info) := save_port st in
  (set_status unknown (set_is_optical_port true (set_current_port (Some p) c)),
   power_info).

(** One iteration of [for line in segment]. *)
Definition step (st : state) (raw : string) : state :=
  let line := Str.strip raw in
  let '(c0, power_info) := st in
  let c := set_command_type (mark_command line (command_type c0)) c0 in
  match Re.search Pat.PORT_RE line with
  | Some pm => open_port (Re.group 1 pm) (c, power_info)
  | None => (classify line c, power_info)
  end.

(** The assignments that start a segment. *)
Definition init_ctx (ppd : option bool) : ScanContext :=
  mkCtx None None None unknown false cmd_unknown false None None ppd.

Definition run (st : state) (segment : list string) : state :=
  fold_left step segment st.

(** One segment: the loop, then the last [save_port]. *)
Definition scan_segment (st : state) (segment : list string) : state :=
  let '(c, power_info) := st in
  save_port (run (init_ctx (parsing_power_data c), power_info) segment).

End Scanner.

(* ================================================================== *)
(** ** Device identity, segmentation and the whole function *)

(** [clean_text] *)
Definition clean_text (lines : list string) : string :=
  Str.join_lines (map (Re.remove_all Pat.CONTROL_RE) lines).

Definition first_some {A : Type} (x y : option A) : option A :=
  match x with Some _ => x | None => y end.

(** The match [m] of the device-name cascade. *)
Definition device_match (text : string) : option Re.rmatch :=
  first_some (Re.search Pat.PROMPT_RE text)
    (first_some (Re.search Pat.BRACKET_RE text)
       (first_some (Re.search Pat.DEVICE_NAME_RE text)
                   (Re.search Pat.SYSTEM_NAME_RE text))).

(** [device]; [base] is [os.path.basename(fp)]. *)
Definition resolve_device (lines : list string) (base : string) : string :=
  match device_match (clean_text lines) with
  | Some mt => Re.group 1 mt
  | None => base
  end.

(** [[i for i, line in enumerate(lines) if ALL_TRANSCEIVER_CMD_RE.search(line)]] *)
Fixpoint cmd_indices_from (i : nat) (lines : list string) : list nat :=
  match lines with
  | [] => []
  | l :: rest =>
      if Re.matches Pat.ALL_TRANSCEIVER_CMD_RE l
      then i :: cmd_indices_from (S i) rest
      else cmd_indices_from (S i) rest
  end.

Definition cmd_indices (lines : list string) : list nat :=
  cmd_indices_from 0 lines.

(** [lines[start:end]] *)
Definition slice {A : Type} (start stop : nat) (l : list A) : list A :=
  firstn (stop - start) (skipn start l).

(** [zip(cmd_indices, cmd_indices[1:])] *)
Definition spans (bounds : list nat) : list (nat * nat) :=
  combine bounds (tl bounds).

Definition segments (lines : list string) : list (list string) :=
  match cmd_indices lines with
  | [] => []
  | idx => map (fun se => slice (fst se) (snd se) lines)
               (spans (idx ++ [List.length lines]))
  end.

(** [extract_power_info(fp, vendor, network_type)] on the lines read from
    [fp], [base] being the file's base name. *)
Definition extract_power_info (lines : list string) (base : string)
                              (vendor network_type : string)
  : list PortRecord :=
  let device := resolve_device lines base in
  snd (fold_left (scan_segment (mkEnv vendor network_type device base))
                 (segments lines)
                 (init_ctx None, [])).


(* ================================================================== *)
(** ** Integers, division and the two-decimal format

    What [parse_h3c_logs] and [parse_huawei_logs] ask of Python's numbers:
    [int(str)], [float(int)], [int / int], [round(x, 2)] and the format
    of a float with two decimals.  An exception is [None]. *)

Module PyNum.

(** [sys.int_max_str_digits]: strings with more digits are refused by
    [int]; [0] lifts the limit (interpreters before the limit existed). *)
Record Limits : Type := mkLimits { int_max_str_digits : nat }.

(** [int(s)] in base 10: surrounding whitespace, a sign, digits with
    single underscores between them. *)
Definition int (lim : Limits) (s : string) : option Z :=
  let '(neg, body) := PyFloat.sign_of (Str.strip s) in
  let '(v, cnt, rest) := PyFloat.digitpart false 0%N 0 body in
  match cnt, rest with
  | S _, EmptyString =>
      if negb (int_max_str_digits lim =? 0) && (int_max_str_digits lim <? cnt)
      then None
      else Some (if neg then Z.opp (Z.of_N v) else Z.of_N v)
  | _, _ => None
  end.

Definition finite_or_raise (v : PyFloat.pyfloat) : option PyFloat.pyfloat :=
  match v with
  | S754_infinity _ | S754_nan => None
  | _ => Some v
  end.

(** [float(z)] for an [int]: the nearest float, [OverflowError] beyond
    the largest one. *)
Definition float_of_int (z : Z) : option PyFloat.pyfloat :=
  finite_or_raise (PyFloat.of_int z).

(** [a / b] for two [int]s, [b] not zero: the float nearest to the
    quotient, [OverflowError] beyond the largest one. *)
Definition true_div (a b : Z) : option PyFloat.pyfloat :=
  match a, b with
  | Z0, _ => Some (S754_zero (b <? 0)%Z)
  | _, Z0 => None
  | _, _ =>
      finite_or_raise
        (SFdiv PyFloat.prec PyFloat.emax
               (S754_finite (a <? 0)%Z (Z.to_pos (Z.abs a)) 0)
               (S754_finite (b <? 0)%Z (Z.to_pos (Z.abs b)) 0))
  end.

(** [m * 2^e * 100] rounded to the nearest integer, ties to even. *)
Definition hundredths (m : positive) (e : Z) : N :=
  match e with
  | Zneg d =>
      let num := (Npos m * 100)%N in
      let den := Npos (Pos.pow 2 d) in
      let q := (num / den)%N in
      let r := (num mod den)%N in
      match (2 * r ?= den)%N with
      | Lt => q
      | Gt => (q + 1)%N
      | Eq => if N.even q then q else (q + 1)%N
      end
  | _ => (Npos m * Npos (Z.to_pos (2 ^ e)) * 100)%N
  end.

(** [round(x, 2)]: the float nearest to [x] rounded to two decimals. *)
Definition round2 (v : PyFloat.pyfloat) : PyFloat.pyfloat :=
  match v with
  | S754_finite s m e => PyFloat.of_decimal s (hundredths m e) (-2)
  | _ => v
  end.

(** [bool(x)] for a float. *)
Definition truthy (v : PyFloat.pyfloat) : bool :=
  match v with S754_zero _ => false | _ => true end.

Definition digit_char (d : N) : ascii := ascii_of_N (48 + d).

(** The decimal digits of [n], most significant first. *)
Fixpoint digits_fuel (fuel : nat) (n : N) (acc : string) : string :=
  match fuel with
  | O => acc
  | S fuel' =>
      let acc' := String (digit_char (n mod 10)) acc in
      if (n <? 10)%N then acc' else digits_fuel fuel' (n / 10)%N acc'
  end.

(** [str(n)] for a natural number. *)
Definition str_of_N (n : N) : string :=
  digits_fuel (S (N.to_nat (N.log2 n))) n EmptyString.

(** [str(z)] *)
Definition str_of_Z (z : Z) : string :=
  match z with
  | Zneg p => String "-" (str_of_N (Npos p))
  | _ => str_of_N (Z.to_N z)
  end.

Definition two_digits (n : N) : string :=
  String (digit_char (n / 10)) (String (digit_char (n mod 10)) EmptyString).

(** The format [.2f] of a float. *)
Definition fmt2 (v : PyFloat.pyfloat) : string :=
  match v with
  | S754_zero s => if s then "-0.00" else "0.00"
  | S754_infinity s => if s then "-inf" else "inf"
  | S754_nan => "nan"
  | S754_finite s m e =>
      let q := hundredths m e in
      ((if s then "-" else "")
       ++ str_of_N (q / 100) ++ "." ++ two_digits (q mod 100))%string
  end.

End PyNum.

(* ================================================================== *)
(** ** The device summaries: [parse_huawei_logs] and [parse_h3c_logs] *)

Module SumPat.
Import Re.

(** [BarCode=(\S+)] *)
Definition BARCODE_RE : regex := Cat (lit "BarCode=") (Grp 1 (plus nws)).

(** The figure [[\d\.]+] in group [g]. *)
Definition figure (g : nat) : regex :=
  Grp g (plus (Chr (fun a => Chars.is_digit a || Chars.is_char "." a))).

(** [CPU Usage\s*:\s*([\d\.]+)%\s*Max\s*:\s*([\d\.]+)%] *)
Definition CPU_SIMPLE_RE : regex :=
  seq [lit "CPU Usage"; Star ws; ch ":"; Star ws; figure 1; ch "%";
       Star ws; lit "Max"; Star ws; ch ":"; Star ws; figure 2; ch "%"].

(** [Control Plane], the start of [CPU_CTRL_RE]. *)
Definition CPU_CTRL_HEAD : regex := lit "Control Plane".

(** [CPU Usage:\s*([\d\.]+)%\s*Max:\s*([\d\.]+)%], the end of
    [CPU_CTRL_RE]; between the two stands the lazy [[\s\S]*?]. *)
Definition CPU_CTRL_TAIL : regex :=
  seq [lit "CPU Usage:"; Star ws; figure 1; ch "%"; Star ws; lit "Max:";
       Star ws; figure 2; ch "%"].

(** [Total Memory Used Is:\s*(\d+)\s*bytes] *)
Definition MEM_USED_RE : regex :=
  seq [lit "Total Memory Used Is:"; Star ws; Grp 1 (plus dg); Star ws;
       lit "bytes"].

(** [Memory Using Percentage Is:\s*([\d\.]+)%] *)
Definition MEM_PCT_RE : regex :=
  seq [lit "Memory Using Percentage Is:"; Star ws; figure 1; ch "%"].

(** [Mem:\s*(\d+)\s*(\d+)\s*(\d+)] *)
Definition MEM_RE : regex :=
  seq [lit "Mem:"; Star ws; Grp 1 (plus dg); Star ws; Grp 2 (plus dg);
       Star ws; Grp 3 (plus dg)].

(** [(\d+)% in last\s+(\d+)\s+(seconds?|minutes?)] *)
Definition CPU_RE : regex :=
  seq [Grp 1 (plus dg); lit "% in last"; plus ws; Grp 2 (plus dg); plus ws;
       Grp 3 (Alt (Cat (lit "second") (opt (ch "s")))
                  (Cat (lit "minute") (opt (ch "s"))))].

(** [DEVICE_SERIAL_NUMBER\s*:\s*(\S+)] *)
Definition SN_RE : regex :=
  seq [lit "DEVICE_SERIAL_NUMBER"; Star ws; ch ":"; Star ws;
       Grp 1 (plus nws)].

(** [CPU_CTRL_RE.search(txt)].  A lazy gap tries the tail at every
    position after the head, nearest first; a head without a tail after it
    leaves none after a later head either.  So the match starts at the
    first head and its groups are those of the first tail after it. *)
Definition search_cpu_ctrl (txt : string) : option rmatch :=
  match search CPU_CTRL_HEAD txt with
  | Some hd => find CPU_CTRL_TAIL (m_last hd) EmptyString (m_after hd)
  | None => None
  end.

End SumPat.

(** A cell of a summary row: a string or an [int]. *)
Inductive Cell : Type :=
| Text (s : string)
| Int (z : Z).

(** One dictionary of [rows]. *)
Record SummaryRow : Type := mkSummary {
  sVendor : string;
  sNetworkType : string;
  sDevice : string;
  sSN : string;
  sCPU_Usage : string;
  sCPU_Max : string;
  sTotalUsed : Cell;
  sUsedPct : string;
  sLogFileName : string
}.

(** The format [.2f] followed by a percent sign. *)
Definition percent (v : PyFloat.pyfloat) : string :=
  (PyNum.fmt2 v ++ "%")%string.

(** [f"{float(g):.2f}%" if g else ''] for a matched figure; [None] when
    [float] raises. *)
Definition figure_cell (g : string) : option string :=
  match g with
  | EmptyString => Some EmptyString
  | _ => option_map percent (PyFloat.float g)
  end.

(** [r.search(txt).group(1) if r.search(txt) else ''] *)
Definition group1_or_empty (r : Re.regex) (txt : string) : string :=
  match Re.search r txt with
  | Some mt => Re.group 1 mt
  | None => EmptyString
  end.

(** The device cascade of [parse_huawei_logs]. *)
Definition huawei_device (clean : string) (base : string) : string :=
  match Re.search Pat.BRACKET_RE clean with
  | Some mt => Re.group 1 mt
  | None =>
      match Re.search Pat.DEVICE_NAME_RE clean with
      | Some mt => Re.group 1 mt
      | None =>
          match Re.search Pat.SYSTEM_NAME_RE clean with
          | Some mt => Re.group 1 mt
          | None => base
          end
      end
  end.

(** [parse_huawei_logs(fp, vendor, network_type)] on the text read from
    [fp]; an exception inside the [try] leaves [rows] empty. *)
Definition parse_huawei_logs (txt base vendor network_type : string)
  : list SummaryRow :=
  let device := huawei_device (Re.remove_all Pat.CONTROL_RE txt) base in
  let used_pct :=
    match Re.search SumPat.MEM_PCT_RE txt with
    | Some mt => option_map percent (PyFloat.float (Re.group 1 mt))
    | None => Some EmptyString
    end in
  match used_pct with
  | None => []
  | Some pct =>
      let cpu :=
        match first_some (SumPat.search_cpu_ctrl txt)
                         (Re.search SumPat.CPU_SIMPLE_RE txt) with
        | Some m =>
            match figure_cell (Re.group 1 m) with
            | Some usage =>
                match figure_cell (Re.group 2 m) with
                | Some top => Some (usage, top)
                | None => None
                end
            | None => None
            end
        | None => Some (EmptyString, EmptyString)
        end in
      match cpu with
      | None => []
      | Some (usage, top) =>
          [mkSummary vendor network_type device
                     (group1_or_empty SumPat.BARCODE_RE txt)
                     usage top
                     (Text (group1_or_empty SumPat.MEM_USED_RE txt))
                     pct base]
      end
  end.

(** The locals of the line loop of [parse_h3c_logs]; [cpu_stats] is a
    dictionary, kept as the list of its items in insertion order. *)
Record H3CStats : Type := mkStats {
  total_kb : option Z;
  used_kb : option Z;
  cpu_stats : list (Z * Z);
  serial : string
}.

(** [d[k] = v] *)
Fixpoint dict_set (k v : Z) (d : list (Z * Z)) : list (Z * Z) :=
  match d with
  | [] => [(k, v)]
  | (k', v') :: rest =>
      if Z.eqb k' k then (k, v) :: rest else (k', v') :: dict_set k v rest
  end.

Definition bind {A B : Type} (x : option A) (f : A -> option B) : option B :=
  match x with Some a => f a | None => None end.

Section H3C.

Variable lim : PyNum.Limits.

(** [if mm := MEM_RE.search(ln): ...] *)
Definition on_mem (ln : string) (st : H3CStats) : option H3CStats :=
  match Re.search SumPat.MEM_RE ln with
  | Some mm =>
      bind (PyNum.int lim (Re.group 1 mm)) (fun total =>
      bind (PyNum.int lim (Re.group 2 mm)) (fun used =>
      Some (mkStats (Some total) (Some used) (cpu_stats st) (serial st))))
  | None => Some st
  end.

(** [if mc := CPU_RE.search(ln): ...] *)
Definition on_cpu (ln : string) (st : H3CStats) : option H3CStats :=
  match Re.search SumPat.CPU_RE ln with
  | Some mc =>
      bind (PyNum.int lim (Re.group 2 mc)) (fun num =>
      let secs := (num * (if Str.contains "minute" (Re.group 3 mc)
                          then 60 else 1))%Z in
      bind (PyNum.int lim (Re.group 1 mc)) (fun pct =>
      Some (mkStats (total_kb st) (used_kb st)
                    (dict_set secs pct (cpu_stats st)) (serial st))))
  | None => Some st
  end.

(** [if ms := SN_RE.search(ln): ...] *)
Definition on_sn (ln : string) (st : H3CStats) : H3CStats :=
  match Re.search SumPat.SN_RE ln with
  | Some ms => mkStats (total_kb st) (used_kb st) (cpu_stats st)
                       (Re.group 1 ms)
  | None => st
  end.

(** One iteration of [for ln in lines]. *)
Definition h3c_line (st : H3CStats) (ln : string) : option H3CStats :=
  bind (on_mem ln st) (fun st1 =>
  bind (on_cpu ln st1) (fun st2 =>
  Some (on_sn ln st2))).

Fixpoint h3c_lines (lines : list string) (st : H3CStats) : option H3CStats :=
  match lines with
  | [] => Some st
  | ln :: rest => bind (h3c_line st ln) (h3c_lines rest)
  end.

Definition h3c_start : H3CStats := mkStats None None [] EmptyString.

(** The truth value of a local that is [None] or an [int]. *)
Definition nonzero (o : option Z) : bool :=
  match o with
  | Some z => negb (Z.eqb z 0)
  | None => false
  end.

(** [min(cpu_stats.values()) if cpu_stats else ''], [None] being ['']. *)
Definition cpu_min (d : list (Z * Z)) : option Z :=
  match map snd d with
  | [] => None
  | v :: vs => Some (fold_left Z.min vs v)
  end.

Definition cpu_max (d : list (Z * Z)) : option Z :=
  match map snd d with
  | [] => None
  | v :: vs => Some (fold_left Z.max vs v)
  end.

(** [f"{float(c):.2f}%" if c else ''] for [c] an [int] or ['']. *)
Definition int_cell (c : option Z) : option string :=
  if nonzero c
  then match c with
       | Some z => option_map percent (PyNum.float_of_int z)
       | None => Some EmptyString
       end
  else Some EmptyString.

(** [used_pct] and its cell: [round(used_kb * 100 / total_kb, 2)] when
    both are set and not zero. *)
Definition used_pct_cell (st : H3CStats) : option string :=
  if nonzero (used_kb st) && nonzero (total_kb st) then
    match used_kb st, total_kb st with
    | Some used, Some total =>
        bind (PyNum.true_div (used * 100) total) (fun x =>
        let used_pct := PyNum.round2 x in
        Some (if PyNum.truthy used_pct then percent used_pct
              else EmptyString))
    | _, _ => Some EmptyString
    end
  else Some EmptyString.

(** [device] of [parse_h3c_logs], from the first 50 lines; [None] when
    [m.group(2)] would be asked of a pattern that has one group. *)
Definition h3c_device (lines : list string) (base : string) : option string :=
  match Re.search Pat.BRACKET_RE (clean_text (firstn 50 lines)) with
  | Some m =>
      match Re.group 1 m with
      | EmptyString => None
      | g => Some g
      end
  | None => Some base
  end.

(** The row built from the locals. *)
Definition h3c_row (device base vendor network_type : string)
                   (st : H3CStats) : option SummaryRow :=
  bind (used_pct_cell st) (fun pct =>
  bind (int_cell (cpu_min (cpu_stats st))) (fun usage =>
  bind (int_cell (cpu_max (cpu_stats st))) (fun top =>
  Some (mkSummary vendor network_type device (serial st) usage top
                  (if nonzero (used_kb st)
                   then match used_kb st with
                        | Some z => Int z
                        | None => Text EmptyString
                        end
                   else Text EmptyString)
                  pct base)))).

(** [parse_h3c_logs(fp, vendor, network_type)] on the lines read from
    [fp]; an exception inside the [try] leaves [rows] empty. *)
Definition parse_h3c_logs (lines : list string)
                          (base vendor network_type : string)
  : list SummaryRow :=
  match bind (h3c_device lines base) (fun device =>
        bind (h3c_lines lines h3c_start) (fun st =>
        h3c_row device base vendor network_type st)) with
  | Some row => [row]
  | None => []
  end.

End H3C.

(* ================================================================== *)
(** ** Vendor detection *)

(** [c.lower()] for a character of the 8-bit range: the letters A-Z and
    the accented capitals 192..222, the multiplication sign 215 apart. *)
Definition py_lower_char (a : ascii) : ascii :=
  if Chars.is_upper a
     || (Chars.between 192 222 a && negb (Chars.code a =? 215))
  then ascii_of_nat (Chars.code a + 32)
  else a.

(** [line.lower()] *)
Fixpoint py_lower (s : string) : string :=
  match s with
  | EmptyString => EmptyString
  | String a s' => String (py_lower_char a) (py_lower s')
  end.

(** The two tests [detect_type] makes on a lowered line. *)
Definition vendor_of_line (line : string) : option string :=
  if Str.contains "huawei" line then Some "Huawei"
  else if Str.contains "h3c" line || Str.contains "new h3c technologies" line
       then Some "H3C"
  else None.

(** [for line in lines: ...] over one batch. *)
Fixpoint vendor_of_batch (batch : list string) : option string :=
  match batch with
  | [] => None
  | line :: rest =>
      match vendor_of_line line with
      | Some v => Some v
      | None => vendor_of_batch rest
      end
  end.

Definition batch_size : nat := 100.

(** The [while True] loop over the lines the file still yields:
    [islice(f, batch_size)] takes the next batch, an empty batch ends the
    loop.  [fuel] bounds the number of batches. *)
Fixpoint detect_loop (fuel : nat) (f : list string) : option string :=
  match fuel with
  | O => None
  | S fuel' =>
      match map py_lower (firstn batch_size f) with
      | [] => None
      | batch =>
          match vendor_of_batch batch with
          | Some v => Some v
          | None => detect_loop fuel' (skipn batch_size f)
          end
      end
  end.

(** [detect_type(fp)] on the lines that iterating over the file yields;
    a file of [n] lines has at most [n] batches that are not empty. *)
Definition detect_type (f : list string) : option string :=
  detect_loop (S (List.length f)) f.

(** The first line that decides, read one line at a time. *)
Definition first_vendor (f : list string) : option string :=
  vendor_of_batch (map py_lower f).

(* ================================================================== *)
(** ** The driver: [classify_logs] *)

(** A log file as the program reads it: its base name, its text as the
    handle of [safe_open] gives it, and its text as
    [open(fp, 'r', encoding='utf-8', errors='ignore')] gives it. *)
Record LogFile : Type := mkLog {
  base_name : string;
  decoded : string;
  decoded_utf8 : string
}.

(** The lines of a text handle that is iterated: each keeps its line
    feed. *)
Fixpoint file_lines_from (cur : string) (s : string) : list string :=
  match s with
  | EmptyString =>
      match cur with
      | EmptyString => []
      | _ => [Str.rev cur]
      end
  | String a s' =>
      if Chars.is_char "010" a
      then Str.rev (String a cur) :: file_lines_from EmptyString s'
      else file_lines_from (String a cur) s'
  end.

Definition file_lines (s : string) : list string :=
  file_lines_from EmptyString s.

(** The line boundaries of [str.splitlines] among the first 256 code
    points, the carriage return apart. *)
Definition is_line_break (a : ascii) : bool :=
  Chars.between 10 12 a || Chars.between 28 30 a
  || Nat.eqb (Chars.code a) 133.

(** [s.splitlines()] *)
Fixpoint splitlines_from (cur : string) (s : string) : list string :=
  match s with
  | EmptyString =>
      match cur with
      | EmptyString => []
      | _ => [Str.rev cur]
      end
  | String a s' =>
      if Chars.is_char "013" a then
        match s' with
        | String b s'' =>
            if Chars.is_char "010" b
            then Str.rev cur :: splitlines_from EmptyString s''
            else Str.rev cur :: splitlines_from EmptyString s'
        | EmptyString => [Str.rev cur]
        end
      else if is_line_break a
      then Str.rev cur :: splitlines_from EmptyString s'
      else splitlines_from (String a cur) s'
  end.

Definition splitlines (s : string) : list string :=
  splitlines_from EmptyString s.

(** The two zone labels, as the bytes of their UTF-8 form. *)
Definition INTERNAL : string := "内网".
Definition EXTERNAL : string := "外网".

Section Driver.

Variable lim : PyNum.Limits.

(** [all_logs] and [all_power_info]. *)
Definition results : Type := list SummaryRow * list PortRecord.

(** The body of either [for path in glob.glob(...)] loop. *)
Definition classify_file (zone : string) (acc : results) (f : LogFile)
  : results :=
  match detect_type (file_lines (decoded f)) with
  | Some dev_type =>
      if String.eqb dev_type "H3C" then
        (fst acc ++ parse_h3c_logs lim (splitlines (decoded_utf8 f))
                                   (base_name f) "H3C" zone,
         snd acc ++ extract_power_info (splitlines (decoded f))
                                       (base_name f) "H3C" zone)
      else if String.eqb dev_type "Huawei" then
        (fst acc ++ parse_huawei_logs (decoded_utf8 f)
                                      (base_name f) "Huawei" zone,
         snd acc ++ extract_power_info (splitlines (decoded f))
                                       (base_name f) "Huawei" zone)
      else acc
  | None => acc
  end.

(** [classify_logs()] on the files the two [glob] calls list: the rows
    handed to [write_total_results] and the records handed to
    [write_power_results]. *)
Definition classify_logs (internal external : list LogFile) : results :=
  fold_left (classify_file EXTERNAL) external
            (fold_left (classify_file INTERNAL) internal ([], [])).

End Driver.

(* ================================================================== *)
(** ** Properties of the scanner *)

Arguments Re.search : simpl never.
Arguments Re.matches : simpl never.
Arguments Re.split : simpl never.
Arguments Re.group : simpl never.
Arguments PyFloat.float : simpl never.
Arguments PyFloat.in_range : simpl never.
Arguments Str.strip : simpl never.
Arguments Str.contains : simpl never.

(** The context right after the port rule has opened [p]. *)
Definition opened (p : string) : ScanContext :=
  mkCtx (Some p) None None unknown true cmd_unknown false None None (Some false).

(** The line names no interface: the port rule does not fire. *)
Definition no_port (raw : string) : Prop :=
  Re.search Pat.PORT_RE (Str.strip raw) = None.

(** The line is taken by one of the four not-applicable marker rules. *)
Definition is_marker (c : ScanContext) (line : string) : bool :=
  Re.matches Pat.NON_OPTICAL_RE line
  || Re.matches Pat.ABSENT_RE line
  || Re.matches Pat.NOT_SUPPORT_RE line
  || (negb (is_none (current_port c))
      && Re.matches Pat.TRANSFER_DISTANCE_COPPER_RE line).

Definition not_applicable (s : Status) : bool :=
  match s with
  | non_optical | absent | not_supported | copper_port => true
  | _ => false
  end.

(** The context once the command-type rule has looked at [raw]. *)
Definition marked (e : Env) (c : ScanContext) (raw : string) : ScanContext :=
  set_command_type (mark_command e (Str.strip raw) (command_type c)) c.

(** The records one flush of [c] appends. *)
Definition flushed (e : Env) (c : ScanContext) : list PortRecord :=
  if worth_saving c then [record_of e c] else [].

(** The flush condition in the words of the data model: a port is named
    and the context holds a reading or a status other than [unknown]. *)
Definition informative (c : ScanContext) : Prop :=
  (exists p, current_port c = Some p /\ p <> EmptyString)
  /\ (tx_power c <> None \/ rx_power c <> None \/ status c <> unknown).

(** A value lies in the accepted range. *)
Definition power_ok (o : option PyFloat.pyfloat) : Prop :=
  forall v, o = Some v -> PyFloat.in_range v = true.

(** None of the earlier rules takes the line: it reaches the rules that
    read the diagnostic block (context optical, no interface name, no
    not-applicable marker, neither block marker). *)
Definition reaches_readings (c : ScanContext) (raw : string) : Prop :=
  no_port raw
  /\ is_marker c (Str.strip raw) = false
  /\ is_optical_port c = true
  /\ Re.matches Pat.RE_CURRENT_DIAG (Str.strip raw) = false
  /\ Re.matches Pat.RE_ALARM_THRESHOLDS (Str.strip raw) = false.

(** No power shape and no status token occurs in the line. *)
Definition shapeless (line : string) : Prop :=
  Re.search Pat.TX_POWER_RE line = None
  /\ Re.search Pat.RX_POWER_RE line = None
  /\ Re.search Pat.H3C_TABLE_TX_RE line = None
  /\ Re.search Pat.H3C_TABLE_RX_RE line = None
  /\ Re.search Pat.POWER_VALUE_RE line = None
  /\ Re.search Pat.STATUS_RE line = None.

(** Readings within range, in a context, a record and a state. *)
Definition ctx_ok (c : ScanContext) : Prop :=
  power_ok (tx_power c) /\ power_ok (rx_power c).

Definition rec_ok (r : PortRecord) : Prop :=
  power_ok (TX_Power r) /\ power_ok (RX_Power r).

Definition state_ok (st : state) : Prop :=
  ctx_ok (fst st) /\ Forall rec_ok (snd st).

(** The column indices a table header line records. *)
Definition table_indices (line : string) : option nat * option nat :=
  let headers := Re.split Pat.COLUMN_GAP_RE (Str.strip line) in
  match index_of "RX power" 0 headers, index_of "TX power" 0 headers with
  | Some i, Some j => (Some i, Some j)
  | _, _ => (None, None)
  end.

(** The columns of a table row. *)
Definition table_columns (line : string) : list string :=
  Re.split Pat.COLUMN_GAP_RE (Str.strip line).

(** What a context keeps while it is not optical. *)
Definition closed_like (c0 c : ScanContext) : Prop :=
  is_optical_port c = false
  /\ not_applicable (status c) = true
  /\ tx_power c = tx_power c0
  /\ rx_power c = rx_power c0
  /\ current_port c = current_port c0.

(** A status of the not-applicable family goes with a non-optical context. *)
Definition status_gates (c : ScanContext) : Prop :=
  not_applicable (status c) = true -> is_optical_port c = false.

(** The line matches one of the command-type markers of the vendor. *)
Definition is_command_marker (e : Env) (line : string) : bool :=
  if String.eqb (vendor e) "Huawei" then
    Re.matches Pat.HUAWEI_DIAG_CMD_RE line
    || Re.matches Pat.HUAWEI_DIAG_DETAIL_CMD_RE line
    || Re.matches Pat.HUAWEI_VERB_CMD_RE line
  else if String.eqb (vendor e) "H3C" then
    Re.matches Pat.H3C_DIAG_CMD_RE line || Re.matches Pat.H3C_VERB_CMD_RE line
  else false.

(** The tag after the command-type rule has looked at each line in turn. *)
Definition tag_after (e : Env) (segment : list string) (ct : CommandType)
  : CommandType :=
  fold_left (fun t raw => mark_command e (Str.strip raw) t) segment ct.

(** C8 as the specification states it, over the contexts a scan reaches:
    a status token on a line scanned while a port is open becomes the
    status, whatever the status was. *)
Definition status_token_always_overwrites : Prop :=
  forall (e : Env) (prefix : list string) (raw : string) (sm : Re.rmatch),
    let st := run e (init_ctx None, []) prefix in
    current_port (fst st) <> None ->
    no_port raw ->
    Re.search Pat.STATUS_RE (Str.strip raw) = Some sm ->
    status (fst (step e st raw)) = reported (Re.group 1 sm).

(** C5, second half, as the specification states it: a command-type
    marker line changes the tag and nothing else. *)
Definition marker_line_only_tags : Prop :=
  forall (e : Env) (prefix : list string) (raw : string),
    let st := run e (init_ctx None, []) prefix in
    is_command_marker e (Str.strip raw) = true ->
    step e st raw = (marked e (fst st) raw, snd st).

(** *** Sample inputs *)

Definition huawei_env : Env := mkEnv "Huawei" "intranet" "SW-A" "sw-a.log".
Definition h3c_env : Env := mkEnv "H3C" "intranet" "SW-B" "sw-b.log".

(** [-2.0] and [5.0] as binary64 values. *)
Definition minus_two : PyFloat.pyfloat := S754_finite true 4503599627370496 (-51).
Definition five : PyFloat.pyfloat := S754_finite false 5629499534213120 (-50).

(** A context with port [GigabitEthernet1/0/1] open and a TX reading. *)
Definition ctx_port1_tx : ScanContext :=
  mkCtx (Some "GigabitEthernet1/0/1") (Some minus_two) None unknown true
        cmd_unknown false None None (Some false).

Definition port2_line : string := "GigabitEthernet1/0/2 transceiver diagnostic information:".

Definition port2_match : Re.rmatch :=
  Re.mkMatch "" "GigabitEthernet1/0/2" " transceiver diagnostic information:"
             (Some "2"%char) [(1, "GigabitEthernet1/0/2")].

(** A log with one TX reading in range and one RX reading out of range. *)
Definition verbose_log : list string :=
  ["<SW-A>display transceiver verbose";
   "GigabitEthernet1/0/1 transceiver information:";
   "  TX Power : -2.00 dBm";
   "  RX Power : 15.00 dBm"].

Definition verbose_record : PortRecord :=
  mkRecord "Huawei" "intranet" "SW-A" "GigabitEthernet1/0/1"
           (Some minus_two) None unknown cmd_unknown "sw-a.log".

(** A log in which a port is read and then reported absent. *)
Definition read_then_absent_log : list string :=
  ["<SW-A>display transceiver verbose";
   "GigabitEthernet1/0/1 transceiver information:";
   "  TX Power : -2.00 dBm";
   "  The transceiver is absent."].

Definition read_then_absent_record : PortRecord :=
  mkRecord "Huawei" "intranet" "SW-A" "GigabitEthernet1/0/1"
           (Some minus_two) None absent cmd_unknown "sw-a.log".

(** The diagnostic table of one port: header, data row, one more row. *)
Definition table_header_line : string :=
  "  Temp.(C)  Voltage(V)  Bias(mA)  RX power(dBm)  TX power(dBm)".
Definition table_row_line : string := "  25  3.3  1.0  -3.20  -2.10".
Definition table_row2_line : string := "  26  3.3  1.0  -4.20  -1.10".

(** [-3.2] and [-2.1] as binary64 values. *)
Definition minus_3_2 : PyFloat.pyfloat := S754_finite true 7205759403792794 (-51).
Definition minus_2_1 : PyFloat.pyfloat := S754_finite true 4728779608739021 (-51).

(** A log whose alarm-threshold region holds a TX value. *)
Definition alarm_log : list string :=
  ["<SW-B>display transceiver diagnosis interface";
   "GigabitEthernet1/0/1 transceiver diagnostic information:";
   "  Current diagnostic parameters:";
   "    TX Power : -2.00 dBm";
   "  Alarm thresholds:";
   "    TX Power : 5.00 dBm"].

Definition alarm_record : PortRecord :=
  mkRecord "H3C" "intranet" "SW-B" "GigabitEthernet1/0/1"
           (Some five) None unknown cmd_unknown "sw-b.log".

(** A port reported absent, then a status token. *)
Definition absent_prefix : list string :=
  ["GigabitEthernet1/0/1 transceiver diagnostic information:";
   "  The transceiver is absent."].

Definition status_line : string := "  status normal".

Definition status_match : Re.rmatch :=
  Re.mkMatch "" "status normal" "" (Some "l"%char) [(1, "normal")].

Definition ctx_port1_absent : ScanContext :=
  mkCtx (Some "GigabitEthernet1/0/1") None None absent false cmd_unknown
        false None None (Some false).

(** A command line that names its interface. *)
Definition diag_command_line : string :=
  "<SW-A>display transceiver diagnosis interface GigabitEthernet1/0/1".

(** A command line that names none. *)
Definition verbose_command_line : string := "<SW-A>display transceiver verbose".

(** The match of the [System Name:] field in a text that holds only it. *)
Definition sysname_match : Re.rmatch :=
  Re.mkMatch "" "System Name: SW-CORE-01" "" (Some "1"%char)
             [(1, "SW-CORE-01")].

(** The diagnosis of one H3C port: the current readings, then the alarm
    thresholds under a header of their own. *)
Definition alarm_table_log : list string :=
  ["<SW-B>display transceiver diagnosis interface";
   "GigabitEthernet1/0/1 transceiver diagnostic information:";
   "  Current diagnostic parameters:";
   "    Temp.(C)  Voltage(V)  Bias(mA)  RX power(dBm)  TX power(dBm)";
   "    36        3.31        6.13      -5.01          -2.22";
   "  Alarm thresholds:";
   "          Temp.(C)  Voltage(V)  Bias(mA)  RX power(dBm)  TX power(dBm)";
   "    High  50        3.55        1.44      -9.00          5.00";
   "    Low   30        3.01        1.01      -30.00         0.00"].

(** [1.44] and [-9.0] as binary64 values. *)
Definition one_44 : PyFloat.pyfloat := S754_finite false 6485183463413514 (-52).
Definition minus_nine : PyFloat.pyfloat := S754_finite true 5066549580791808 (-49).

Definition alarm_table_record : PortRecord :=
  mkRecord "H3C" "intranet" "SW-B" "GigabitEthernet1/0/1"
           (Some minus_nine) (Some one_44) unknown cmd_unknown "sw-b.log".

(* ------------------------------------------------------------------ *)
(** *** Vocabulary for segments and whole files *)

(** The line starts a segment. *)
Definition is_cmd_line (raw : string) : bool :=
  Re.matches Pat.ALL_TRANSCEIVER_CMD_RE raw.

(** The line names an interface. *)
Definition is_port_line (raw : string) : bool :=
  match Re.search Pat.PORT_RE (Str.strip raw) with
  | Some _ => true
  | None => false
  end.

(** The interface a line names. *)
Definition port_named (raw : string) : option string :=
  Re.search_group 1 Pat.PORT_RE (Str.strip raw).

(** The lines up to the first command line, and the groups that each
    command line opens: the segments, built without indices. *)
Fixpoint grouped (lines : list string) : list string * list (list string) :=
  match lines with
  | [] => ([], [])
  | l :: rest =>
      let '(pre, segs) := grouped rest in
      if is_cmd_line l then ([], (l :: pre) :: segs) else (l :: pre, segs)
  end.

(** The records of one segment scanned on its own. *)
Definition segment_records (e : Env) (segment : list string)
  : list PortRecord :=
  snd (scan_segment e (init_ctx None, []) segment).

(** Two contexts that differ in [parsing_power_data] at most. *)
Definition same_but_flag (c1 c2 : ScanContext) : Prop :=
  set_parsing_power_data None c1 = set_parsing_power_data None c2.

(** The number of lines that name an interface. *)
Definition port_count (lines : list string) : nat :=
  List.length (filter is_port_line lines).

(** The record comes from the environment [e] and names an interface that
    one of [lines] names, and it is not empty of information. *)
Definition rec_from (e : Env) (lines : list string) (r : PortRecord) : Prop :=
  (Vendor r = vendor e /\ NetworkType r = network_type e
   /\ Device r = device e /\ LogFileName r = logname e)
  /\ Port r <> EmptyString
  /\ (exists raw, In raw lines /\ port_named raw = Some (Port r))
  /\ (TX_Power r <> None \/ RX_Power r <> None \/ Status_ r <> unknown).

(** The open port, if any, is named by one of [lines]. *)
Definition ctx_named (lines : list string) (c : ScanContext) : Prop :=
  forall p, current_port c = Some p ->
            exists raw, In raw lines /\ port_named raw = Some p.

(** 1 while a port is open, else 0. *)
Definition open_ports (c : ScanContext) : nat :=
  match current_port c with Some _ => 1 | None => 0 end.

(** No port is open and the context is not optical: the state in which
    every line but an interface name or a marker is skipped. *)
Definition blank (c : ScanContext) : Prop :=
  current_port c = None /\ is_optical_port c = false.

(** The record's tag is ['unknown']. *)
Definition untagged (r : PortRecord) : Prop := CommandType_ r = cmd_unknown.

(** A port is open only under the tag ['unknown'], and so are the records. *)
Definition tag_inv (st : state) : Prop :=
  (current_port (fst st) = None \/ command_type (fst st) = cmd_unknown)
  /\ Forall untagged (snd st).

(** A [Current diagnostic parameters:] line that no earlier rule takes and
    that holds no command: it names no interface and matches neither a
    not-applicable marker nor a command-type marker. *)
Definition plain_diag_line (e : Env) (raw : string) : Prop :=
  no_port raw
  /\ Re.matches Pat.NON_OPTICAL_RE (Str.strip raw) = false
  /\ Re.matches Pat.ABSENT_RE (Str.strip raw) = false
  /\ Re.matches Pat.NOT_SUPPORT_RE (Str.strip raw) = false
  /\ Re.matches Pat.TRANSFER_DISTANCE_COPPER_RE (Str.strip raw) = false
  /\ Re.matches Pat.RE_CURRENT_DIAG (Str.strip raw) = true
  /\ is_command_marker e (Str.strip raw) = false.

(** The float is a number: a zero or a finite value. *)
Definition is_number (v : PyFloat.pyfloat) : Prop :=
  match v with
  | S754_zero _ | S754_finite _ _ _ => True
  | _ => False
  end.

(* ------------------------------------------------------------------ *)
(** *** What a pattern can read *)

(** [reads r p s p' s']: starting at [s], with [p] the character before
    it, the pattern [r] can stop at [s'], with [p'] before it.  The
    iterations of a repetition each consume a character, as in [Re.m]. *)
Inductive reads : Re.regex -> option ascii -> string
                  -> option ascii -> string -> Prop :=
| reads_eps : forall p s, reads Re.Eps p s p s
| reads_chr : forall (f : ascii -> bool) p a s,
    f a = true -> reads (Re.Chr f) p (String a s) (Some a) s
| reads_cat : forall a b p s p1 s1 p2 s2,
    reads a p s p1 s1 -> reads b p1 s1 p2 s2 ->
    reads (Re.Cat a b) p s p2 s2
| reads_alt_l : forall a b p s p' s',
    reads a p s p' s' -> reads (Re.Alt a b) p s p' s'
| reads_alt_r : forall a b p s p' s',
    reads b p s p' s' -> reads (Re.Alt a b) p s p' s'
| reads_star_0 : forall a p s, reads (Re.Star a) p s p s
| reads_star_1 : forall a p s p1 s1 p2 s2,
    reads a p s p1 s1 -> String.length s1 < String.length s ->
    reads (Re.Star a) p1 s1 p2 s2 ->
    reads (Re.Star a) p s p2 s2
| reads_grp : forall n a p s p' s',
    reads a p s p' s' -> reads (Re.Grp n a) p s p' s'
| reads_bol : forall s, reads Re.Bol None s None s
| reads_wb : forall p s,
    xorb (Re.word_opt p) (Re.word_opt (Re.head s)) = true ->
    reads Re.Wb p s p s.

(** The character before the position reached after [pre]. *)
Fixpoint last_of (prev : option ascii) (pre : string) : option ascii :=
  match pre with
  | EmptyString => prev
  | String a pre' => last_of (Some a) pre'
  end.

(** The pattern looks at no context: it holds neither [^] nor [\b]. *)
Fixpoint anchor_free (r : Re.regex) : bool :=
  match r with
  | Re.Eps | Re.Chr _ => true
  | Re.Cat a b | Re.Alt a b => anchor_free a && anchor_free b
  | Re.Star a | Re.Grp _ a => anchor_free a
  | Re.Bol | Re.Wb => false
  end.

(** The pattern matches somewhere in [s]. *)
Definition occurs (r : Re.regex) (s : string) : Prop :=
  exists pre suf p' s',
    s = (pre ++ suf)%string /\ reads r (last_of None pre) suf p' s'.

(** [display\s+transceiver\s+], the start of every diagnostic command. *)
Definition display_transceiver : list Re.regex :=
  [Pat.ci "display"; Pat.ws1; Pat.ci "transceiver"; Pat.ws1].

(** [diagnosis\s+interface] *)
Definition diagnosis_interface : list Re.regex :=
  [Pat.ci "diagnosis"; Pat.ws1; Pat.ci "interface"].

(** Every character of the literal is one of a-z. *)
Fixpoint all_lower (w : string) : bool :=
  match w with
  | EmptyString => true
  | String c w' => Chars.is_lower c && all_lower w'
  end.

(** The tag is not ['huawei_diag_detail']. *)
Definition not_detail (ct : CommandType) : Prop := ct <> huawei_diag_detail.

(** The line matters to [parse_h3c_logs]: one of the three patterns of its
    loop matches it. *)
Definition h3c_relevant (ln : string) : bool :=
  Re.matches SumPat.MEM_RE ln || Re.matches SumPat.CPU_RE ln
  || Re.matches SumPat.SN_RE ln.

(** The character stands in the text. *)
Fixpoint mentions (a : ascii) (s : string) : bool :=
  match s with
  | EmptyString => false
  | String b s' => Ascii.eqb a b || mentions a s'
  end.

(** The three percentage cells of the row are empty. *)
Definition blank_figures (row : SummaryRow) : Prop :=
  sCPU_Usage row = EmptyString /\ sCPU_Max row = EmptyString
  /\ sUsedPct row = EmptyString.

(** The default of [sys.set_int_max_str_digits]. *)
Definition default_limits : PyNum.Limits := PyNum.mkLimits 4300.

Definition h3c_head : list string := repeat "#" 50.

Definition mem_line : string := "Mem:    8028116    2512960    5515156".

Definition plain_huawei_text : string :=
  String.concat (String "010" EmptyString)
    ["<SW-A>display version"; "BarCode=2102350"; "Total Memory Used Is: 5 bytes"].

Definition bad_percentage_text : string :=
  String.concat (String "010" EmptyString)
    ["<SW-A>display memory-usage"; "BarCode=2102350";
     "Memory Using Percentage Is: 1.2.3%"].

(** What [detect_type] answers for the file. *)
Definition detected (f : LogFile) : option string :=
  detect_type (file_lines (decoded f)).

Definition recognised (f : LogFile) : bool :=
  match detected f with Some _ => true | None => false end.

(** The file is listed in one of the two directories, under its zone. *)
Definition listed (internal external : list LogFile)
                  (f : LogFile) (zone : string) : Prop :=
  (In f internal /\ zone = INTERNAL) \/ (In f external /\ zone = EXTERNAL).

(** The summary rows and the power records one file adds. *)
Definition file_rows (lim : PyNum.Limits) (zone : string) (f : LogFile)
  : list SummaryRow :=
  fst (classify_file lim zone ([], []) f).

Definition file_records (lim : PyNum.Limits) (zone : string) (f : LogFile)
  : list PortRecord :=
  snd (classify_file lim zone ([], []) f).

(** A Huawei log with one optical port, a log of no known vendor. *)
Definition huawei_file : LogFile :=
  let text := String.concat (String "010" EmptyString)
                ("Huawei Versatile Routing Platform Software" :: verbose_log) in
  mkLog "sw-a.log" text text.

Definition stray_file : LogFile :=
  let text := String.concat (String "010" EmptyString) verbose_log in
  mkLog "notes.log" text text.

Definition huawei_file_record : PortRecord :=
  mkRecord "Huawei" EXTERNAL "SW-A" "GigabitEthernet1/0/1"
           (Some minus_two) None unknown cmd_unknown "sw-a.log".

Definition huawei_file_row : SummaryRow :=
  mkSummary "Huawei" EXTERNAL "sw-a.log" EmptyString EmptyString EmptyString
            (Text EmptyString) EmptyString "sw-a.log".

(** The text does not start with white space. *)
Definition no_lead (s : string) : Prop :=
  match s with
  | String a _ => Chars.is_space a = false
  | EmptyString => True
  end.

(** [reads] with the captures: [c] before the pattern, [c'] after it. *)
Inductive captures : Re.regex -> option ascii -> string -> Re.caps
                     -> option ascii -> string -> Re.caps -> Prop :=
| cap_eps : forall p s c, captures Re.Eps p s c p s c
| cap_chr : forall (f : ascii -> bool) p a s c,
    f a = true -> captures (Re.Chr f) p (String a s) c (Some a) s c
| cap_cat : forall a b p s c p1 s1 c1 p2 s2 c2,
    captures a p s c p1 s1 c1 -> captures b p1 s1 c1 p2 s2 c2 ->
    captures (Re.Cat a b) p s c p2 s2 c2
| cap_alt_l : forall a b p s c p' s' c',
    captures a p s c p' s' c' -> captures (Re.Alt a b) p s c p' s' c'
| cap_alt_r : forall a b p s c p' s' c',
    captures b p s c p' s' c' -> captures (Re.Alt a b) p s c p' s' c'
| cap_star_0 : forall a p s c, captures (Re.Star a) p s c p s c
| cap_star_1 : forall a p s c p1 s1 c1 p2 s2 c2,
    captures a p s c p1 s1 c1 -> String.length s1 < String.length s ->
    captures (Re.Star a) p1 s1 c1 p2 s2 c2 ->
    captures (Re.Star a) p s c p2 s2 c2
| cap_grp : forall n a p s c p' s' c',
    captures a p s c p' s' c' ->
    captures (Re.Grp n a) p s c p' s'
             ((n, Str.take (String.length s - String.length s') s) :: c')
| cap_bol : forall s c, captures Re.Bol None s c None s c
| cap_wb : forall p s c,
    xorb (Re.word_opt p) (Re.word_opt (Re.head s)) = true ->
    captures Re.Wb p s c p s c.

(** The pattern holds no group. *)
Fixpoint group_free (r : Re.regex) : bool :=
  match r with
  | Re.Eps | Re.Chr _ | Re.Bol | Re.Wb => true
  | Re.Cat a b | Re.Alt a b => group_free a && group_free b
  | Re.Star a => group_free a
  | Re.Grp _ _ => false
  end.

(** Every character of the text is in the class. *)
Fixpoint all_chars (f : ascii -> bool) (s : string) : bool :=
  match s with
  | EmptyString => true
  | String a s' => f a && all_chars f s'
  end.

(** A run of one digit or more. *)
Definition digit_run (w : string) : Prop :=
  w <> EmptyString /\ all_chars Chars.is_digit w = true.

(** The texts of [-?\d+(?:\.\d+)?]. *)
Definition numeral (w : string) : Prop :=
  exists (neg : bool) (ds frac : string),
    w = ((if neg then "-" else EmptyString) ++ ds ++ frac)%string
    /\ digit_run ds
    /\ (frac = EmptyString
        \/ exists fs, frac = String "." fs /\ digit_run fs).

(** No line has more characters than [int] accepts digits. *)
Definition within_limit (lim : PyNum.Limits) (lines : list string) : Prop :=
  PyNum.int_max_str_digits lim = 0
  \/ Forall (fun ln => String.length ln <= PyNum.int_max_str_digits lim)
            lines.

Definition tx_line : string := "  TX Power : -2.00 dBm".

Definition tx_line_match : Re.rmatch :=
  Eval vm_compute in
    match Re.search Pat.TX_POWER_RE tx_line with
    | Some mt => mt
    | None => Re.mkMatch EmptyString EmptyString EmptyString None []
    end.

(** The values of the status column: a marker's, or a spelling of
    [normal] or [abnormal]. *)
Definition status_word (s : Status) : Prop :=
  match s with
  | reported txt => Str.lower txt = "normal" \/ Str.lower txt = "abnormal"
  | _ => True
  end.

Definition state_status_ok (st : state) : Prop :=
  status_word (status (fst st))
  /\ Forall (fun r => status_word (Status_ r)) (snd st).

Definition status_log : list string :=
  ["<SW-A>display transceiver verbose";
   "GigabitEthernet1/0/1 transceiver information:";
   "  Transceiver Status Normal"].

Definition status_record : PortRecord :=
  mkRecord "Huawei" "intranet" "SW-A" "GigabitEthernet1/0/1"
           None None (reported "Normal") cmd_unknown "sw-a.log".

(** The characters of a figure [[\d\.]+]. *)
Definition is_figure_char (a : ascii) : bool :=
  Chars.is_digit a || Chars.is_char "." a.

(** The number of dots of a text, and whether it holds a digit. *)
Fixpoint dots (s : string) : nat :=
  match s with
  | EmptyString => 0
  | String a s' => (if Chars.is_char "." a then 1 else 0) + dots s'
  end.

Fixpoint has_digit (s : string) : bool :=
  match s with
  | EmptyString => false
  | String a s' => Chars.is_digit a || has_digit s'
  end.

(** A figure with two dots or more, or without a digit. *)
Definition bad_figure (g : string) : bool :=
  (2 <=? dots g) || negb (has_digit g).

(** The figures [parse_huawei_logs] hands to [float]: the memory
    percentage, then the two CPU figures. *)
Definition huawei_figures (txt : string) : list string :=
  match Re.search SumPat.MEM_PCT_RE txt with
  | Some mt => [Re.group 1 mt]
  | None => []
  end
  ++ match first_some (SumPat.search_cpu_ctrl txt)
                      (Re.search SumPat.CPU_SIMPLE_RE txt) with
     | Some m => [Re.group 1 m; Re.group 2 m]
     | None => []
     end.

(** A text of figure characters that is not empty. *)
Definition figure_text (g : string) : Prop :=
  g <> EmptyString /\ all_chars is_figure_char g = true.

(** Every figure of the CPU dictionary is at least 0. *)
Definition figures_not_negative (st : H3CStats) : Prop :=
  Forall (fun kv : Z * Z => (0 <= snd kv)%Z) (cpu_stats st).

(** The figures of the CPU dictionary. *)
Definition cpu_figures (st : H3CStats) : list Z := map snd (cpu_stats st).

(** An H3C log with an idle window. *)
Definition idle_log : list string :=
  ["<SD-JN-acc>display cpu-usage";
   "       0% in last 5 seconds";
   "       7% in last 1 minute";
   "      12% in last 5 minutes"].

Definition idle_row : SummaryRow :=
  mkSummary "H3C" INTERNAL "SD-JN-acc" EmptyString EmptyString "12.00%"
            (Text EmptyString) EmptyString "sw.log".

(** The float is a zero or a finite value: the conversion that gave it
    did not overflow. *)
Definition no_overflow (v : spec_float) : Prop :=
  match v with
  | S754_zero _ | S754_finite _ _ _ => True
  | _ => False
  end.

(** A number of at most 300 digits. *)
Definition small (z : Z) : Prop := (0 <= z < 10 ^ 300)%Z.

(** The numbers kept by the line loop of [parse_h3c_logs] are small. *)
Definition stats_small (st : H3CStats) : Prop :=
  (forall t, total_kb st = Some t -> small t)
  /\ (forall u, used_kb st = Some u -> small u)
  /\ Forall (fun kv : Z * Z => small (snd kv)) (cpu_stats st).

(** No line has more than 300 characters. *)
Definition short_lines (lines : list string) : Prop :=
  Forall (fun ln => String.length ln <= 300) lines.

Definition h3c_sample_log : list string :=
  ["<SD-JN-acc>display memory"; mem_line; "       6% in last 5 seconds"].

(* ------------------------------------------------------------------ *)
(** *** Lemmas on one step and on runs *)

(** Closes a goal about sample inputs by evaluation. *)
Ltac by_eval := vm_compute; reflexivity.

Section StepLemmas.

Variable e : Env.

Lemma save_port_eq (c : ScanContext) (out : list PortRecord) :
  save_port e (c, out) = (reset_ctx, out ++ flushed e c).
Proof.
  unfold save_port, flushed.
  destruct (worth_saving c); [reflexivity | now rewrite app_nil_r].
Qed.

Lemma step_port (c : ScanContext) (out : list PortRecord) (raw : string)
                (pm : Re.rmatch) :
  Re.search Pat.PORT_RE (Str.strip raw) = Some pm ->
  step e (c, out) raw
  = (opened (Re.group 1 pm), out ++ flushed e (marked e c raw)).
Proof.
  intros Hp. unfold step. rewrite Hp.
  unfold open_port. fold (marked e c raw). rewrite save_port_eq. reflexivity.
Qed.

Lemma step_no_port (c : ScanContext) (out : list PortRecord) (raw : string) :
  no_port raw ->
  step e (c, out) raw = (classify e (Str.strip raw) (marked e c raw), out).
Proof.
  intros Hp. unfold step. rewrite Hp. reflexivity.
Qed.

Lemma run_cons (raw : string) (rest : list string) (st : state) :
  run e st (raw :: rest) = run e (step e st raw) rest.
Proof. reflexivity. Qed.

Lemma run_app (pre post : list string) (st : state) :
  run e st (pre ++ post) = run e (run e st pre) post.
Proof. unfold run. apply fold_left_app. Qed.

(** The result list only grows, and what a step appends does not depend
    on what the list already holds. *)
Lemma step_out (c : ScanContext) (out : list PortRecord) (raw : string) :
  step e (c, out) raw
  = (fst (step e (c, []) raw), out ++ snd (step e (c, []) raw)).
Proof.
  destruct (Re.search Pat.PORT_RE (Str.strip raw)) as [pm|] eqn:Hp.
  - rewrite !(step_port _ _ _ _ Hp). reflexivity.
  - rewrite !(step_no_port _ _ _ Hp). simpl. now rewrite app_nil_r.
Qed.

Lemma run_out (segment : list string) :
  forall (c : ScanContext) (out : list PortRecord),
    run e (c, out) segment
    = (fst (run e (c, []) segment), out ++ snd (run e (c, []) segment)).
Proof.
  induction segment as [|raw rest IH]; intros c out.
  - simpl. now rewrite app_nil_r.
  - rewrite !run_cons. rewrite (step_out c out raw).
    destruct (step e (c, []) raw) as [c1 o1].
    cbn [fst snd]. rewrite IH, (IH c1 o1).
    cbn [fst snd]. now rewrite app_assoc.
Qed.

End StepLemmas.

(* ------------------------------------------------------------------ *)
(** *** The flush *)

Lemma app_one_neq {A : Type} (l : list A) (x : A) : l ++ [x] <> l.
Proof.
  intros H. apply (f_equal (@List.length A)) in H.
  rewrite length_app in H. simpl in H. lia.
Qed.

Lemma worth_saving_informative (c : ScanContext) :
  worth_saving c = true <-> informative c.
Proof.
  unfold worth_saving, informative.
  destruct c as [cp tx rx st op ct th ri ti pp]; simpl.
  split.
  - intros H. apply andb_true_iff in H as [Hp Hi]. split.
    + destruct cp as [[|a p]|]; try discriminate.
      exists (String a p). split; [reflexivity | discriminate].
    + destruct tx; [left; discriminate|].
      destruct rx; [right; left; discriminate|].
      right; right. destruct st; simpl in Hi; discriminate.
  - intros [[p [Hp Hne]] Hi]. subst cp.
    destruct p as [|a p]; [contradiction|]. simpl.
    destruct tx; [reflexivity|]. destruct rx; [reflexivity|].
    destruct st; try reflexivity.
    destruct Hi as [Hi|[Hi|Hi]]; contradiction.
Qed.

(** C3. At a flush, [save_port] appends a record exactly when the context
    names a non-empty port and holds a TX reading, an RX reading or a status
    other than [unknown]; the record carries the port, readings and status
    of the context.  A context without such information appends nothing.
    Either way the context is reset. *)
Theorem flush_emits_iff_informative
        (e : Env) (c : ScanContext) (out : list PortRecord) :
  (informative c <-> snd (save_port e (c, out)) = out ++ [record_of e c])
  /\ (~ informative c <-> snd (save_port e (c, out)) = out)
  /\ fst (save_port e (c, out)) = reset_ctx
  /\ Some (Port (record_of e c)) = first_some (current_port c) (Some EmptyString)
  /\ TX_Power (record_of e c) = tx_power c
  /\ RX_Power (record_of e c) = rx_power c
  /\ Status_ (record_of e c) = status c.
Proof.
  rewrite save_port_eq. cbn [fst snd]. unfold flushed.
  pose proof (worth_saving_informative c) as Hw.
  assert (Hport : Some (Port (record_of e c))
                  = first_some (current_port c) (Some EmptyString)).
  { simpl. destruct (current_port c); reflexivity. }
  destruct (worth_saving c) eqn:Ew.
  - assert (Hi : informative c) by now apply Hw.
    split; [tauto|]. split.
    + split; [tauto|]. intros Heq. exfalso.
      now apply (app_one_neq out (record_of e c)).
    + now repeat split.
  - assert (Hn : ~ informative c).
    { intros Hi. apply Hw in Hi. discriminate. }
    rewrite app_nil_r. split.
    + split; [tauto|]. intros Heq. exfalso. symmetry in Heq.
      now apply (app_one_neq out (record_of e c)).
    + split; [tauto|]. now repeat split.
Qed.

(* ------------------------------------------------------------------ *)
(** *** The port rule *)

Lemma flushed_init (e : Env) (ppd : option bool) (raw : string) :
  flushed e (marked e (init_ctx ppd) raw) = [].
Proof. reflexivity. Qed.

(** C1. A line in which the interface-name pattern matches flushes the
    context it finds (appending its record when the flush condition holds,
    with the tag as this line's command-type rule leaves it) and leaves the
    context [opened]: the new port, optical, status [unknown], no TX or RX
    reading, table state cleared.  Hence the records of a segment from that
    line on are those of the segment that starts at the line: nothing read
    before it reaches them, and each record names the one port whose
    context was flushed. *)
Theorem port_line_flushes_and_isolates
        (e : Env) (c : ScanContext) (out : list PortRecord)
        (raw : string) (pm : Re.rmatch) :
  Re.search Pat.PORT_RE (Str.strip raw) = Some pm ->
  step e (c, out) raw
  = (opened (Re.group 1 pm), out ++ flushed e (marked e c raw))
  /\ forall (pre post : list string) (c0 c1 : ScanContext)
            (out0 : list PortRecord),
       snd (scan_segment e (c0, out0) (pre ++ raw :: post))
       = snd (run e (init_ctx (parsing_power_data c0), out0) (pre ++ [raw]))
         ++ snd (scan_segment e (c1, []) (raw :: post)).
Proof.
  intros Hp. split; [now apply step_port|].
  intros pre post c0 c1 out0.
  unfold scan_segment.
  rewrite !run_app, !run_cons.
  destruct (run e (init_ctx (parsing_power_data c0), out0) pre) as [cp op].
  rewrite !(step_port e _ _ _ _ Hp). rewrite flushed_init.
  cbn [run fold_left snd app].
  rewrite (run_out e post (opened (Re.group 1 pm)) (op ++ _)).
  destruct (run e (opened (Re.group 1 pm), []) post) as [cq oq].
  cbn [fst snd]. rewrite !save_port_eq. cbn [snd].
  now rewrite !app_assoc.
Qed.

Lemma port_line_flushes_and_isolates_witness :
  Re.search Pat.PORT_RE (Str.strip port2_line) = Some port2_match
  /\ step huawei_env (ctx_port1_tx, []) port2_line
     = (opened "GigabitEthernet1/0/2",
        [mkRecord "Huawei" "intranet" "SW-A" "GigabitEthernet1/0/1"
                  (Some minus_two) None unknown cmd_unknown "sw-a.log"]).
Proof.
  split; [vm_compute; reflexivity|].
  apply (port_line_flushes_and_isolates
           huawei_env ctx_port1_tx [] port2_line port2_match).
  vm_compute; reflexivity.
Defined.

(* ------------------------------------------------------------------ *)
(** *** The range of the readings *)

Lemma power_ok_none : power_ok None.
Proof. intros v H. discriminate. Qed.

Lemma accept_cases (raw : string) (field : option PyFloat.pyfloat) :
  accept raw field = field
  \/ exists v, PyFloat.float raw = Some v
               /\ PyFloat.in_range v = true
               /\ accept raw field = Some v.
Proof.
  unfold accept. destruct (PyFloat.float raw) as [v|]; [|now left].
  destruct (PyFloat.in_range v) eqn:Hr; [right|now left].
  exists v. now repeat split.
Qed.

Lemma accept_ok (raw : string) (field : option PyFloat.pyfloat) :
  power_ok field -> power_ok (accept raw field).
Proof.
  intros Hf. destruct (accept_cases raw field) as [->|[v [_ [Hr ->]]]].
  - exact Hf.
  - intros w Hw. now injection Hw as <-.
Qed.

Lemma accept_out_of_range (raw : string) (field : option PyFloat.pyfloat)
                          (v : PyFloat.pyfloat) :
  PyFloat.float raw = Some v -> PyFloat.in_range v = false ->
  accept raw field = field.
Proof. intros Hf Hr. unfold accept. now rewrite Hf, Hr. Qed.

Lemma cell_ok (idx : option nat) (columns : list string)
              (field : option PyFloat.pyfloat) :
  power_ok field -> power_ok (cell idx columns field).
Proof.
  intros Hf. unfold cell. destruct idx as [i|]; [|exact Hf].
  destruct (nth_error columns i); [now apply accept_ok | exact Hf].
Qed.

Lemma by_shape_ok (r : Re.regex) (line : string)
                  (field : option PyFloat.pyfloat) :
  power_ok field -> power_ok (by_shape r line field).
Proof.
  intros Hf. unfold by_shape.
  destruct (Re.search r line); [now apply accept_ok | exact Hf].
Qed.

Lemma by_fallback_ok (which line : string) (field : option PyFloat.pyfloat) :
  power_ok field -> power_ok (by_fallback which line field).
Proof.
  intros Hf. unfold by_fallback.
  destruct (is_none field); [|exact Hf].
  destruct (Re.search Pat.POWER_VALUE_RE line); [|exact Hf].
  destruct (String.eqb _ which); [now apply accept_ok | exact Hf].
Qed.

Create HintDb range.

#[local] Hint Resolve power_ok_none accept_ok cell_ok by_shape_ok
  by_fallback_ok : range.

Section RangeInvariant.

Variable e : Env.

Lemma on_values_ok (line : string) (c : ScanContext) :
  ctx_ok c -> ctx_ok (on_values e line c).
Proof.
  intros [Ht Hr]. unfold on_values, ctx_ok.
  destruct (Re.search Pat.STATUS_RE line);
    destruct (String.eqb (vendor e) "H3C");
    cbn [tx_power rx_power set_tx_power set_rx_power set_status];
    split; auto 10 with range.
Qed.

Lemma on_table_row_ok (line : string) (c : ScanContext) :
  ctx_ok c -> ctx_ok (on_table_row line c).
Proof.
  intros [Ht Hr]. unfold on_table_row, ctx_ok.
  cbn [tx_power rx_power set_tx_power set_rx_power set_table_header_found].
  split; auto with range.
Qed.

Lemma on_table_header_ok (line : string) (c : ScanContext) :
  ctx_ok c -> ctx_ok (on_table_header line c).
Proof.
  intros Hc. unfold on_table_header.
  destruct (index_of "RX power" 0 _); [destruct (index_of "TX power" 0 _)|];
    exact Hc.
Qed.

Lemma classify_ok (line : string) (c : ScanContext) :
  ctx_ok c -> ctx_ok (classify e line c).
Proof.
  intros Hc. unfold classify.
  destruct (Re.matches Pat.NON_OPTICAL_RE line); [exact Hc|].
  destruct (Re.matches Pat.ABSENT_RE line); [exact Hc|].
  destruct (Re.matches Pat.NOT_SUPPORT_RE line); [exact Hc|].
  destruct (negb (is_none (current_port c)) && _); [exact Hc|].
  destruct (negb (is_optical_port c)); [exact Hc|].
  destruct (vendor_known e && Re.matches Pat.RE_CURRENT_DIAG line);
    [exact Hc|].
  destruct (vendor_known e && Re.matches Pat.RE_ALARM_THRESHOLDS line);
    [exact Hc|].
  destruct (is_table_header e line); [now apply on_table_header_ok|].
  destruct (table_header_found c);
    [now apply on_table_row_ok | now apply on_values_ok].
Qed.

Lemma flushed_ok (c : ScanContext) : ctx_ok c -> Forall rec_ok (flushed e c).
Proof.
  intros Hc. unfold flushed.
  destruct (worth_saving c); constructor; [exact Hc | constructor].
Qed.

Lemma step_ok (st : state) (raw : string) :
  state_ok st -> state_ok (step e st raw).
Proof.
  destruct st as [c out]. intros [Hc Ho]. cbn [fst snd] in *.
  assert (Hm : ctx_ok (marked e c raw)) by exact Hc.
  destruct (Re.search Pat.PORT_RE (Str.strip raw)) as [pm|] eqn:Hp.
  - rewrite (step_port e _ _ _ _ Hp). split; cbn [fst snd].
    + split; apply power_ok_none.
    + apply Forall_app. split; [exact Ho | now apply flushed_ok].
  - rewrite (step_no_port e _ _ _ Hp). split; cbn [fst snd].
    + now apply classify_ok.
    + exact Ho.
Qed.

Lemma run_ok (segment : list string) :
  forall st : state, state_ok st -> state_ok (run e st segment).
Proof.
  induction segment as [|raw rest IH]; intros st Hst; [exact Hst|].
  rewrite run_cons. apply IH. now apply step_ok.
Qed.

Lemma scan_segment_ok (st : state) (segment : list string) :
  state_ok st -> state_ok (scan_segment e st segment).
Proof.
  destruct st as [c out]. intros [Hc Ho]. unfold scan_segment.
  assert (Hr : state_ok (run e (init_ctx (parsing_power_data c), out) segment)).
  { apply run_ok. split; [split; apply power_ok_none | exact Ho]. }
  destruct (run e _ segment) as [c' out'].
  rewrite save_port_eq. destruct Hr as [Hc' Ho'].
  split; cbn [fst snd] in *.
  - split; apply power_ok_none.
  - apply Forall_app. split; [exact Ho' | now apply flushed_ok].
Qed.

Lemma segments_ok (segs : list (list string)) :
  forall st : state, state_ok st -> state_ok (fold_left (scan_segment e) segs st).
Proof.
  induction segs as [|sg rest IH]; intros st Hst; [exact Hst|].
  simpl. apply IH. now apply scan_segment_ok.
Qed.

End RangeInvariant.

(** An accepted value is a finite number. *)
Lemma in_range_finite (v : PyFloat.pyfloat) :
  PyFloat.in_range v = true ->
  match v with
  | S754_zero _ | S754_finite _ _ _ => True
  | _ => False
  end.
Proof.
  destruct v as [s|s| |s mt ex]; try exact (fun _ => I);
    try destruct s; vm_compute; discriminate.
Qed.

(** C2. Every record [extract_power_info] returns has its TX and its RX
    reading, when present, accepted by [-50 <= val <= 10].  A candidate
    whose parsed value fails that test leaves the field as it was, in each
    of the places that read one: the cell of a table row, the direct and
    the H3C shapes, and the fallback shape. *)
Theorem readings_within_range
        (lines : list string) (base vendor network_type : string)
        (r : PortRecord) :
  In r (extract_power_info lines base vendor network_type) ->
  (power_ok (TX_Power r) /\ power_ok (RX_Power r))
  /\ forall (raw : string) (v : PyFloat.pyfloat)
            (field : option PyFloat.pyfloat),
       PyFloat.float raw = Some v -> PyFloat.in_range v = false ->
       (forall (i : nat) (columns : list string),
           nth_error columns i = Some raw ->
           cell (Some i) columns field = field)
       /\ (forall (shape : Re.regex) (line : string) (mt : Re.rmatch),
              Re.search shape line = Some mt -> Re.group 1 mt = raw ->
              by_shape shape line field = field)
       /\ (forall (which line : string) (pm : Re.rmatch),
              Re.search Pat.POWER_VALUE_RE line = Some pm ->
              Re.group 2 pm = raw ->
              by_fallback which line field = field).
Proof.
  intros Hin. split.
  - unfold extract_power_info in Hin.
    pose proof (segments_ok
                  (mkEnv vendor network_type (resolve_device lines base) base)
                  (segments lines) (init_ctx None, [])) as Hok.
    destruct Hok as [_ Hall].
    + split; [split; apply power_ok_none | constructor].
    + rewrite Forall_forall in Hall. exact (Hall r Hin).
  - intros raw v field Hf Hr. repeat split.
    + intros i columns Hn. unfold cell. rewrite Hn.
      now apply accept_out_of_range with v.
    + intros shape line mt Hs Hg. unfold by_shape. rewrite Hs, Hg.
      now apply accept_out_of_range with v.
    + intros which line pm Hs Hg. unfold by_fallback.
      destruct (is_none field); [|reflexivity].
      rewrite Hs, Hg. destruct (String.eqb _ which); [|reflexivity].
      now apply accept_out_of_range with v.
Qed.

Lemma readings_within_range_witness :
  In verbose_record
     (extract_power_info verbose_log "sw-a.log" "Huawei" "intranet")
  /\ power_ok (TX_Power verbose_record)
  /\ power_ok (RX_Power verbose_record).
Proof.
  assert (Hin : In verbose_record
                   (extract_power_info verbose_log "sw-a.log" "Huawei"
                                       "intranet")).
  { vm_compute. left. reflexivity. }
  split; [exact Hin|].
  exact (proj1 (readings_within_range verbose_log "sw-a.log" "Huawei"
                                      "intranet" verbose_record Hin)).
Defined.

(* ------------------------------------------------------------------ *)
(** *** The not-applicable markers *)

Section Markers.

Variable e : Env.

(** A marker rule only writes [status] and [is_optical_port]. *)
Lemma classify_marker (line : string) (c : ScanContext) :
  is_marker c line = true ->
  exists s, not_applicable s = true
            /\ classify e line c = mark_not_optical s c.
Proof.
  unfold is_marker, classify. intros H.
  destruct (Re.matches Pat.NON_OPTICAL_RE line); [now exists non_optical|].
  destruct (Re.matches Pat.ABSENT_RE line); [now exists absent|].
  destruct (Re.matches Pat.NOT_SUPPORT_RE line); [now exists not_supported|].
  simpl in H. rewrite H. now exists copper_port.
Qed.

(** With [is_optical_port] false, a line that is no marker is skipped. *)
Lemma classify_skip (line : string) (c : ScanContext) :
  is_marker c line = false -> is_optical_port c = false ->
  classify e line c = c.
Proof.
  unfold is_marker, classify. intros H Ho.
  destruct (Re.matches Pat.NON_OPTICAL_RE line); [discriminate|].
  destruct (Re.matches Pat.ABSENT_RE line); [discriminate|].
  destruct (Re.matches Pat.NOT_SUPPORT_RE line); [discriminate|].
  simpl in H. rewrite H, Ho. reflexivity.
Qed.

Lemma step_marker (c : ScanContext) (out : list PortRecord) (raw : string) :
  no_port raw -> is_marker c (Str.strip raw) = true ->
  closed_like c (fst (step e (c, out) raw))
  /\ snd (step e (c, out) raw) = out.
Proof.
  intros Hp Hm. rewrite (step_no_port e _ _ _ Hp). cbn [fst snd].
  destruct (classify_marker (Str.strip raw) (marked e c raw) Hm)
    as [s [Hs ->]].
  now repeat split.
Qed.

Lemma step_closed (c0 c : ScanContext) (out : list PortRecord) (raw : string) :
  no_port raw -> closed_like c0 c ->
  closed_like c0 (fst (step e (c, out) raw))
  /\ snd (step e (c, out) raw) = out.
Proof.
  intros Hp (Ho & Hs & Ht & Hr & Hc).
  rewrite (step_no_port e _ _ _ Hp). cbn [fst snd].
  destruct (is_marker (marked e c raw) (Str.strip raw)) eqn:Hm.
  - destruct (classify_marker _ _ Hm) as [s [Hs' ->]].
    now repeat split.
  - rewrite (classify_skip _ _ Hm Ho). now repeat split.
Qed.

Lemma run_closed (rest : list string) :
  forall (c0 c : ScanContext) (out : list PortRecord),
    Forall no_port rest -> closed_like c0 c ->
    closed_like c0 (fst (run e (c, out) rest))
    /\ snd (run e (c, out) rest) = out.
Proof.
  induction rest as [|raw rest IH]; intros c0 c out Hall Hc.
  - now split.
  - inversion Hall as [|x xs Hp Hrest]; subst.
    rewrite run_cons.
    destruct (step_closed c0 c out raw Hp Hc) as [Hc' Hout].
    destruct (step e (c, out) raw) as [c' out']. cbn [fst snd] in *.
    subst out'. now apply IH.
Qed.

End Markers.

(** C4. Once a non-optical, absent, not-supported or copper marker line has
    been classified for a context, however many lines follow without
    naming an interface, the context's TX and RX readings are the ones it
    had before the marker: no such line assigns one, whatever its shape.
    The context stays non-optical with a not-applicable status, and no
    record is appended meanwhile. *)
Theorem marked_port_reads_nothing
        (e : Env) (c : ScanContext) (out : list PortRecord)
        (raw : string) (rest : list string) :
  no_port raw ->
  is_marker c (Str.strip raw) = true ->
  Forall no_port rest ->
  let st := run e (step e (c, out) raw) rest in
  tx_power (fst st) = tx_power c
  /\ rx_power (fst st) = rx_power c
  /\ is_optical_port (fst st) = false
  /\ not_applicable (status (fst st)) = true
  /\ current_port (fst st) = current_port c
  /\ snd st = out.
Proof.
  intros Hp Hm Hall st. subst st.
  destruct (step_marker e c out raw Hp Hm) as [Hc Hout].
  destruct (step e (c, out) raw) as [c' out']. cbn [fst snd] in *.
  subst out'.
  destruct (run_closed e rest c c' out Hall Hc)
    as [(Ho & Hs & Ht & Hr & Hcp) Hout].
  now repeat split.
Qed.

Lemma marked_port_reads_nothing_witness :
  let st := run huawei_env
                (step huawei_env (opened "GigabitEthernet1/0/1", [])
                      "  The transceiver is absent.")
                ["  TX Power : -2.00 dBm"; "  RX Power(dBm) : -3.10";
                 "  status normal"] in
  tx_power (fst st) = None /\ rx_power (fst st) = None.
Proof.
  assert (H1 : no_port "  The transceiver is absent.")
    by by_eval.
  assert (H2 : is_marker (opened "GigabitEthernet1/0/1")
                         (Str.strip "  The transceiver is absent.") = true)
    by by_eval.
  assert (H3 : Forall no_port
                      ["  TX Power : -2.00 dBm"; "  RX Power(dBm) : -3.10";
                       "  status normal"])
    by (repeat constructor; by_eval).
  pose proof (marked_port_reads_nothing
                huawei_env (opened "GigabitEthernet1/0/1") []
                "  The transceiver is absent." _ H1 H2 H3) as H.
  cbv zeta in H. destruct H as (Ht & Hr & _).
  split; [exact Ht | exact Hr].
Defined.

(** C10. A marker line that follows a reading keeps it: the marker rules
    write the status and clear [is_optical_port], and leave [tx_power],
    [rx_power] and the port as they were, appending nothing.  The record
    flushed later therefore carries a not-applicable status together with
    the readings, as the record of [read_then_absent_log] does. *)
Theorem marker_keeps_readings
        (e : Env) (c : ScanContext) (out : list PortRecord) (raw : string) :
  no_port raw ->
  is_marker c (Str.strip raw) = true ->
  let st := step e (c, out) raw in
  (tx_power (fst st) = tx_power c
   /\ rx_power (fst st) = rx_power c
   /\ current_port (fst st) = current_port c
   /\ not_applicable (status (fst st)) = true
   /\ is_optical_port (fst st) = false
   /\ snd st = out)
  /\ (informative c ->
      snd (save_port e st) = out ++ [record_of e (fst st)]
      /\ TX_Power (record_of e (fst st)) = tx_power c
      /\ RX_Power (record_of e (fst st)) = rx_power c
      /\ not_applicable (Status_ (record_of e (fst st))) = true)
  /\ extract_power_info read_then_absent_log "sw-a.log" "Huawei" "intranet"
     = [read_then_absent_record].
Proof.
  intros Hp Hm st. subst st.
  destruct (step_marker e c out raw Hp Hm) as [(Ho & Hs & Ht & Hr & Hc) Hout].
  destruct (step e (c, out) raw) as [c' out']. cbn [fst snd] in *.
  subst out'. split; [now repeat split|]. split.
  - intros [[p [Hcp Hne]] Hi].
    assert (Hw : worth_saving c' = true).
    { unfold worth_saving. rewrite Hc, Hcp.
      destruct p as [|a p]; [contradiction|]. simpl.
      destruct (status c'); try discriminate; simpl;
        now rewrite !orb_true_r. }
    rewrite save_port_eq. unfold flushed. rewrite Hw. cbn [snd].
    now repeat split.
  - vm_compute. reflexivity.
Qed.

Lemma marker_keeps_readings_witness :
  let st := step huawei_env (ctx_port1_tx, []) "  The transceiver is absent." in
  tx_power (fst st) = Some minus_two
  /\ status (fst st) = absent
  /\ snd (save_port huawei_env st) = [read_then_absent_record].
Proof.
  assert (H1 : no_port "  The transceiver is absent.")
    by by_eval.
  assert (H2 : is_marker ctx_port1_tx
                         (Str.strip "  The transceiver is absent.") = true)
    by by_eval.
  pose proof (marker_keeps_readings
                huawei_env ctx_port1_tx [] "  The transceiver is absent."
                H1 H2) as H.
  cbv zeta in H. destruct H as ((Ht & _) & _ & _).
  split; [exact Ht|]. split; vm_compute; reflexivity.
Defined.

(* ------------------------------------------------------------------ *)
(** *** The table rules *)

Section Table.

Variable e : Env.

(** A line that reaches the readings is taken by the header rule, else by
    the row rule while a header is pending, else by the value rules. *)
Lemma classify_reading (c : ScanContext) (raw : string) :
  reaches_readings c raw ->
  classify e (Str.strip raw) (marked e c raw)
  = if is_table_header e (Str.strip raw)
    then on_table_header (Str.strip raw) (marked e c raw)
    else if table_header_found c
         then on_table_row (Str.strip raw) (marked e c raw)
         else on_values e (Str.strip raw) (marked e c raw).
Proof.
  intros (_ & Hm & Ho & Hd & Ha). unfold is_marker in Hm.
  apply orb_false_iff in Hm as [Hm Hcu].
  apply orb_false_iff in Hm as [Hm Hns].
  apply orb_false_iff in Hm as [Hno Hab].
  unfold classify.
  rewrite Hno, Hab, Hns.
  cbn [current_port is_optical_port table_header_found marked
       set_command_type].
  rewrite Hcu, Ho, Hd, Ha, !andb_false_r. reflexivity.
Qed.

Lemma on_values_shapeless (line : string) (c : ScanContext) :
  shapeless line -> on_values e line c = c.
Proof.
  intros (Ht & Hr & Hht & Hhr & Hf & Hs).
  unfold on_values, by_shape, by_fallback.
  rewrite Ht, Hr, Hht, Hhr, Hf, Hs.
  destruct c as [cp tx rx st op ct th ri ti pp].
  destruct (String.eqb (vendor e) "H3C"), tx, rx; reflexivity.
Qed.

End Table.

(** C7. A table header line that reaches the readings arms the row rule
    and records the RX and TX column indices.  The next line that reaches
    the readings is the data row: it is split on runs of two or more
    whitespace characters, the cells at the two indices are validated into
    [rx_power] and [tx_power], and [table_header_found] is cleared.  A
    further line of bare numbers, with no header in between, changes
    neither reading and does not arm the rule again. *)
Theorem header_takes_one_row
        (e : Env) (c : ScanContext) (out : list PortRecord)
        (header row next : string) :
  reaches_readings c header ->
  is_table_header e (Str.strip header) = true ->
  reaches_readings c row ->
  is_table_header e (Str.strip row) = false ->
  reaches_readings c next ->
  is_table_header e (Str.strip next) = false ->
  shapeless (Str.strip next) ->
  let s1 := step e (c, out) header in
  let s2 := step e s1 row in
  let s3 := step e s2 next in
  table_header_found (fst s1) = true
  /\ (rx_power_col_idx (fst s1), tx_power_col_idx (fst s1))
     = table_indices (Str.strip header)
  /\ rx_power (fst s2)
     = cell (fst (table_indices (Str.strip header)))
            (table_columns (Str.strip row)) (rx_power c)
  /\ tx_power (fst s2)
     = cell (snd (table_indices (Str.strip header)))
            (table_columns (Str.strip row)) (tx_power c)
  /\ table_header_found (fst s2) = false
  /\ rx_power (fst s3) = rx_power (fst s2)
  /\ tx_power (fst s3) = tx_power (fst s2)
  /\ table_header_found (fst s3) = false
  /\ snd s3 = out.
Proof.
  intros Hh Hth Hr Htr Hn Htn Hsh s1 s2 s3.
  assert (Hp1 : no_port header) by apply Hh.
  assert (Hp2 : no_port row) by apply Hr.
  assert (Hp3 : no_port next) by apply Hn.
  assert (E1 : s1 = (on_table_header (Str.strip header) (marked e c header),
                     out)).
  { subst s1. rewrite (step_no_port e _ _ _ Hp1).
    now rewrite (classify_reading e c header Hh), Hth. }
  set (c1 := on_table_header (Str.strip header) (marked e c header)) in *.
  assert (F1 : table_header_found c1 = true
               /\ (rx_power_col_idx c1, tx_power_col_idx c1)
                  = table_indices (Str.strip header)
               /\ rx_power c1 = rx_power c /\ tx_power c1 = tx_power c
               /\ current_port c1 = current_port c
               /\ is_optical_port c1 = is_optical_port c).
  { subst c1. unfold on_table_header, table_indices.
    destruct (index_of "RX power" 0 _);
      [destruct (index_of "TX power" 0 _)|]; now repeat split. }
  destruct F1 as (Fth & Fidx & Frx & Ftx & Fcp & Fop).
  assert (Hr1 : reaches_readings c1 row).
  { destruct Hr as (A & B & C & D & E).
    unfold reaches_readings, is_marker in *. now rewrite Fcp, Fop. }
  assert (E2 : s2 = (on_table_row (Str.strip row) (marked e c1 row), out)).
  { subst s2. rewrite E1, (step_no_port e _ _ _ Hp2).
    now rewrite (classify_reading e c1 row Hr1), Htr, Fth. }
  set (c2 := on_table_row (Str.strip row) (marked e c1 row)) in *.
  assert (F2 : rx_power c2
               = cell (rx_power_col_idx c1) (table_columns (Str.strip row))
                      (rx_power c1)
               /\ tx_power c2
                  = cell (tx_power_col_idx c1) (table_columns (Str.strip row))
                         (tx_power c1)
               /\ table_header_found c2 = false
               /\ current_port c2 = current_port c
               /\ is_optical_port c2 = is_optical_port c).
  { subst c2. unfold on_table_row, table_columns. cbn.
    now repeat split. }
  destruct F2 as (Grx & Gtx & Gth & Gcp & Gop).
  assert (Hn2 : reaches_readings c2 next).
  { destruct Hn as (A & B & C & D & E).
    unfold reaches_readings, is_marker in *. now rewrite Gcp, Gop. }
  assert (E3 : s3 = (marked e c2 next, out)).
  { subst s3. rewrite E2, (step_no_port e _ _ _ Hp3).
    rewrite (classify_reading e c2 next Hn2), Htn, Gth.
    now rewrite (on_values_shapeless e _ _ Hsh). }
  rewrite E1, E2, E3. cbn [fst snd].
  assert (Fi : rx_power_col_idx c1 = fst (table_indices (Str.strip header)))
    by now rewrite <- Fidx.
  assert (Fj : tx_power_col_idx c1 = snd (table_indices (Str.strip header)))
    by now rewrite <- Fidx.
  split; [exact Fth|]. split; [exact Fidx|].
  split; [now rewrite Grx, Fi, Frx|].
  split; [now rewrite Gtx, Fj, Ftx|].
  split; [exact Gth|]. now repeat split.
Qed.

Lemma header_takes_one_row_witness :
  let s1 := step h3c_env (opened "GigabitEthernet1/0/2", []) table_header_line in
  let s2 := step h3c_env s1 table_row_line in
  let s3 := step h3c_env s2 table_row2_line in
  rx_power (fst s2) = Some minus_3_2
  /\ tx_power (fst s2) = Some minus_2_1
  /\ rx_power (fst s3) = Some minus_3_2
  /\ tx_power (fst s3) = Some minus_2_1.
Proof.
  assert (H1 : reaches_readings (opened "GigabitEthernet1/0/2") table_header_line)
    by (repeat split; by_eval).
  assert (H2 : is_table_header h3c_env (Str.strip table_header_line) = true)
    by by_eval.
  assert (H3 : reaches_readings (opened "GigabitEthernet1/0/2") table_row_line)
    by (repeat split; by_eval).
  assert (H4 : is_table_header h3c_env (Str.strip table_row_line) = false)
    by by_eval.
  assert (H5 : reaches_readings (opened "GigabitEthernet1/0/2") table_row2_line)
    by (repeat split; by_eval).
  assert (H6 : is_table_header h3c_env (Str.strip table_row2_line) = false)
    by by_eval.
  assert (H7 : shapeless (Str.strip table_row2_line))
    by (repeat split; by_eval).
  pose proof (header_takes_one_row
                h3c_env (opened "GigabitEthernet1/0/2") []
                table_header_line table_row_line table_row2_line
                H1 H2 H3 H4 H5 H6 H7) as H.
  cbv zeta in H. cbv zeta.
  destruct H as (_ & _ & Hrx & Htx & _ & Hrx3 & Htx3 & _).
  rewrite Hrx3, Htx3, Hrx, Htx.
  repeat split; vm_compute; reflexivity.
Defined.

(* ------------------------------------------------------------------ *)
(** *** The alarm-threshold region *)

(** No rule reads [parsing_power_data]: two contexts that differ in it
    alone are taken through the same step, and still differ in it alone
    at most. *)
Lemma parsing_power_data_never_read
      (e : Env) (v : option bool) (c : ScanContext)
      (out : list PortRecord) (raw : string) :
  set_parsing_power_data None
    (fst (step e (set_parsing_power_data v c, out) raw))
  = set_parsing_power_data None (fst (step e (c, out) raw))
  /\ snd (step e (set_parsing_power_data v c, out) raw)
     = snd (step e (c, out) raw).
Proof.
  destruct (Re.search Pat.PORT_RE (Str.strip raw)) as [pm|] eqn:Hp.
  - rewrite !(step_port e _ _ _ _ Hp). now split.
  - rewrite !(step_no_port e _ _ _ Hp). cbn [fst snd].
    split; [|reflexivity].
    destruct c as [cp tx rx st op ct th ri ti pp].
    unfold classify, marked, set_parsing_power_data, set_command_type.
    cbn [current_port tx_power rx_power status is_optical_port command_type
         table_header_found rx_power_col_idx tx_power_col_idx
         parsing_power_data].
    repeat match goal with
           | |- context [if ?b then _ else _] => destruct b; try reflexivity
           end.
    + unfold on_table_header.
      destruct (index_of "RX power" 0 _);
        [destruct (index_of "TX power" 0 _)|]; reflexivity.
    + unfold on_values.
      destruct (Re.search Pat.STATUS_RE (Str.strip raw));
        destruct (String.eqb (vendor e) "H3C"); reflexivity.
Qed.

(** C6 (the code departs from it). [alarm_log] puts [TX Power : 5.00 dBm]
    after the [Alarm thresholds:] marker of an open optical port.  The
    marker assigns [parsing_power_data], which no rule ever reads, so the
    line is read by the direct TX shape and replaces the current reading
    [-2.00] by the threshold [5.00].  In [alarm_table_log] the header of
    the threshold table arms the row rule again, and the [High] row
    replaces the readings [-5.01] and [-2.22] by its cells [1.44] and
    [-9.00]. *)
Theorem alarm_region_value_is_read :
  (extract_power_info alarm_log "sw-b.log" "H3C" "intranet" = [alarm_record]
   /\ TX_Power alarm_record = Some five)
  /\ (extract_power_info alarm_table_log "sw-b.log" "H3C" "intranet"
      = [alarm_table_record]
      /\ RX_Power alarm_table_record = Some one_44
      /\ TX_Power alarm_table_record = Some minus_nine).
Proof. repeat split; by_eval. Qed.

(* ------------------------------------------------------------------ *)
(** *** Device identity *)

(** C9. The device identity is always resolved.  The match is looked for
    in this order: a prompt token in brackets or angle brackets
    ([PROMPT_RE], then [BRACKET_RE]), the [Device Name:] field, the
    [System Name:] field; its group 1 is the identity, and without any
    match the identity is the base name of the file.  A text that holds
    only [System Name: SW-CORE-01] resolves to [SW-CORE-01]. *)
Theorem device_identity_cascade (lines : list string) (base : string) :
  let text := clean_text lines in
  let id := resolve_device lines base in
  (forall mt, Re.search Pat.PROMPT_RE text = Some mt -> id = Re.group 1 mt)
  /\ (Re.search Pat.PROMPT_RE text = None ->
      (forall mt, Re.search Pat.BRACKET_RE text = Some mt ->
                  id = Re.group 1 mt)
      /\ (Re.search Pat.BRACKET_RE text = None ->
          (forall mt, Re.search Pat.DEVICE_NAME_RE text = Some mt ->
                      id = Re.group 1 mt)
          /\ (Re.search Pat.DEVICE_NAME_RE text = None ->
              (forall mt, Re.search Pat.SYSTEM_NAME_RE text = Some mt ->
                          id = Re.group 1 mt)
              /\ (Re.search Pat.SYSTEM_NAME_RE text = None -> id = base))))
  /\ resolve_device ["System Name: SW-CORE-01"] base = "SW-CORE-01".
Proof.
  intros text id. subst id. unfold resolve_device, device_match.
  fold text. split; [|split].
  - intros mt ->. reflexivity.
  - intros ->. split; [intros mt ->; reflexivity|].
    intros ->. split; [intros mt ->; reflexivity|].
    intros ->. split; [intros mt ->; reflexivity|].
    intros ->. reflexivity.
  - vm_compute. reflexivity.
Qed.

Lemma device_identity_cascade_witness :
  resolve_device ["System Name: SW-CORE-01"] "sw-core.log" = "SW-CORE-01"
  /\ resolve_device ["no identity in this text"] "sw-core.log" = "sw-core.log".
Proof.
  split.
  - pose proof (device_identity_cascade ["System Name: SW-CORE-01"]
                                        "sw-core.log") as H.
    cbv zeta in H. destruct H as (_ & H & _).
    destruct H as [_ H]; [vm_compute; reflexivity|].
    destruct H as [_ H]; [vm_compute; reflexivity|].
    destruct H as [H _]; [vm_compute; reflexivity|].
    rewrite (H sysname_match); vm_compute; reflexivity.
  - pose proof (device_identity_cascade ["no identity in this text"]
                                        "sw-core.log") as H.
    cbv zeta in H. destruct H as (_ & H & _).
    destruct H as [_ H]; [vm_compute; reflexivity|].
    destruct H as [_ H]; [vm_compute; reflexivity|].
    destruct H as [_ H]; [vm_compute; reflexivity|].
    apply H. vm_compute; reflexivity.
Defined.

(* ------------------------------------------------------------------ *)
(** *** The status token *)

Section StatusToken.

Variable e : Env.

Lemma on_values_fields (line : string) (c : ScanContext) :
  current_port (on_values e line c) = current_port c
  /\ is_optical_port (on_values e line c) = is_optical_port c
  /\ command_type (on_values e line c) = command_type c
  /\ table_header_found (on_values e line c) = table_header_found c
  /\ status (on_values e line c)
     = match Re.search Pat.STATUS_RE line with
       | Some sm => reported (Re.group 1 sm)
       | None => status c
       end.
Proof.
  unfold on_values.
  destruct (Re.search Pat.STATUS_RE line);
    destruct (String.eqb (vendor e) "H3C"); now repeat split.
Qed.

Lemma on_table_header_fields (line : string) (c : ScanContext) :
  status (on_table_header line c) = status c
  /\ is_optical_port (on_table_header line c) = is_optical_port c
  /\ command_type (on_table_header line c) = command_type c.
Proof.
  unfold on_table_header.
  destruct (index_of "RX power" 0 _);
    [destruct (index_of "TX power" 0 _)|]; now repeat split.
Qed.

(** Whatever rule takes the line, the tag is left alone, and the status
    and [is_optical_port] stay in step. *)
Lemma classify_fields (line : string) (c : ScanContext) :
  command_type (classify e line c) = command_type c
  /\ (status_gates c -> status_gates (classify e line c)).
Proof.
  unfold classify, status_gates.
  destruct (Re.matches Pat.NON_OPTICAL_RE line); [now split|].
  destruct (Re.matches Pat.ABSENT_RE line); [now split|].
  destruct (Re.matches Pat.NOT_SUPPORT_RE line); [now split|].
  destruct (negb (is_none (current_port c)) && _); [now split|].
  destruct (negb (is_optical_port c)); [now split|].
  destruct (vendor_known e && Re.matches Pat.RE_CURRENT_DIAG line);
    [now split|].
  destruct (vendor_known e && Re.matches Pat.RE_ALARM_THRESHOLDS line);
    [now split|].
  destruct (is_table_header e line).
  { destruct (on_table_header_fields line c) as (-> & -> & ->). now split. }
  destruct (table_header_found c); [now split|].
  destruct (on_values_fields line c) as (_ & -> & -> & _ & ->).
  split; [reflexivity|].
  destruct (Re.search Pat.STATUS_RE line); [discriminate | trivial].
Qed.

Lemma step_gates (st : state) (raw : string) :
  status_gates (fst st) -> status_gates (fst (step e st raw)).
Proof.
  destruct st as [c out]. cbn [fst]. intros Hg.
  destruct (Re.search Pat.PORT_RE (Str.strip raw)) as [pm|] eqn:Hp.
  - rewrite (step_port e _ _ _ _ Hp). discriminate.
  - rewrite (step_no_port e _ _ _ Hp). cbn [fst].
    now apply classify_fields.
Qed.

Lemma run_gates (segment : list string) :
  forall st : state,
    status_gates (fst st) -> status_gates (fst (run e st segment)).
Proof.
  induction segment as [|raw rest IH]; intros st Hg; [exact Hg|].
  rewrite run_cons. apply IH. now apply step_gates.
Qed.

Lemma step_tag (c : ScanContext) (out : list PortRecord) (raw : string) :
  no_port raw ->
  command_type (fst (step e (c, out) raw))
  = mark_command e (Str.strip raw) (command_type c)
  /\ snd (step e (c, out) raw) = out.
Proof.
  intros Hp. rewrite (step_no_port e _ _ _ Hp). cbn [fst snd].
  split; [|reflexivity].
  now rewrite (proj1 (classify_fields (Str.strip raw) (marked e c raw))).
Qed.

Lemma run_tag (rest : list string) :
  forall (c : ScanContext) (out : list PortRecord),
    Forall no_port rest ->
    command_type (fst (run e (c, out) rest))
    = tag_after e rest (command_type c)
    /\ snd (run e (c, out) rest) = out.
Proof.
  induction rest as [|raw rest IH]; intros c out Hall; [now split|].
  inversion Hall as [|x xs Hp Hrest]; subst.
  rewrite run_cons.
  destruct (step_tag c out raw Hp) as [Ht Ho].
  destruct (step e (c, out) raw) as [c' out']. cbn [fst snd] in *.
  subst out'. unfold tag_after. simpl fold_left. rewrite <- Ht.
  now apply IH.
Qed.

End StatusToken.

(** C8 as stated does not hold: in a segment that has reported port 1
    absent, the line [status normal] is skipped and the status stays
    [absent]. *)
Lemma status_token_skipped_after_absent : ~ status_token_always_overwrites.
Proof.
  intros H.
  specialize (H huawei_env absent_prefix status_line status_match).
  cbv zeta in H.
  assert (Hs : status (fst (step huawei_env
                              (run huawei_env (init_ctx None, [])
                                   absent_prefix) status_line))
               = absent) by by_eval.
  rewrite H in Hs; try discriminate; vm_compute; reflexivity.
Qed.

(** C8, amended.  A line that holds a status token and reaches the value
    rules (optical context, no interface name, no not-applicable marker,
    no block marker, no table header, no header pending) makes the matched
    token text the status, whatever the status was.  In a context a scan
    has left with a not-applicable status the line does not get that far:
    unless it is itself a marker, the status stays. *)
Theorem status_token_overwrites_when_reached
        (e : Env) (raw : string) (sm : Re.rmatch) :
  Re.search Pat.STATUS_RE (Str.strip raw) = Some sm ->
  (forall (c : ScanContext) (out : list PortRecord),
      reaches_readings c raw ->
      is_table_header e (Str.strip raw) = false ->
      table_header_found c = false ->
      status (fst (step e (c, out) raw)) = reported (Re.group 1 sm))
  /\ (forall (prefix : list string) (ppd : option bool)
             (out0 : list PortRecord),
         let st := run e (init_ctx ppd, out0) prefix in
         no_port raw ->
         is_marker (fst st) (Str.strip raw) = false ->
         not_applicable (status (fst st)) = true ->
         status (fst (step e st raw)) = status (fst st)).
Proof.
  intros Hs. split.
  - intros c out Hr Hth Hf.
    rewrite (step_no_port e _ _ _ (proj1 Hr)). cbn [fst].
    rewrite (classify_reading e c raw Hr), Hth, Hf.
    destruct (on_values_fields e (Str.strip raw) (marked e c raw))
      as (_ & _ & _ & _ & ->).
    now rewrite Hs.
  - intros prefix ppd out0 st Hp Hm Hna.
    assert (Hg : status_gates (fst st)).
    { subst st. apply run_gates. discriminate. }
    destruct st as [c out]. cbn [fst] in *.
    rewrite (step_no_port e _ _ _ Hp). cbn [fst].
    now rewrite (classify_skip e _ (marked e c raw) Hm (Hg Hna)).
Qed.

Lemma status_token_overwrites_when_reached_witness :
  status (fst (step huawei_env (ctx_port1_tx, []) status_line))
  = reported "normal"
  /\ status (fst (step huawei_env
                       (run huawei_env (init_ctx None, []) absent_prefix)
                       status_line))
     = absent.
Proof.
  assert (Hs : Re.search Pat.STATUS_RE (Str.strip status_line)
               = Some status_match) by by_eval.
  destruct (status_token_overwrites_when_reached
              huawei_env status_line status_match Hs) as [HA HB].
  split.
  - rewrite (HA ctx_port1_tx []).
    + vm_compute; reflexivity.
    + repeat split; vm_compute; reflexivity.
    + vm_compute; reflexivity.
    + vm_compute; reflexivity.
  - specialize (HB absent_prefix None []). cbv zeta in HB.
    rewrite HB; vm_compute; reflexivity.
Defined.

(* ------------------------------------------------------------------ *)
(** *** The command-type tag *)

(** A command line that names its interface matches a command-type marker
    and is then taken by the port rule: the marker line does more than set
    the tag. *)
Lemma marker_line_may_open_port : ~ marker_line_only_tags.
Proof.
  intros H. specialize (H huawei_env [] diag_command_line).
  cbv zeta in H.
  assert (Hm : is_command_marker huawei_env (Str.strip diag_command_line)
               = true) by by_eval.
  apply H in Hm. apply (f_equal (fun st => current_port (fst st))) in Hm.
  vm_compute in Hm. discriminate.
Qed.

(** C5 (the code departs from it).  No record carries the tag of the
    marker seen before it.  [save_port] ends by assigning ['unknown'] to
    [command_type], and the port rule calls it before it opens a port; so
    whatever the command-type rule has set is gone when the first port of
    the segment is opened, and every later flush finds ['unknown'].  In
    [verbose_log] the first line is the marker of [display transceiver
    verbose] and names no interface: after it the context holds
    [huawei_verb], after the interface line that follows it holds
    ['unknown'], and the record of that interface is emitted with
    ['unknown'].  Nor does a marker line update the tag only: one that
    names its interface also opens that port. *)
Theorem command_tag_reset_at_flush :
  (forall (e : Env) (st : state),
      command_type (fst (save_port e st)) = cmd_unknown)
  /\ (forall (e : Env) (p : string) (st : state),
         command_type (fst (open_port e p st)) = cmd_unknown)
  /\ (is_command_marker huawei_env (Str.strip (hd EmptyString verbose_log))
       = true
      /\ command_type
           (fst (run huawei_env (init_ctx None, []) (firstn 1 verbose_log)))
         = huawei_verb
      /\ command_type
           (fst (run huawei_env (init_ctx None, []) (firstn 2 verbose_log)))
         = cmd_unknown)
  /\ (extract_power_info verbose_log "sw-a.log" "Huawei" "intranet"
      = [verbose_record]
      /\ CommandType_ verbose_record = cmd_unknown)
  /\ ~ marker_line_only_tags.
Proof.
  split; [intros e [c out]; reflexivity|].
  split; [intros e p [c out]; reflexivity|].
  split; [repeat split; by_eval|].
  split; [split; by_eval|].
  exact marker_line_may_open_port.
Qed.

(* ------------------------------------------------------------------ *)
(** *** Sample runs *)

(** An absent transceiver gives one record without readings. *)
Example absent_port_run :
  extract_power_info
    ["<SW-A>display transceiver diagnosis interface";
     "GigabitEthernet1/0/1 transceiver diagnostic information:";
     "  The transceiver is absent."]
    "sw-a.log" "Huawei" "intranet"
  = [mkRecord "Huawei" "intranet" "SW-A" "GigabitEthernet1/0/1"
              None None absent cmd_unknown "sw-a.log"].
Proof. by_eval. Qed.

(** A table of four columns: the row is read at the header's indices. *)
Example table_run :
  extract_power_info
    ["<SW-A>display transceiver diagnosis interface";
     "XGigabitEthernet1/0/2 transceiver diagnostic information:";
     "Current diagnostic parameters:";
     "  Temp.(C)  Voltage(V)  RX power(dBm)  TX power(dBm)";
     "  25  3.3  -3.20  -2.10"]
    "sw-a.log" "Huawei" "intranet"
  = [mkRecord "Huawei" "intranet" "SW-A" "XGigabitEthernet1/0/2"
              (Some minus_2_1) (Some minus_3_2) unknown cmd_unknown
              "sw-a.log"].
Proof. by_eval. Qed.

(** A value out of range leaves the field absent, and a port without any
    information leaves no record. *)
Example out_of_range_run :
  extract_power_info
    ["<SW-A>display transceiver verbose";
     "GigabitEthernet1/0/1 transceiver information:";
     "  TX Power : 15.00 dBm"]
    "sw-a.log" "Huawei" "intranet"
  = [].
Proof. by_eval. Qed.

(** A text without any diagnostic command gives no segment and no record. *)
Example no_command_run :
  segments ["GigabitEthernet1/0/1"; "  TX Power : -2.00 dBm"] = []
  /\ extract_power_info ["GigabitEthernet1/0/1"; "  TX Power : -2.00 dBm"]
                        "sw-a.log" "Huawei" "intranet" = [].
Proof. split; by_eval. Qed.

(* ================================================================== *)
(** ** Segmentation *)

Lemma grouped_cover (lines : list string) :
  lines = fst (grouped lines) ++ concat (snd (grouped lines)).
Proof.
  induction lines as [|l rest IH]; [reflexivity|].
  simpl. destruct (grouped rest) as [pre segs]. cbn [fst snd] in IH.
  destruct (is_cmd_line l); cbn [fst snd concat app]; now rewrite IH at 1.
Qed.

Lemma grouped_pre (lines : list string) :
  Forall (fun l => is_cmd_line l = false) (fst (grouped lines)).
Proof.
  induction lines as [|l rest IH]; [constructor|].
  simpl. destruct (grouped rest) as [pre segs]. cbn [fst] in IH.
  destruct (is_cmd_line l) eqn:E; cbn [fst]; [constructor|].
  now constructor.
Qed.

Lemma grouped_shape (lines : list string) :
  Forall (fun seg => exists l rest,
              seg = l :: rest /\ is_cmd_line l = true
              /\ Forall (fun x => is_cmd_line x = false) rest)
         (snd (grouped lines)).
Proof.
  induction lines as [|l rest IH]; [constructor|].
  simpl. pose proof (grouped_pre rest) as Hpre.
  destruct (grouped rest) as [pre segs]. cbn [fst snd] in *.
  destruct (is_cmd_line l) eqn:E; cbn [snd]; [|exact IH].
  constructor; [|exact IH]. now exists l, pre.
Qed.

Lemma grouped_count (lines : list string) :
  List.length (snd (grouped lines)) = List.length (filter is_cmd_line lines).
Proof.
  induction lines as [|l rest IH]; [reflexivity|].
  simpl. destruct (grouped rest) as [pre segs]. cbn [snd] in IH.
  destruct (is_cmd_line l); cbn [snd List.length]; now rewrite IH.
Qed.

Lemma grouped_none (lines : list string) :
  snd (grouped lines) = [] <-> Forall (fun l => is_cmd_line l = false) lines.
Proof.
  split.
  - intros H. pose proof (grouped_cover lines) as Hc.
    pose proof (grouped_pre lines) as Hp.
    rewrite H in Hc. simpl in Hc. rewrite app_nil_r in Hc. now rewrite Hc.
  - intros H. pose proof (grouped_count lines) as Hn.
    assert (Hf : filter is_cmd_line lines = []).
    { clear Hn. induction H as [|l rest Hl _ IH]; [reflexivity|].
      simpl. now rewrite Hl. }
    rewrite Hf in Hn. now apply length_zero_iff_nil.
Qed.

(** The first bound after position [i]: the next command line, or the end. *)
Lemma next_bound (rest : list string) (i : nat) :
  hd 0 (cmd_indices_from i rest ++ [i + List.length rest])
  = i + List.length (fst (grouped rest)).
Proof.
  revert i. induction rest as [|l rest IH]; intros i; [reflexivity|].
  simpl. fold (is_cmd_line l).
  destruct (grouped rest) as [pre segs] eqn:G. cbn [fst] in IH.
  destruct (is_cmd_line l); cbn [fst hd app List.length].
  - lia.
  - specialize (IH (S i)). rewrite <- plus_n_Sm. simpl in IH.
    rewrite IH. lia.
Qed.

Lemma slice_mid (done : list string) (l : list string) (k : nat) :
  slice (List.length done) (List.length done + k) (done ++ l) = firstn k l.
Proof.
  unfold slice.
  replace (List.length done + k - List.length done) with k by lia.
  now rewrite skipn_app, skipn_all, Nat.sub_diag.
Qed.

Lemma spans_cons (i : nat) (bounds : list nat) :
  spans (i :: bounds) = match bounds with
                        | [] => []
                        | j :: _ => (i, j) :: spans bounds
                        end.
Proof. destruct bounds; reflexivity. Qed.

(** Cutting by index bounds gives the groups. *)
Lemma slices_grouped (rest : list string) :
  forall done : list string,
    map (fun se => slice (fst se) (snd se) (done ++ rest))
        (spans (cmd_indices_from (List.length done) rest
                ++ [List.length (done ++ rest)]))
    = snd (grouped rest).
Proof.
  induction rest as [|l rest IH]; intros done; [reflexivity|].
  specialize (IH (done ++ [l])).
  rewrite <- app_assoc in IH. cbn [app] in IH.
  rewrite length_app in IH. cbn [List.length] in IH.
  rewrite Nat.add_1_r in IH.
  pose proof (next_bound rest (S (List.length done))) as Hn.
  pose proof (grouped_cover rest) as Hc.
  simpl. fold (is_cmd_line l).
  destruct (grouped rest) as [pre segs]. cbn [fst snd] in *.
  destruct (is_cmd_line l); cbn [snd]; [|exact IH].
  cbn [app]. rewrite spans_cons.
  replace (List.length (done ++ l :: rest))
    with (S (List.length done) + List.length rest) in *
    by (rewrite length_app; simpl; lia).
  destruct (cmd_indices_from (S (List.length done)) rest
            ++ [S (List.length done) + List.length rest]) as [|j bs] eqn:E.
  { destruct (cmd_indices_from (S (List.length done)) rest); discriminate. }
  cbn [map fst snd hd] in *. rewrite IH. f_equal.
  subst j.
  replace (S (List.length done) + List.length pre)
    with (List.length done + S (List.length pre)) by lia.
  rewrite slice_mid. cbn [firstn]. f_equal.
  rewrite Hc at 1. now rewrite firstn_app, firstn_all, Nat.sub_diag, app_nil_r.
Qed.

Lemma segments_grouped (lines : list string) :
  segments lines = snd (grouped lines).
Proof.
  unfold segments, cmd_indices.
  pose proof (slices_grouped lines []) as H. cbn [app List.length] in H.
  destruct (cmd_indices_from 0 lines) as [|i idx] eqn:E; [|exact H].
  now rewrite <- H.
Qed.

(** X1. A file yields no segment exactly when none of its lines holds a
    diagnostic command, and then [extract_power_info] returns no record,
    whatever interface names and readings the file holds. *)
Theorem no_command_no_record
        (lines : list string) (base vendor network_type : string) :
  (segments lines = [] <-> Forall (fun l => is_cmd_line l = false) lines)
  /\ (segments lines = [] ->
      extract_power_info lines base vendor network_type = []).
Proof.
  split.
  - rewrite segments_grouped. apply grouped_none.
  - intros H. unfold extract_power_info. now rewrite H.
Qed.

Lemma no_command_no_record_witness :
  extract_power_info ["GigabitEthernet1/0/1"; "  TX Power : -2.00 dBm"]
                     "sw-a.log" "Huawei" "intranet" = [].
Proof.
  apply (no_command_no_record
           ["GigabitEthernet1/0/1"; "  TX Power : -2.00 dBm"]
           "sw-a.log" "Huawei" "intranet").
  by_eval.
Defined.

Lemma segments_cover_tail_aux (lines : list string) :
  exists pre : list string,
    lines = pre ++ concat (segments lines)
    /\ Forall (fun l => is_cmd_line l = false) pre.
Proof.
  exists (fst (grouped lines)). rewrite segments_grouped.
  split; [apply grouped_cover | apply grouped_pre].
Qed.

(** X2. The segments are consecutive pieces of the file: put end to end
    they give the file from its first command line on, and the lines
    before that command line, none of which is a command line, belong to
    no segment. *)
Theorem segments_cover_tail (lines : list string) :
  exists pre : list string,
    lines = pre ++ concat (segments lines)
    /\ Forall (fun l => is_cmd_line l = false) pre.
Proof.
  exists (fst (grouped lines)). rewrite segments_grouped.
  split; [apply grouped_cover | apply grouped_pre].
Qed.

(** X3. Every segment starts with a command line and holds no other
    command line; there are as many segments as command lines. *)
Theorem segment_per_command (lines : list string) :
  Forall (fun seg => exists l rest,
              seg = l :: rest /\ is_cmd_line l = true
              /\ Forall (fun x => is_cmd_line x = false) rest)
         (segments lines)
  /\ List.length (segments lines) = List.length (filter is_cmd_line lines).
Proof.
  rewrite segments_grouped.
  split; [apply grouped_shape | apply grouped_count].
Qed.

(* ================================================================== *)
(** ** The records of a file, segment by segment *)

Section Composition.

Variable e : Env.

Lemma same_but_flag_set (v : option bool) (c : ScanContext) :
  same_but_flag (set_parsing_power_data v c) c.
Proof. reflexivity. Qed.

Lemma step_flag (c1 c2 : ScanContext) (out : list PortRecord) (raw : string) :
  same_but_flag c1 c2 ->
  same_but_flag (fst (step e (c1, out) raw)) (fst (step e (c2, out) raw))
  /\ snd (step e (c1, out) raw) = snd (step e (c2, out) raw).
Proof.
  intros H. unfold same_but_flag in *.
  assert (E1 : c1 = set_parsing_power_data (parsing_power_data c1)
                      (set_parsing_power_data None c2)).
  { rewrite <- H. now destruct c1. }
  assert (E2 : c2 = set_parsing_power_data (parsing_power_data c2)
                      (set_parsing_power_data None c2)).
  { now destruct c2. }
  destruct (parsing_power_data_never_read
              e (parsing_power_data c1) (set_parsing_power_data None c2)
              out raw) as [A1 B1].
  destruct (parsing_power_data_never_read
              e (parsing_power_data c2) (set_parsing_power_data None c2)
              out raw) as [A2 B2].
  rewrite <- E1 in A1, B1. rewrite <- E2 in A2, B2.
  split; congruence.
Qed.

Lemma run_flag (segment : list string) :
  forall (c1 c2 : ScanContext) (out : list PortRecord),
    same_but_flag c1 c2 ->
    same_but_flag (fst (run e (c1, out) segment))
                  (fst (run e (c2, out) segment))
    /\ snd (run e (c1, out) segment) = snd (run e (c2, out) segment).
Proof.
  induction segment as [|raw rest IH]; intros c1 c2 out H; [now split|].
  rewrite !run_cons.
  destruct (step_flag c1 c2 out raw H) as [Hc Ho].
  destruct (step e (c1, out) raw) as [d1 o1].
  destruct (step e (c2, out) raw) as [d2 o2].
  cbn [fst snd] in *. subst o2. now apply IH.
Qed.

Lemma flushed_flag (c1 c2 : ScanContext) :
  same_but_flag c1 c2 -> flushed e c1 = flushed e c2.
Proof.
  unfold same_but_flag. destruct c1, c2. cbn. intros H.
  injection H as -> -> -> -> -> -> -> -> ->. reflexivity.
Qed.

(** A segment leaves the reset context and appends its own records. *)
Lemma scan_segment_eq (c : ScanContext) (out : list PortRecord)
                      (segment : list string) :
  scan_segment e (c, out) segment
  = (reset_ctx, out ++ segment_records e segment).
Proof.
  unfold segment_records, scan_segment.
  change (init_ctx (parsing_power_data (init_ctx None))) with (init_ctx None).
  destruct (run_flag segment (init_ctx (parsing_power_data c)) (init_ctx None)
                     [] eq_refl) as [Hc Ho].
  rewrite (run_out e segment _ out).
  destruct (run e (init_ctx (parsing_power_data c), []) segment) as [c1 o1].
  destruct (run e (init_ctx None, []) segment) as [c2 o2].
  cbn [fst snd] in *. subst o2.
  rewrite !save_port_eq. cbn [snd app].
  now rewrite (flushed_flag c1 c2 Hc), <- app_assoc.
Qed.

Lemma fold_segments (segs : list (list string)) :
  forall (c : ScanContext) (out : list PortRecord),
    snd (fold_left (scan_segment e) segs (c, out))
    = out ++ flat_map (segment_records e) segs.
Proof.
  induction segs as [|sg rest IH]; intros c out.
  - simpl. now rewrite app_nil_r.
  - cbn [fold_left]. rewrite scan_segment_eq, IH.
    simpl. now rewrite app_assoc.
Qed.

End Composition.

Lemma records_by_segment_aux
      (lines : list string) (base vendor network_type : string) :
  extract_power_info lines base vendor network_type
  = flat_map (segment_records
                (mkEnv vendor network_type (resolve_device lines base) base))
             (segments lines).
Proof.
  unfold extract_power_info. now rewrite fold_segments.
Qed.

(** X4. The records of a file are those of its segments, in order, each
    segment scanned on its own from the initial context: nothing a scan
    has read in one segment reaches the records of another. *)
Theorem records_by_segment
        (lines : list string) (base vendor network_type : string) :
  extract_power_info lines base vendor network_type
  = flat_map (segment_records
                (mkEnv vendor network_type (resolve_device lines base) base))
             (segments lines).
Proof.
  unfold extract_power_info. now rewrite fold_segments.
Qed.

(* ================================================================== *)
(** ** What the records of a file hold *)

Section Records.

Variable e : Env.

Lemma classify_port (line : string) (c : ScanContext) :
  current_port (classify e line c) = current_port c.
Proof.
  unfold classify.
  destruct (Re.matches Pat.NON_OPTICAL_RE line); [reflexivity|].
  destruct (Re.matches Pat.ABSENT_RE line); [reflexivity|].
  destruct (Re.matches Pat.NOT_SUPPORT_RE line); [reflexivity|].
  destruct (negb (is_none (current_port c)) && _); [reflexivity|].
  destruct (negb (is_optical_port c)); [reflexivity|].
  destruct (vendor_known e && Re.matches Pat.RE_CURRENT_DIAG line);
    [reflexivity|].
  destruct (vendor_known e && Re.matches Pat.RE_ALARM_THRESHOLDS line);
    [reflexivity|].
  destruct (is_table_header e line).
  { unfold on_table_header.
    destruct (index_of "RX power" 0 _);
      [destruct (index_of "TX power" 0 _)|]; reflexivity. }
  destruct (table_header_found c); [reflexivity|].
  now destruct (on_values_fields e line c) as (-> & _).
Qed.

Lemma port_named_match (raw : string) (pm : Re.rmatch) :
  Re.search Pat.PORT_RE (Str.strip raw) = Some pm ->
  port_named raw = Some (Re.group 1 pm) /\ is_port_line raw = true.
Proof.
  intros H. unfold port_named, Re.search_group, is_port_line.
  now rewrite H.
Qed.

Lemma no_port_line (raw : string) :
  no_port raw -> is_port_line raw = false.
Proof. intros H. unfold is_port_line. now rewrite H. Qed.

Lemma rec_from_more (seen more : list string) (r : PortRecord) :
  rec_from e seen r -> rec_from e (seen ++ more) r.
Proof.
  intros (Hv & Hp & (raw & Hin & Hn) & Hi). repeat split; try tauto.
  exists raw. split; [apply in_or_app; now left | exact Hn].
Qed.

Lemma flushed_from (seen : list string) (c : ScanContext) :
  ctx_named seen c -> Forall (rec_from e seen) (flushed e c).
Proof.
  intros Hn. unfold flushed.
  destruct (worth_saving c) eqn:Hw; constructor; [|constructor].
  apply worth_saving_informative in Hw as [[p [Hp Hne]] Hi].
  unfold rec_from. simpl. rewrite Hp. repeat split; try assumption.
  now apply Hn.
Qed.

Lemma flushed_length (c : ScanContext) :
  List.length (flushed e c) <= open_ports c.
Proof.
  unfold flushed, worth_saving, open_ports.
  destruct (current_port c) as [[|a p]|]; simpl; try lia.
  destruct (_ || _); simpl; lia.
Qed.

(** One step keeps the open port named, the records well-formed and the
    count of records below the count of interface lines. *)
Lemma step_records (seen : list string) (c : ScanContext)
                   (out : list PortRecord) (raw : string) (n : nat) :
  ctx_named seen c ->
  Forall (rec_from e seen) out ->
  List.length out + open_ports c <= n + port_count seen ->
  let st := step e (c, out) raw in
  ctx_named (seen ++ [raw]) (fst st)
  /\ Forall (rec_from e (seen ++ [raw])) (snd st)
  /\ List.length (snd st) + open_ports (fst st)
     <= n + port_count (seen ++ [raw]).
Proof.
  intros Hn Ho Hl st. subst st.
  assert (Ho' : Forall (rec_from e (seen ++ [raw])) out).
  { eapply Forall_impl; [|exact Ho]. intros r. apply rec_from_more. }
  unfold port_count in *. rewrite filter_app, length_app. cbn [filter].
  destruct (Re.search Pat.PORT_RE (Str.strip raw)) as [pm|] eqn:Hp.
  - rewrite (step_port e _ _ _ _ Hp). cbn [fst snd].
    destruct (port_named_match raw pm Hp) as [Hnm ->].
    split; [|split].
    + intros p Hc. injection Hc as <-. exists raw.
      split; [apply in_or_app; right; now left | exact Hnm].
    + apply Forall_app. split; [exact Ho'|].
      eapply Forall_impl; [intros r; apply rec_from_more|].
      apply flushed_from. exact Hn.
    + rewrite length_app.
      pose proof (flushed_length (marked e c raw)) as Hf.
      change (open_ports (marked e c raw)) with (open_ports c) in Hf.
      cbn [open_ports opened current_port List.length]. lia.
  - rewrite (step_no_port e _ _ _ Hp). cbn [fst snd].
    rewrite (no_port_line raw Hp). cbn [List.length].
    split; [|split; [exact Ho'|]].
    + intros p Hc. rewrite classify_port in Hc.
      destruct (Hn p Hc) as (r0 & Hin & Hr0). exists r0.
      split; [apply in_or_app; now left | exact Hr0].
    + unfold open_ports in *. rewrite classify_port.
      change (current_port (marked e c raw)) with (current_port c). lia.
Qed.

Lemma run_records (segment : list string) :
  forall (seen : list string) (c : ScanContext) (out : list PortRecord)
         (n : nat),
    ctx_named seen c ->
    Forall (rec_from e seen) out ->
    List.length out + open_ports c <= n + port_count seen ->
    let st := run e (c, out) segment in
    ctx_named (seen ++ segment) (fst st)
    /\ Forall (rec_from e (seen ++ segment)) (snd st)
    /\ List.length (snd st) + open_ports (fst st)
       <= n + port_count (seen ++ segment).
Proof.
  induction segment as [|raw rest IH]; intros seen c out n Hn Ho Hl.
  - cbn. rewrite app_nil_r. now repeat split.
  - rewrite run_cons.
    destruct (step_records seen c out raw n Hn Ho Hl) as (Hn1 & Ho1 & Hl1).
    destruct (step e (c, out) raw) as [c1 o1]. cbn [fst snd] in *.
    specialize (IH (seen ++ [raw]) c1 o1 n Hn1 Ho1 Hl1).
    now rewrite <- app_assoc in IH.
Qed.

Lemma segment_records_from (segment : list string) :
  Forall (rec_from e segment) (segment_records e segment)
  /\ List.length (segment_records e segment) <= port_count segment.
Proof.
  unfold segment_records, scan_segment.
  change (init_ctx (parsing_power_data (init_ctx None))) with (init_ctx None).
  destruct (run_records segment [] (init_ctx None) [] 0) as (Hn & Ho & Hl).
  { intros p Hp. discriminate. }
  { constructor. }
  { cbn. lia. }
  cbn [app] in *.
  destruct (run e (init_ctx None, []) segment) as [c o]. cbn [fst snd] in *.
  rewrite save_port_eq. cbn [snd]. split.
  - apply Forall_app. split; [exact Ho | now apply flushed_from].
  - rewrite length_app. pose proof (flushed_length c). lia.
Qed.

End Records.

Lemma in_segment_in_file (lines segment : list string) (raw : string) :
  In segment (segments lines) -> In raw segment -> In raw lines.
Proof.
  intros Hs Hr. destruct (segments_cover_tail_aux lines) as [pre [E _]].
  rewrite E. apply in_or_app. right. apply in_concat. now exists segment.
Qed.

Lemma port_count_app (a b : list string) :
  port_count (a ++ b) = port_count a + port_count b.
Proof. unfold port_count. now rewrite filter_app, length_app. Qed.

Lemma port_count_concat (segs : list (list string)) :
  port_count (concat segs) = list_sum (map port_count segs).
Proof.
  induction segs as [|sg rest IH]; [reflexivity|].
  simpl. now rewrite port_count_app, IH.
Qed.

Lemma flat_map_length_le {A B : Type} (f : A -> list B) (g : A -> nat)
      (l : list A) :
  (forall a, List.length (f a) <= g a) ->
  List.length (flat_map f l) <= list_sum (map g l).
Proof.
  intros H. induction l as [|a rest IH]; [simpl; lia|].
  simpl. rewrite length_app. specialize (H a). lia.
Qed.

Lemma extract_from (lines : list string) (base vendor network_type : string)
      (r : PortRecord) :
  In r (extract_power_info lines base vendor network_type) ->
  rec_from (mkEnv vendor network_type (resolve_device lines base) base)
           lines r.
Proof.
  rewrite records_by_segment_aux. intros Hin.
  apply in_flat_map in Hin as (sg & Hsg & Hr).
  destruct (segment_records_from
              (mkEnv vendor network_type (resolve_device lines base) base) sg)
    as [Hall _].
  rewrite Forall_forall in Hall. specialize (Hall r Hr).
  destruct Hall as (Hv & Hp & (raw & Hraw & Hn) & Hi).
  repeat split; try tauto.
  exists raw. split; [now apply (in_segment_in_file lines sg) | exact Hn].
Qed.

(** X5. Every record of a file carries the vendor and network zone the
    function was called with, the device identity resolved for the file and
    the file's base name. *)
Theorem records_carry_file_identity
        (lines : list string) (base vendor network_type : string)
        (r : PortRecord) :
  In r (extract_power_info lines base vendor network_type) ->
  Vendor r = vendor
  /\ NetworkType r = network_type
  /\ Device r = resolve_device lines base
  /\ LogFileName r = base.
Proof.
  intros Hin. now destruct (extract_from _ _ _ _ _ Hin) as (Hv & _).
Qed.

Lemma records_carry_file_identity_witness :
  Vendor verbose_record = "Huawei"
  /\ NetworkType verbose_record = "intranet"
  /\ Device verbose_record = resolve_device verbose_log "sw-a.log"
  /\ LogFileName verbose_record = "sw-a.log".
Proof.
  apply (records_carry_file_identity verbose_log "sw-a.log" "Huawei"
                                     "intranet" verbose_record).
  vm_compute. left. reflexivity.
Defined.

(** X6. Every record of a file names a non-empty port that the interface
    pattern finds in one of the file's lines, and holds a TX reading, an RX
    reading or a status other than [unknown]: no record is invented and
    none is empty. *)
Theorem records_name_file_ports
        (lines : list string) (base vendor network_type : string)
        (r : PortRecord) :
  In r (extract_power_info lines base vendor network_type) ->
  Port r <> EmptyString
  /\ (exists raw, In raw lines /\ port_named raw = Some (Port r))
  /\ (TX_Power r <> None \/ RX_Power r <> None \/ Status_ r <> unknown).
Proof.
  intros Hin. now destruct (extract_from _ _ _ _ _ Hin) as (_ & H).
Qed.

Lemma records_name_file_ports_witness :
  Port verbose_record <> EmptyString
  /\ (exists raw, In raw verbose_log
                  /\ port_named raw = Some (Port verbose_record))
  /\ (TX_Power verbose_record <> None \/ RX_Power verbose_record <> None
      \/ Status_ verbose_record <> unknown).
Proof.
  apply (records_name_file_ports verbose_log "sw-a.log" "Huawei"
                                 "intranet" verbose_record).
  vm_compute. left. reflexivity.
Defined.

(** X7. A file never yields more records than it has lines naming an
    interface: each such line opens one port context, and a context is
    flushed into one record at most. *)
Theorem records_at_most_port_lines
        (lines : list string) (base vendor network_type : string) :
  List.length (extract_power_info lines base vendor network_type)
  <= port_count lines.
Proof.
  rewrite records_by_segment_aux.
  destruct (segments_cover_tail_aux lines) as [pre [E _]].
  assert (Hc : port_count lines
               = port_count pre
                 + list_sum (map port_count (segments lines))).
  { rewrite <- port_count_concat, <- port_count_app. now rewrite <- E. }
  rewrite Hc. etransitivity.
  - apply (flat_map_length_le _ port_count). intros sg.
    apply segment_records_from.
  - lia.
Qed.

(* ================================================================== *)
(** ** Lines before the first interface *)

Section Blank.

Variable e : Env.

Lemma blank_flushed (c : ScanContext) : blank c -> flushed e c = [].
Proof.
  intros [Hp _]. unfold flushed, worth_saving. now rewrite Hp.
Qed.

Lemma blank_step (c : ScanContext) (out : list PortRecord) (raw : string) :
  blank c -> no_port raw ->
  blank (fst (step e (c, out) raw)) /\ snd (step e (c, out) raw) = out.
Proof.
  intros [Hc Ho] Hp. rewrite (step_no_port e _ _ _ Hp). cbn [fst snd].
  split; [|reflexivity].
  destruct (is_marker (marked e c raw) (Str.strip raw)) eqn:Hm.
  - destruct (classify_marker e _ _ Hm) as [s [_ ->]]. now split.
  - rewrite (classify_skip e _ _ Hm Ho). now split.
Qed.

Lemma blank_run (pre : list string) :
  forall (c : ScanContext) (out : list PortRecord),
    blank c -> Forall no_port pre ->
    blank (fst (run e (c, out) pre)) /\ snd (run e (c, out) pre) = out.
Proof.
  induction pre as [|raw rest IH]; intros c out Hb Hall; [now split|].
  inversion Hall as [|x xs Hp Hrest]; subst. rewrite run_cons.
  destruct (blank_step c out raw Hb Hp) as [Hb1 Ho1].
  destruct (step e (c, out) raw) as [c1 o1]. cbn [fst snd] in *.
  subst o1. now apply IH.
Qed.

(** From two blank contexts a scan appends the same records. *)
Lemma blank_records (rest : list string) :
  forall (c1 c2 : ScanContext) (out : list PortRecord),
    blank c1 -> blank c2 ->
    snd (save_port e (run e (c1, out) rest))
    = snd (save_port e (run e (c2, out) rest)).
Proof.
  induction rest as [|raw rest IH]; intros c1 c2 out H1 H2.
  - cbn [run fold_left]. rewrite !save_port_eq. cbn [snd].
    now rewrite (blank_flushed c1 H1), (blank_flushed c2 H2).
  - rewrite !run_cons.
    destruct (Re.search Pat.PORT_RE (Str.strip raw)) as [pm|] eqn:Hp.
    + rewrite !(step_port e _ _ _ _ Hp).
      assert (B1 : blank (marked e c1 raw)) by exact H1.
      assert (B2 : blank (marked e c2 raw)) by exact H2.
      now rewrite (blank_flushed _ B1), (blank_flushed _ B2).
    + destruct (blank_step c1 out raw H1 Hp) as [Hb1 Ho1].
      destruct (blank_step c2 out raw H2 Hp) as [Hb2 Ho2].
      destruct (step e (c1, out) raw) as [d1 o1].
      destruct (step e (c2, out) raw) as [d2 o2].
      cbn [fst snd] in *. subst o1 o2. now apply IH.
Qed.

End Blank.

(** X8. The lines of a segment that come before its first interface name
    leave no trace: whatever markers, readings or status tokens they hold,
    the records are those of the segment without them.  A segment that
    names no interface yields no record. *)
Theorem lines_before_first_port_ignored
        (e : Env) (pre rest : list string) :
  Forall no_port pre ->
  segment_records e (pre ++ rest) = segment_records e rest
  /\ segment_records e pre = [].
Proof.
  intros Hall. unfold segment_records, scan_segment.
  change (init_ctx (parsing_power_data (init_ctx None))) with (init_ctx None).
  assert (Hb0 : blank (init_ctx None)) by now split.
  destruct (blank_run e pre (init_ctx None) [] Hb0 Hall) as [Hb Ho].
  split.
  - rewrite run_app.
    destruct (run e (init_ctx None, []) pre) as [c o]. cbn [fst snd] in *.
    subst o. now apply blank_records.
  - destruct (run e (init_ctx None, []) pre) as [c o]. cbn [fst snd] in *.
    subst o. rewrite save_port_eq. cbn [snd app]. now apply blank_flushed.
Qed.

Lemma lines_before_first_port_ignored_witness :
  segment_records huawei_env
                  (["<SW-A>display transceiver verbose";
                    "  TX Power : -9.00 dBm";
                    "  The transceiver is absent."]
                   ++ ["GigabitEthernet1/0/1 transceiver information:";
                       "  TX Power : -2.00 dBm"])
  = [verbose_record].
Proof.
  assert (H : Forall no_port ["<SW-A>display transceiver verbose";
                              "  TX Power : -9.00 dBm";
                              "  The transceiver is absent."])
    by (repeat constructor; by_eval).
  rewrite (proj1 (lines_before_first_port_ignored
                    huawei_env _
                    ["GigabitEthernet1/0/1 transceiver information:";
                     "  TX Power : -2.00 dBm"] H)).
  by_eval.
Defined.

(* ================================================================== *)
(** ** Readings once taken *)

Lemma accept_keeps (raw : string) (field : option PyFloat.pyfloat) :
  field <> None -> accept raw field <> None.
Proof.
  intros H. destruct (accept_cases raw field) as [->|[v [_ [_ ->]]]];
    [exact H | discriminate].
Qed.

Lemma cell_keeps (idx : option nat) (columns : list string)
                 (field : option PyFloat.pyfloat) :
  field <> None -> cell idx columns field <> None.
Proof.
  intros H. unfold cell. destruct idx as [i|]; [|exact H].
  destruct (nth_error columns i); [now apply accept_keeps | exact H].
Qed.

Lemma by_shape_keeps (r : Re.regex) (line : string)
                     (field : option PyFloat.pyfloat) :
  field <> None -> by_shape r line field <> None.
Proof.
  intros H. unfold by_shape.
  destruct (Re.search r line); [now apply accept_keeps | exact H].
Qed.

Lemma by_fallback_keeps (which line : string)
                        (field : option PyFloat.pyfloat) :
  field <> None -> by_fallback which line field = field.
Proof.
  intros H. unfold by_fallback. destruct field; [reflexivity | contradiction].
Qed.

Section Kept.

Variable e : Env.

Lemma classify_keeps (line : string) (c : ScanContext) :
  (tx_power c <> None -> tx_power (classify e line c) <> None)
  /\ (rx_power c <> None -> rx_power (classify e line c) <> None).
Proof.
  unfold classify.
  destruct (Re.matches Pat.NON_OPTICAL_RE line); [now split|].
  destruct (Re.matches Pat.ABSENT_RE line); [now split|].
  destruct (Re.matches Pat.NOT_SUPPORT_RE line); [now split|].
  destruct (negb (is_none (current_port c)) && _); [now split|].
  destruct (negb (is_optical_port c)); [now split|].
  destruct (vendor_known e && Re.matches Pat.RE_CURRENT_DIAG line);
    [now split|].
  destruct (vendor_known e && Re.matches Pat.RE_ALARM_THRESHOLDS line);
    [now split|].
  destruct (is_table_header e line).
  { unfold on_table_header.
    destruct (index_of "RX power" 0 _);
      [destruct (index_of "TX power" 0 _)|]; now split. }
  destruct (table_header_found c).
  { unfold on_table_row.
    cbn [tx_power rx_power set_tx_power set_rx_power set_table_header_found].
    split; intros H; now apply cell_keeps. }
  unfold on_values.
  destruct (Re.search Pat.STATUS_RE line);
    destruct (String.eqb (vendor e) "H3C");
    cbn [tx_power rx_power set_tx_power set_rx_power set_status];
    split; intros H;
    repeat first [ rewrite by_fallback_keeps | apply by_shape_keeps
                 | assumption ].
Qed.

Lemma run_keeps (segment : list string) :
  forall (c : ScanContext) (out : list PortRecord),
    Forall no_port segment ->
    (tx_power c <> None -> tx_power (fst (run e (c, out) segment)) <> None)
    /\ (rx_power c <> None -> rx_power (fst (run e (c, out) segment)) <> None).
Proof.
  induction segment as [|raw rest IH]; intros c out Hall; [now split|].
  inversion Hall as [|x xs Hp Hrest]; subst. rewrite run_cons.
  rewrite (step_no_port e _ _ _ Hp).
  destruct (classify_keeps (Str.strip raw) (marked e c raw)) as [Ht Hr].
  destruct (IH (classify e (Str.strip raw) (marked e c raw)) out Hrest)
    as [It Ir].
  split; intros H; [apply It, Ht | apply Ir, Hr]; exact H.
Qed.

End Kept.

(** X9. While no line names an interface, a reading the context holds is
    never cleared: it can be replaced by another accepted reading, but an
    out-of-range or malformed value, a marker or an alarm-threshold line
    never sets [tx_power] or [rx_power] back to absent. *)
Theorem readings_never_cleared
        (e : Env) (c : ScanContext) (out : list PortRecord)
        (segment : list string) :
  Forall no_port segment ->
  (tx_power c <> None -> tx_power (fst (run e (c, out) segment)) <> None)
  /\ (rx_power c <> None -> rx_power (fst (run e (c, out) segment)) <> None).
Proof. intros H. now apply run_keeps. Qed.

Lemma readings_never_cleared_witness :
  tx_power (fst (run huawei_env (ctx_port1_tx, [])
                     ["  TX Power : 15.00 dBm"; "  Alarm thresholds:";
                      "  TX Power : abc"; "  The transceiver is absent."]))
  <> None.
Proof.
  assert (H : Forall no_port
                     ["  TX Power : 15.00 dBm"; "  Alarm thresholds:";
                      "  TX Power : abc"; "  The transceiver is absent."])
    by (repeat constructor; by_eval).
  apply (proj1 (readings_never_cleared huawei_env ctx_port1_tx [] _ H)).
  discriminate.
Defined.

(* ================================================================== *)
(** ** The diagnostic-block marker and the tag of the records *)

Lemma not_marker_keeps_tag (e : Env) (line : string) (ct : CommandType) :
  is_command_marker e line = false -> mark_command e line ct = ct.
Proof.
  unfold is_command_marker, mark_command.
  destruct (String.eqb (vendor e) "Huawei").
  - intros H. apply orb_false_iff in H as [H Hv].
    apply orb_false_iff in H as [Hd Hdd]. now rewrite Hd, Hdd, Hv.
  - destruct (String.eqb (vendor e) "H3C"); [|reflexivity].
    intros H. apply orb_false_iff in H as [Hd Hv]. now rewrite Hd, Hv.
Qed.

Lemma marked_same (e : Env) (c : ScanContext) (raw : string) :
  is_command_marker e (Str.strip raw) = false -> marked e c raw = c.
Proof.
  intros H. unfold marked. rewrite (not_marker_keeps_tag e _ _ H).
  now destruct c.
Qed.

Section Inert.

Variable e : Env.

Lemma diag_step (c : ScanContext) (out : list PortRecord) (d : string) :
  vendor_known e = true -> plain_diag_line e d ->
  same_but_flag (fst (step e (c, out) d)) c /\ snd (step e (c, out) d) = out.
Proof.
  intros Hv (Hp & Hn & Ha & Hs & Hc & Hd & Hm).
  rewrite (step_no_port e _ _ _ Hp), (marked_same e c d Hm). cbn [fst snd].
  split; [|reflexivity].
  unfold classify. rewrite Hn, Ha, Hs, Hc, Hv, Hd, andb_false_r.
  now destruct (negb (is_optical_port c)).
Qed.

End Inert.

(** X10. For the two vendors, a [Current diagnostic parameters:] line
    that holds nothing else changes no record: the records of a segment
    are the same with the line as without it.  Being inside or outside of
    the diagnostic block decides nothing. *)
Theorem diag_marker_changes_no_record
        (e : Env) (d : string) (pre post : list string) :
  vendor_known e = true ->
  plain_diag_line e d ->
  segment_records e (pre ++ d :: post) = segment_records e (pre ++ post).
Proof.
  intros Hv Hd. unfold segment_records, scan_segment.
  change (init_ctx (parsing_power_data (init_ctx None))) with (init_ctx None).
  rewrite !run_app, run_cons.
  destruct (run e (init_ctx None, []) pre) as [c o].
  destruct (diag_step e c o d Hv Hd) as [Hc Ho].
  destruct (step e (c, o) d) as [c1 o1]. cbn [fst snd] in *. subst o1.
  destruct (run_flag e post c1 c o Hc) as [Hc2 Ho2].
  destruct (run e (c1, o) post) as [c3 o3].
  destruct (run e (c, o) post) as [c4 o4]. cbn [fst snd] in *. subst o4.
  rewrite !save_port_eq. cbn [snd].
  now rewrite (flushed_flag e c3 c4 Hc2).
Qed.

Lemma diag_marker_changes_no_record_witness :
  segment_records h3c_env
    (["<SW-B>display transceiver diagnosis interface";
      "GigabitEthernet1/0/1 transceiver diagnostic information:"]
     ++ "  Current diagnostic parameters:"
        :: ["    TX Power : -2.00 dBm"])
  = segment_records h3c_env
      (["<SW-B>display transceiver diagnosis interface";
        "GigabitEthernet1/0/1 transceiver diagnostic information:"]
       ++ ["    TX Power : -2.00 dBm"]).
Proof.
  apply (diag_marker_changes_no_record h3c_env).
  - by_eval.
  - repeat split; by_eval.
Defined.

Section Tag.

Variable e : Env.

Lemma flushed_untagged (c : ScanContext) :
  current_port c = None \/ command_type c = cmd_unknown ->
  Forall untagged (flushed e c).
Proof.
  intros H. unfold flushed, worth_saving.
  destruct H as [H|H].
  - rewrite H. constructor.
  - destruct (_ && _); constructor; [exact H | constructor].
Qed.

Lemma step_tag_inv (st : state) (raw : string) :
  tag_inv st ->
  is_command_marker e (Str.strip raw) = false
  \/ current_port (fst st) = None ->
  tag_inv (step e st raw).
Proof.
  destruct st as [c out]. intros [Hc Ho] Hm. cbn [fst snd] in *.
  assert (Hmk : current_port (marked e c raw) = None
                \/ command_type (marked e c raw) = cmd_unknown).
  { destruct Hm as [Hm|Hm]; [now rewrite (marked_same e c raw Hm)|].
    now left. }
  destruct (Re.search Pat.PORT_RE (Str.strip raw)) as [pm|] eqn:Hp.
  - rewrite (step_port e _ _ _ _ Hp). split; cbn [fst snd].
    + now right.
    + apply Forall_app. split; [exact Ho | now apply flushed_untagged].
  - rewrite (step_no_port e _ _ _ Hp). split; cbn [fst snd]; [|exact Ho].
    rewrite classify_port.
    rewrite (proj1 (classify_fields e (Str.strip raw) (marked e c raw))).
    exact Hmk.
Qed.

Lemma run_tag_inv (rest : list string) :
  forall st : state,
    tag_inv st ->
    Forall (fun raw => is_command_marker e (Str.strip raw) = false) rest ->
    tag_inv (run e st rest).
Proof.
  induction rest as [|raw rest IH]; intros st Hi Hall; [exact Hi|].
  inversion Hall as [|x xs Hm Hrest]; subst. rewrite run_cons.
  apply IH; [|exact Hrest]. apply step_tag_inv; [exact Hi | now left].
Qed.

End Tag.

(** X11. In a segment whose lines after the first hold no command-type
    marker, every record carries the tag ['unknown'], whatever command the
    first line holds: the flush that the first interface name triggers
    resets the tag before any port is open. *)
Theorem segment_records_untagged
        (e : Env) (first : string) (rest : list string) :
  Forall (fun raw => is_command_marker e (Str.strip raw) = false) rest ->
  Forall untagged (segment_records e (first :: rest)).
Proof.
  intros Hall. unfold segment_records, scan_segment.
  change (init_ctx (parsing_power_data (init_ctx None))) with (init_ctx None).
  rewrite run_cons.
  assert (H0 : tag_inv (init_ctx None, [])).
  { split; [now left | constructor]. }
  assert (H1 : tag_inv (step e (init_ctx None, []) first)).
  { apply step_tag_inv; [exact H0 | now right]. }
  pose proof (run_tag_inv e rest _ H1 Hall) as [Hc Ho].
  destruct (run e (step e (init_ctx None, []) first) rest) as [c o].
  cbn [fst snd] in *. rewrite save_port_eq. cbn [snd].
  apply Forall_app. split; [exact Ho | now apply flushed_untagged].
Qed.

Lemma segment_records_untagged_witness :
  Forall untagged (segment_records huawei_env verbose_log).
Proof.
  apply (segment_records_untagged huawei_env).
  repeat constructor; by_eval.
Defined.

(* ================================================================== *)
(** ** The matcher and what a pattern can read *)

Section MatcherSpec.

Context {A : Type}.

(** Whatever [Re.m] returns comes from a way of reading the pattern. *)
Lemma m_sound (r : Re.regex) :
  forall (prev : option ascii) (s : string) (c : Re.caps)
         (k : @Re.cont A) (x : A),
    Re.m r prev s c k = Some x ->
    exists p' s' c', reads r prev s p' s' /\ k p' s' c' = Some x.
Proof.
  induction r as [|f|a IHa b IHb|a IHa b IHb|a IHa|n a IHa| |];
    intros prev s c k x H.
  - exists prev, s, c. split; [constructor | exact H].
  - cbn [Re.m] in H. destruct s as [|ch s]; [discriminate|].
    destruct (f ch) eqn:E; [|discriminate].
    exists (Some ch), s, c. split; [now constructor | exact H].
  - cbn [Re.m] in H.
    apply IHa in H as (p1 & s1 & c1 & R1 & H).
    apply IHb in H as (p2 & s2 & c2 & R2 & H).
    exists p2, s2, c2. split; [econstructor; eassumption | exact H].
  - cbn [Re.m] in H. unfold Re.orelse in H.
    destruct (Re.m a prev s c k) as [v|] eqn:E.
    + injection H as <-. apply IHa in E as (p' & s' & c' & R & E).
      exists p', s', c'. split; [now apply reads_alt_l | exact E].
    + apply IHb in H as (p' & s' & c' & R & H).
      exists p', s', c'. split; [now apply reads_alt_r | exact H].
  - cbn [Re.m] in H. revert H.
    generalize (String.length s) at 1. intros fuel. revert prev s c.
    induction fuel as [|fuel IHf]; intros prev s c H.
    + exists prev, s, c. split; [constructor | exact H].
    + unfold Re.orelse in H at 1.
      match type of H with
      | match ?t with _ => _ end = _ => destruct t as [v|] eqn:E
      end.
      * injection H as <-.
        apply IHa in E as (p1 & s1 & c1 & R1 & E).
        destruct (String.length s1 <? String.length s) eqn:L;
          [|discriminate].
        apply IHf in E as (p2 & s2 & c2 & R2 & E).
        exists p2, s2, c2. split; [|exact E].
        apply Nat.ltb_lt in L. econstructor; eassumption.
      * exists prev, s, c. split; [constructor | exact H].
  - cbn [Re.m] in H. apply IHa in H as (p' & s' & c' & R & H).
    eexists p', s', _. split; [now constructor | exact H].
  - cbn [Re.m] in H. destruct prev; [discriminate|].
    exists None, s, c. split; [constructor | exact H].
  - cbn [Re.m] in H.
    destruct (xorb (Re.word_opt prev) (Re.word_opt (Re.head s))) eqn:E;
      [|discriminate].
    exists prev, s, c. split; [now constructor | exact H].
Qed.

(** A way of reading the pattern after which the continuation always
    succeeds makes [Re.m] succeed. *)
Lemma m_complete (r : Re.regex) :
  forall (prev : option ascii) (s : string) (p' : option ascii) (s' : string)
         (k : @Re.cont A),
    reads r prev s p' s' ->
    (forall c', exists x, k p' s' c' = Some x) ->
    forall c, exists x, Re.m r prev s c k = Some x.
Proof.
  induction r as [|f|a IHa b IHb|a IHa b IHb|a IHa|n a IHa| |];
    intros prev s p' s' k R Hk c.
  - inversion R; subst. apply Hk.
  - inversion R as [|f0 p0 ch s0 Hf| | | | | | | |]; subst.
    cbn [Re.m]. rewrite Hf. apply Hk.
  - inversion R as [| |a0 b0 p0 s0 p1 s1 p2 s2 R1 R2| | | | | | |]; subst.
    cbn [Re.m]. eapply IHa; [exact R1|]. intros c1.
    eapply IHb; [exact R2 | exact Hk].
  - cbn [Re.m]. unfold Re.orelse.
    destruct (Re.m a prev s c k) as [v|] eqn:E; [now exists v|].
    inversion R as [| | |a0 b0 p0 s0 p1 s1 R1|a0 b0 p0 s0 p1 s1 R1
                    | | | | |]; subst.
    + destruct (IHa _ _ _ _ k R1 Hk c) as [x Hx]. congruence.
    + eapply IHb; [exact R1 | exact Hk].
  - cbn [Re.m].
    assert (Hloop : forall fuel prev s c,
               String.length s <= fuel ->
               reads (Re.Star a) prev s p' s' ->
               exists x,
                 (fix loop (fuel : nat) (prev : option ascii) (s : string)
                      (c : Re.caps) {struct fuel} : option A :=
                    match fuel with
                    | O => k prev s c
                    | S fuel' =>
                        Re.orelse
                          (Re.m a prev s c
                             (fun prev' s' c' =>
                                if String.length s' <? String.length s
                                then loop fuel' prev' s' c' else None))
                          (fun _ => k prev s c)
                    end) fuel prev s c = Some x).
    { clear prev s c R. induction fuel as [|fuel IHf]; intros prev s c L R.
      - inversion R as [| | | | |a0 p0 s0
                        |a0 p0 s0 p1 s1 p2 s2 R1 L1 R2| | |]; subst;
          [apply Hk | lia].
      - unfold Re.orelse at 1.
        match goal with
        | |- exists x, match ?t with _ => _ end = _ =>
            destruct t as [v|] eqn:E
        end; [now exists v|].
        inversion R as [| | | | |a0 p0 s0
                        |a0 p0 s0 p1 s1 p2 s2 R1 L1 R2| | |]; subst;
          [apply Hk|].
        exfalso.
        match type of E with
        | Re.m a prev s c ?kk = None =>
            destruct (IHa prev s p1 s1 kk R1) with (c := c) as [x Hx]
        end.
        + intros c1. apply Nat.ltb_lt in L1 as L2. rewrite L2.
          apply IHf; [lia | exact R2].
        + congruence. }
    apply Hloop; [lia | exact R].
  - inversion R as [| | | | | | |n0 a0 p0 s0 p1 s1 R1| |]; subst.
    cbn [Re.m]. eapply IHa; [exact R1|]. intros c1. apply Hk.
  - inversion R; subst. cbn [Re.m]. apply Hk.
  - inversion R as [| | | | | | | | |p0 s0 Hx]; subst.
    cbn [Re.m]. rewrite Hx. apply Hk.
Qed.

End MatcherSpec.

(** *** Strings *)

Lemma str_app_assoc (a b c : string) :
  ((a ++ b) ++ c)%string = (a ++ (b ++ c))%string.
Proof. induction a as [|x a IH]; simpl; [reflexivity | now rewrite IH]. Qed.

Lemma str_app_nil_r (a : string) : (a ++ "")%string = a.
Proof. induction a as [|x a IH]; simpl; [reflexivity | now rewrite IH]. Qed.

Lemma str_length_app (a b : string) :
  String.length (a ++ b) = String.length a + String.length b.
Proof. induction a as [|x a IH]; simpl; [reflexivity | now rewrite IH]. Qed.

Lemma last_of_app (p : option ascii) (a b : string) :
  last_of p (a ++ b) = last_of (last_of p a) b.
Proof. revert p. induction a as [|x a IH]; intros p; simpl; auto. Qed.

Lemma rev_onto_app (s acc : string) :
  Str.rev_onto s acc = (Str.rev s ++ acc)%string.
Proof.
  unfold Str.rev. revert acc.
  induction s as [|x s IH]; intros acc; simpl; [reflexivity|].
  rewrite (IH (String x acc)), (IH (String x EmptyString)).
  now rewrite str_app_assoc.
Qed.

Lemma rev_app (a b : string) :
  Str.rev (a ++ b) = (Str.rev b ++ Str.rev a)%string.
Proof.
  induction a as [|x a IH]; simpl.
  - now rewrite str_app_nil_r.
  - unfold Str.rev in *. simpl.
    rewrite (rev_onto_app (a ++ b)), (rev_onto_app a).
    unfold Str.rev. rewrite IH. now rewrite str_app_assoc.
Qed.

Lemma rev_rev (s : string) : Str.rev (Str.rev s) = s.
Proof.
  induction s as [|x s IH]; [reflexivity|].
  unfold Str.rev at 2. simpl. rewrite rev_onto_app, rev_app, IH.
  reflexivity.
Qed.

Lemma lstrip_suffix (s : string) :
  exists w, s = (w ++ Str.lstrip s)%string.
Proof.
  induction s as [|x s [w IH]]; [now exists EmptyString|].
  simpl. destruct (Chars.is_space x).
  - exists (String x w). simpl. now rewrite <- IH.
  - now exists EmptyString.
Qed.

(** [strip] cuts a piece out of the string. *)
Lemma strip_inside (s : string) :
  exists w1 w2, s = (w1 ++ (Str.strip s ++ w2))%string.
Proof.
  destruct (lstrip_suffix s) as [w1 E1].
  destruct (lstrip_suffix (Str.rev (Str.lstrip s))) as [w E2].
  exists w1, (Str.rev w). unfold Str.strip.
  rewrite <- rev_app, <- E2, rev_rev. exact E1.
Qed.

(** *** Searching *)

Lemma find_sound (r : Re.regex) (s : string) :
  forall (prev : option ascii) (skipped : string) (mt : Re.rmatch),
    Re.find r prev skipped s = Some mt ->
    exists pre suf p' s',
      s = (pre ++ suf)%string /\ reads r (last_of prev pre) suf p' s'.
Proof.
  induction s as [|x s IH]; intros prev skipped mt H.
  - cbn [Re.find] in H.
    destruct (Re.match_at r prev EmptyString) as [res|] eqn:E;
      [|discriminate].
    unfold Re.match_at in E.
    apply m_sound in E as (p' & s' & c' & R & _).
    now exists EmptyString, EmptyString, p', s'.
  - cbn [Re.find] in H.
    destruct (Re.match_at r prev (String x s)) as [res|] eqn:E.
    + unfold Re.match_at in E.
      apply m_sound in E as (p' & s' & c' & R & _).
      now exists EmptyString, (String x s), p', s'.
    + apply IH in H as (pre & suf & p' & s' & -> & R).
      now exists (String x pre), suf, p', s'.
Qed.

Lemma find_complete (r : Re.regex) (pre : string) :
  forall (prev : option ascii) (skipped suf : string)
         (p' : option ascii) (s' : string),
    reads r (last_of prev pre) suf p' s' ->
    exists mt, Re.find r prev skipped (pre ++ suf) = Some mt.
Proof.
  induction pre as [|x pre IH]; intros prev skipped suf p' s' R.
  - cbn [append last_of] in *.
    assert (E : exists res, Re.match_at r prev suf = Some res).
    { unfold Re.match_at. eapply m_complete; [exact R|].
      intros c'. eexists. reflexivity. }
    destruct E as [[[[txt rest] lst] cp] E].
    destruct suf; cbn [Re.find]; rewrite E; eexists; reflexivity.
  - cbn [append Re.find].
    destruct (Re.match_at r prev (String x (pre ++ suf)))
      as [[[[txt rest] lst] cp]|]; [eexists; reflexivity|].
    eapply IH. exact R.
Qed.

Lemma matches_occurs (r : Re.regex) (s : string) :
  Re.matches r s = true <-> occurs r s.
Proof.
  unfold Re.matches, Re.search, occurs. split.
  - destruct (Re.find r None EmptyString s) as [mt|] eqn:E; [|discriminate].
    intros _. eapply find_sound. exact E.
  - intros (pre & suf & p' & s' & -> & R).
    destruct (find_complete r pre None EmptyString suf p' s' R) as [mt ->].
    reflexivity.
Qed.

(** *** Reading in a longer text *)

Lemma reads_ext (r : Re.regex) (p : option ascii) (s : string)
                (p' : option ascii) (s' : string) :
  reads r p s p' s' ->
  anchor_free r = true ->
  forall (t : string) (q : option ascii),
    exists q', reads r q (s ++ t) q' (s' ++ t).
Proof.
  intros R. induction R as
      [p s|f p a s Hf|a b p s p1 s1 p2 s2 R1 IH1 R2 IH2
       |a b p s p' s' R IH|a b p s p' s' R IH|a p s
       |a p s p1 s1 p2 s2 R1 IH1 L R2 IH2|n a p s p' s' R IH|s|p s Hx];
    intros Hf' t q; cbn [anchor_free] in Hf'; try discriminate.
  - exists q. constructor.
  - exists (Some a). cbn [append]. now constructor.
  - apply andb_true_iff in Hf' as [Ha Hb].
    destruct (IH1 Ha t q) as [q1 Q1]. destruct (IH2 Hb t q1) as [q2 Q2].
    exists q2. econstructor; eassumption.
  - apply andb_true_iff in Hf' as [Ha Hb].
    destruct (IH Ha t q) as [q1 Q1]. exists q1. now apply reads_alt_l.
  - apply andb_true_iff in Hf' as [Ha Hb].
    destruct (IH Hb t q) as [q1 Q1]. exists q1. now apply reads_alt_r.
  - exists q. constructor.
  - destruct (IH1 Hf' t q) as [q1 Q1].
    destruct (IH2 Hf' t q1) as [q2 Q2].
    exists q2. eapply reads_star_1; [exact Q1 | | exact Q2].
    rewrite !str_length_app. lia.
  - destruct (IH Hf' t q) as [q1 Q1]. exists q1. now constructor.
Qed.

Lemma reads_seq_app (l1 l2 : list Re.regex) :
  forall (p : option ascii) (s : string) (p' : option ascii) (s' : string),
    reads (Re.seq (l1 ++ l2)) p s p' s'
    <-> exists p1 s1, reads (Re.seq l1) p s p1 s1
                      /\ reads (Re.seq l2) p1 s1 p' s'.
Proof.
  induction l1 as [|r l1 IH]; intros p s p' s'.
  - cbn [app Re.seq fold_right]. split.
    + intros R. exists p, s. split; [constructor | exact R].
    + intros (p1 & s1 & R1 & R2). inversion R1; subst. exact R2.
  - change (Re.seq ((r :: l1) ++ l2)) with (Re.Cat r (Re.seq (l1 ++ l2))).
    change (Re.seq (r :: l1)) with (Re.Cat r (Re.seq l1)). split.
    + intros R.
      inversion R as [| |a0 b0 p0 s0 pa sa pb sb Ra Rb| | | | | | |]; subst.
      apply IH in Rb as (p1 & s1 & R1 & R2).
      exists p1, s1. split; [econstructor; eassumption | exact R2].
    + intros (p1 & s1 & R1 & R2).
      inversion R1 as [| |a0 b0 p0 s0 pa sa pb sb Ra Rb| | | | | | |]; subst.
      econstructor; [exact Ra|]. apply IH. now exists p1, s1.
Qed.

Lemma occurs_prefix (l1 l2 : list Re.regex) (s : string) :
  occurs (Re.seq (l1 ++ l2)) s -> occurs (Re.seq l1) s.
Proof.
  intros (pre & suf & p' & s' & E & R).
  apply reads_seq_app in R as (p1 & s1 & R1 & _).
  now exists pre, suf, p1, s1.
Qed.

Lemma occurs_inside (r : Re.regex) (w1 s w2 : string) :
  anchor_free r = true ->
  occurs r s -> occurs r (w1 ++ (s ++ w2))%string.
Proof.
  intros Hf (pre & suf & p' & s' & -> & R).
  destruct (reads_ext r _ _ _ _ R Hf w2 (last_of None (w1 ++ pre)%string))
    as [q' Q].
  exists (w1 ++ pre)%string, (suf ++ w2)%string, q', (s' ++ w2)%string.
  split; [|exact Q]. now rewrite !str_app_assoc.
Qed.

(** *** The command patterns *)

Lemma reads_opt_skip (x : Re.regex) (p : option ascii) (s : string) :
  reads (Re.seq [Re.opt x]) p s p s.
Proof.
  cbn [Re.seq fold_right]. econstructor; [|constructor].
  apply reads_alt_r. constructor.
Qed.

(** A diagnosis command is a command of the segmenter. *)
Lemma diagnosis_is_command (s : string) :
  occurs (Re.seq (display_transceiver ++ diagnosis_interface)) s ->
  occurs Pat.ALL_TRANSCEIVER_CMD_RE s.
Proof.
  intros (pre & suf & p' & s' & E & R).
  apply reads_seq_app in R as (p1 & s1 & R1 & R2).
  exists pre, suf, p', s'. split; [exact E|].
  apply reads_alt_l.
  change (reads (Re.seq (display_transceiver
                         ++ [Re.Alt (Re.seq (diagnosis_interface
                                             ++ [Re.opt (Re.Cat Pat.ws1
                                                           (Pat.ci "detail"))]))
                                    (Pat.ci "verbose")]))
                (last_of None pre) suf p' s').
  apply reads_seq_app. exists p1, s1. split; [exact R1|].
  cbn [Re.seq fold_right]. econstructor; [|constructor].
  apply reads_alt_l. apply reads_seq_app. exists p', s'.
  split; [exact R2 | apply reads_opt_skip].
Qed.

(** So is a verbose command. *)
Lemma verbose_is_command (s : string) :
  occurs (Re.seq (display_transceiver ++ [Pat.ci "verbose"])) s ->
  occurs Pat.ALL_TRANSCEIVER_CMD_RE s.
Proof.
  intros (pre & suf & p' & s' & E & R).
  apply reads_seq_app in R as (p1 & s1 & R1 & R2).
  exists pre, suf, p', s'. split; [exact E|].
  apply reads_alt_l.
  change (reads (Re.seq (display_transceiver
                         ++ [Re.Alt (Re.seq (diagnosis_interface
                                             ++ [Re.opt (Re.Cat Pat.ws1
                                                           (Pat.ci "detail"))]))
                                    (Pat.ci "verbose")]))
                (last_of None pre) suf p' s').
  apply reads_seq_app. exists p1, s1. split; [exact R1|].
  cbn [Re.seq fold_right] in *.
  inversion R2 as [| |a0 b0 p0 s0 pa sa pb sb Ra Rb| | | | | | |]; subst.
  inversion Rb; subst.
  econstructor; [|constructor]. now apply reads_alt_r.
Qed.

Lemma marker_in_stripped (l : list Re.regex) (tail : list Re.regex)
                         (raw : string) :
  anchor_free (Re.seq l) = true ->
  (forall s, occurs (Re.seq l) s -> occurs Pat.ALL_TRANSCEIVER_CMD_RE s) ->
  Re.matches (Re.seq (l ++ tail)) (Str.strip raw) = true ->
  is_cmd_line raw = true.
Proof.
  intros Hf Hcmd Hm. unfold is_cmd_line.
  apply matches_occurs. apply Hcmd.
  destruct (strip_inside raw) as (w1 & w2 & E). rewrite E.
  apply occurs_inside; [exact Hf|].
  apply occurs_prefix with tail. now apply matches_occurs.
Qed.

(** A line in which a command-type marker matches once stripped is a line
    at which the segmenter cuts. *)
Lemma marker_is_cmd_line (e : Env) (raw : string) :
  is_command_marker e (Str.strip raw) = true -> is_cmd_line raw = true.
Proof.
  assert (Hd : forall tail,
             Re.matches (Re.seq ((display_transceiver ++ diagnosis_interface)
                                 ++ tail)) (Str.strip raw) = true ->
             is_cmd_line raw = true).
  { intros tail. apply marker_in_stripped;
      [reflexivity | apply diagnosis_is_command]. }
  assert (Hv : forall tail,
             Re.matches (Re.seq ((display_transceiver ++ [Pat.ci "verbose"])
                                 ++ tail)) (Str.strip raw) = true ->
             is_cmd_line raw = true).
  { intros tail. apply marker_in_stripped;
      [reflexivity | apply verbose_is_command]. }
  pose proof (Hd [Re.Wb]) as Hdiag.
  pose proof (Hd [Pat.ws1; Pat.ci "detail"; Re.Wb]) as Hdet.
  pose proof (Hv [Re.Wb]) as Hverb.
  change (Re.seq ((display_transceiver ++ diagnosis_interface) ++ [Re.Wb]))
    with Pat.HUAWEI_DIAG_CMD_RE in Hdiag.
  change (Re.seq ((display_transceiver ++ diagnosis_interface)
                  ++ [Pat.ws1; Pat.ci "detail"; Re.Wb]))
    with Pat.HUAWEI_DIAG_DETAIL_CMD_RE in Hdet.
  change (Re.seq ((display_transceiver ++ [Pat.ci "verbose"]) ++ [Re.Wb]))
    with Pat.HUAWEI_VERB_CMD_RE in Hverb.
  unfold is_command_marker, Pat.H3C_DIAG_CMD_RE, Pat.H3C_VERB_CMD_RE.
  destruct (String.eqb (vendor e) "Huawei").
  - intros H. apply orb_true_iff in H as [H|H]; [|now apply Hverb].
    apply orb_true_iff in H as [H|H]; [now apply Hdiag | now apply Hdet].
  - destruct (String.eqb (vendor e) "H3C"); [|discriminate].
    intros H. apply orb_true_iff in H as [H|H];
      [now apply Hdiag | now apply Hverb].
Qed.

Lemma segment_untagged_aux (e : Env) (first : string) (rest : list string) :
  Forall (fun raw => is_command_marker e (Str.strip raw) = false) rest ->
  Forall untagged (segment_records e (first :: rest)).
Proof.
  intros Hall. unfold segment_records, scan_segment.
  change (init_ctx (parsing_power_data (init_ctx None))) with (init_ctx None).
  rewrite run_cons.
  assert (H0 : tag_inv (init_ctx None, [])).
  { split; [now left | constructor]. }
  assert (H1 : tag_inv (step e (init_ctx None, []) first)).
  { apply step_tag_inv; [exact H0 | now right]. }
  pose proof (run_tag_inv e rest _ H1 Hall) as [Hc Ho].
  destruct (run e (step e (init_ctx None, []) first) rest) as [c o].
  cbn [fst snd] in *. rewrite save_port_eq. cbn [snd].
  apply Forall_app. split; [exact Ho | now apply flushed_untagged].
Qed.

(** X12. Every record of a file carries the tag ['unknown'].  A line in
    which a command-type marker matches is a line at which the file is cut
    into segments, so a marker is only ever seen on the first line of a
    segment, before any port is open; the flush that opens the first port
    resets the tag. *)
Theorem file_records_untagged
        (lines : list string) (base vendor network_type : string) :
  Forall untagged (extract_power_info lines base vendor network_type).
Proof.
  rewrite records_by_segment_aux. apply Forall_forall. intros r Hin.
  apply in_flat_map in Hin as (sg & Hsg & Hr).
  pose proof (grouped_shape lines) as Hshape.
  rewrite <- segments_grouped in Hshape. rewrite Forall_forall in Hshape.
  destruct (Hshape sg Hsg) as (first & rest & -> & _ & Hrest).
  set (e := mkEnv vendor network_type (resolve_device lines base) base) in *.
  assert (Hfree : Forall (fun raw => is_command_marker e (Str.strip raw)
                                     = false) rest).
  { eapply Forall_impl; [|exact Hrest]. intros raw Hc. cbv beta in Hc.
    destruct (is_command_marker e (Str.strip raw)) eqn:E; [|reflexivity].
    apply marker_is_cmd_line in E. congruence. }
  pose proof (segment_untagged_aux e first rest Hfree) as Hall.
  rewrite Forall_forall in Hall. now apply Hall.
Qed.

(* ================================================================== *)
(** ** Vendor detection *)

Lemma vendor_of_batch_app (a b : list string) :
  vendor_of_batch (a ++ b)
  = match vendor_of_batch a with
    | Some v => Some v
    | None => vendor_of_batch b
    end.
Proof.
  induction a as [|l a IH]; [reflexivity|].
  simpl. now destruct (vendor_of_line l).
Qed.

Lemma detect_loop_first (fuel : nat) :
  forall f : list string,
    List.length f < fuel -> detect_loop fuel f = first_vendor f.
Proof.
  unfold first_vendor.
  induction fuel as [|fuel IH]; intros f Hlen; [lia|].
  cbn [detect_loop]. destruct f as [|l f]; [reflexivity|].
  assert (Hs : List.length (skipn batch_size (l :: f)) < fuel).
  { rewrite length_skipn. unfold batch_size. simpl in *. lia. }
  rewrite (IH _ Hs).
  replace (map py_lower (l :: f))
    with (map py_lower (firstn batch_size (l :: f))
          ++ map py_lower (skipn batch_size (l :: f)))
    by now rewrite <- map_app, firstn_skipn.
  rewrite vendor_of_batch_app.
  destruct (map py_lower (firstn batch_size (l :: f))) eqn:E.
  - unfold batch_size in E. discriminate.
  - reflexivity.
Qed.

Lemma detect_type_first (f : list string) : detect_type f = first_vendor f.
Proof. unfold detect_type. apply detect_loop_first. lia. Qed.

Lemma vendor_of_batch_some (batch : list string) (v : string) :
  vendor_of_batch batch = Some v
  <-> exists pre l post,
        batch = pre ++ l :: post
        /\ Forall (fun x => vendor_of_line x = None) pre
        /\ vendor_of_line l = Some v.
Proof.
  induction batch as [|x batch IH].
  - split; [discriminate|].
    intros (pre & l & post & E & _). now destruct pre.
  - simpl. destruct (vendor_of_line x) as [w|] eqn:Ex.
    + split.
      * intros H. injection H as <-. now exists [], x, batch.
      * intros (pre & l & post & E & Hpre & Hl).
        destruct pre as [|y pre]; simpl in E; injection E as E1 E2; subst.
        -- congruence.
        -- inversion Hpre; subst. congruence.
    + rewrite IH. split.
      * intros (pre & l & post & E & Hpre & Hl). subst batch.
        exists (x :: pre), l, post.
        split; [reflexivity|]. split; [now constructor | exact Hl].
      * intros (pre & l & post & E & Hpre & Hl).
        destruct pre as [|y pre]; simpl in E; injection E as E1 E2; subst.
        -- congruence.
        -- inversion Hpre; subst. now exists pre, l, post.
Qed.

(** X13. Reading the file in batches of 100 lines changes nothing:
    [detect_type] returns what a scan of the lines one by one returns, for
    a file of any length, and the loop ends on every file. *)
Theorem detect_type_ignores_batches (f : list string) :
  detect_type f = first_vendor f.
Proof. apply detect_type_first. Qed.

Lemma starts_with_iff (p s : string) :
  Str.starts_with p s = true <-> exists b, s = (p ++ b)%string.
Proof.
  revert s. induction p as [|x p IH]; intros s.
  - split; [intros _; now exists s | reflexivity].
  - destruct s as [|y s]; simpl.
    + split; [discriminate | intros [b E]; discriminate].
    + rewrite andb_true_iff, IH. split.
      * intros [Hx [b ->]]. apply Ascii.eqb_eq in Hx as ->. now exists b.
      * intros [b E]. injection E as -> ->.
        split; [apply Ascii.eqb_refl | now exists b].
Qed.

Lemma contains_nil (sub : string) :
  Str.contains sub EmptyString = Str.starts_with sub EmptyString || false.
Proof. reflexivity. Qed.

Lemma contains_cons (sub : string) (y : ascii) (s : string) :
  Str.contains sub (String y s)
  = Str.starts_with sub (String y s) || Str.contains sub s.
Proof. reflexivity. Qed.

Lemma contains_iff (sub s : string) :
  Str.contains sub s = true
  <-> exists a b, s = (a ++ (sub ++ b))%string.
Proof.
  induction s as [|y s IH].
  - rewrite contains_nil, orb_false_r, starts_with_iff. split.
    + intros [b E]. now exists EmptyString, b.
    + intros (a & b & E). destruct a; [now exists b | discriminate].
  - rewrite contains_cons, orb_true_iff, starts_with_iff, IH. split.
    + intros [[b E]|(a & b & ->)].
      * now exists EmptyString, b.
      * now exists (String y a), b.
    + intros (a & b & E). destruct a as [|x a].
      * left. now exists b.
      * right. injection E as -> ->. now exists a, b.
Qed.

(** The longer keyword holds the shorter: the second test of the [or]
    never decides. *)
Lemma long_keyword_redundant (line : string) :
  Str.contains "new h3c technologies" line = true ->
  Str.contains "h3c" line = true.
Proof.
  rewrite !contains_iff. intros (a & b & ->).
  exists (a ++ "new ")%string, (" technologies" ++ b)%string.
  now rewrite !str_app_assoc.
Qed.

Lemma vendor_of_line_cases (line : string) (v : string) :
  (vendor_of_line line = Some v
   <-> (if Str.contains "huawei" line
        then v = "Huawei"
        else Str.contains "h3c" line = true /\ v = "H3C"))
  /\ (vendor_of_line line = None
      <-> Str.contains "huawei" line = false
          /\ Str.contains "h3c" line = false).
Proof.
  unfold vendor_of_line.
  pose proof (long_keyword_redundant line) as Hl.
  destruct (Str.contains "huawei" line).
  - split; split.
    + intros H. now injection H.
    + now intros ->.
    + discriminate.
    + intros [H _]. discriminate.
  - destruct (Str.contains "h3c" line); cbn [orb].
    + split; split.
      * intros H. injection H as <-. now split.
      * now intros [_ ->].
      * discriminate.
      * intros [_ H]. discriminate.
    + destruct (Str.contains "new h3c technologies" line);
        [specialize (Hl eq_refl); discriminate|].
      split; split.
      * discriminate.
      * intros [H _]. discriminate.
      * now split.
      * reflexivity.
Qed.

Lemma vendor_of_batch_none (batch : list string) :
  vendor_of_batch batch = None
  <-> Forall (fun x => vendor_of_line x = None) batch.
Proof.
  induction batch as [|x batch IH]; [split; [constructor | reflexivity]|].
  simpl. destruct (vendor_of_line x) eqn:E.
  - split; [discriminate|]. intros H. inversion H; subst. congruence.
  - rewrite IH. split; [now constructor|].
    intros H. now inversion H.
Qed.

(** X14. [detect_type] answers with the first line that, once lowered,
    contains [huawei] or [h3c]: ['Huawei'] when that line contains
    [huawei], whether or not it also contains [h3c], and ['H3C']
    otherwise.  It answers [None] exactly when no line contains either. *)
Theorem detect_type_first_keyword (f : list string) :
  (forall v, detect_type f = Some v
             <-> exists pre l post,
                   f = pre ++ l :: post
                   /\ Forall (fun x =>
                                Str.contains "huawei" (py_lower x) = false
                                /\ Str.contains "h3c" (py_lower x) = false)
                             pre
                   /\ (if Str.contains "huawei" (py_lower l)
                       then v = "Huawei"
                       else Str.contains "h3c" (py_lower l) = true
                            /\ v = "H3C"))
  /\ (detect_type f = None
      <-> Forall (fun x => Str.contains "huawei" (py_lower x) = false
                           /\ Str.contains "h3c" (py_lower x) = false) f).
Proof.
  rewrite detect_type_first. unfold first_vendor. split.
  - intros v. rewrite vendor_of_batch_some. split.
    + intros (pre & l & post & E & Hpre & Hl).
      apply map_eq_app in E as (f1 & f2 & -> & <- & E2).
      destruct f2 as [|l0 f2]; [discriminate|].
      cbn [map] in E2. injection E2 as <- <-.
      exists f1, l0, f2. split; [reflexivity|]. split.
      * rewrite Forall_map in Hpre.
        eapply Forall_impl; [|exact Hpre]. intros x Hx.
        now apply (vendor_of_line_cases (py_lower x) v).
      * now apply (vendor_of_line_cases (py_lower l0) v).
    + intros (pre & l & post & -> & Hpre & Hl).
      exists (map py_lower pre), (py_lower l), (map py_lower post).
      split; [now rewrite map_app|]. split.
      * rewrite Forall_map.
        eapply Forall_impl; [|exact Hpre]. intros x Hx.
        now apply (vendor_of_line_cases (py_lower x) v).
      * now apply (vendor_of_line_cases (py_lower l) v).
  - rewrite vendor_of_batch_none, Forall_map. split; intros H;
      (eapply Forall_impl; [|exact H]); intros x Hx;
      now apply (vendor_of_line_cases (py_lower x) EmptyString).
Qed.

(* ================================================================== *)
(** ** Readings are numbers *)

(** X15. A reading in a record of a file is a number: a [nan] or [inf]
    cell of a table row parses as a float but fails the range test, so
    neither ever reaches a record. *)
Theorem records_hold_numbers
        (lines : list string) (base vendor network_type : string)
        (r : PortRecord) :
  In r (extract_power_info lines base vendor network_type) ->
  (forall v, TX_Power r = Some v -> is_number v)
  /\ (forall v, RX_Power r = Some v -> is_number v).
Proof.
  intros Hin. unfold extract_power_info in Hin.
  destruct (segments_ok
              (mkEnv vendor network_type (resolve_device lines base) base)
              (segments lines) (init_ctx None, [])) as [_ Hall].
  { split; [split; apply power_ok_none | constructor]. }
  rewrite Forall_forall in Hall. destruct (Hall r Hin) as [Ht Hr].
  split; intros v Hv; apply in_range_finite; [now apply Ht | now apply Hr].
Qed.

Lemma records_hold_numbers_witness :
  In verbose_record
     (extract_power_info verbose_log "sw-a.log" "Huawei" "intranet")
  /\ is_number minus_two.
Proof.
  assert (Hin : In verbose_record
                   (extract_power_info verbose_log "sw-a.log" "Huawei"
                                       "intranet")).
  { vm_compute. left. reflexivity. }
  split; [exact Hin|].
  apply (proj1 (records_hold_numbers verbose_log "sw-a.log" "Huawei"
                                     "intranet" verbose_record Hin)).
  reflexivity.
Defined.

(* ================================================================== *)
(** ** The tag that is never set *)

Lemma space_not_word (a : ascii) :
  Chars.is_space a = true -> Chars.is_word a = false.
Proof.
  destruct a as [[] [] [] [] [] [] [] []]; vm_compute;
    intros H; first [reflexivity | discriminate H].
Qed.

Lemma lower_is_word (a : ascii) :
  Chars.is_lower (Chars.lower a) = true -> Chars.is_word a = true.
Proof.
  destruct a as [[] [] [] [] [] [] [] []]; vm_compute;
    intros H; first [reflexivity | discriminate H].
Qed.

Lemma lower_fixed (c : ascii) :
  Chars.is_lower c = true -> Chars.lower c = c.
Proof.
  destruct c as [[] [] [] [] [] [] [] []]; vm_compute;
    intros H; first [reflexivity | discriminate H].
Qed.

Lemma char_ci_word (c a : ascii) :
  Chars.is_lower c = true -> Chars.is_char_ci c a = true ->
  Chars.is_word a = true.
Proof.
  intros Hc H. unfold Chars.is_char_ci in H.
  apply Ascii.eqb_eq in H. rewrite (lower_fixed c Hc) in H.
  apply lower_is_word. now rewrite <- H.
Qed.

(** After a literal of letters the character before the position is a
    word character. *)
Lemma reads_literal_word (w : string) :
  forall (p : option ascii) (s : string) (p' : option ascii) (s' : string),
    all_lower w = true ->
    reads (Re.lit_ci w) p s p' s' ->
    Re.word_opt p = true \/ w <> EmptyString ->
    Re.word_opt p' = true.
Proof.
  induction w as [|c w IH]; intros p s p' s' Hl R Hp.
  - inversion R; subst. destruct Hp as [Hp|Hp]; [exact Hp | contradiction].
  - cbn [all_lower] in Hl. apply andb_true_iff in Hl as [Hc Hw].
    cbn [Re.lit_ci] in R.
    inversion R as [| |a0 b0 p0 s0 p1 s1 p2 s2 R1 R2| | | | | | |]; subst.
    inversion R1 as [|f p0 a s0 Hf| | | | | | | |]; subst.
    apply (IH _ _ _ _ Hw R2). left. cbn [Re.word_opt].
    now apply (char_ci_word c a).
Qed.

(** A line the detail pattern matches is matched by the diagnosis
    pattern, which [mark_command] tests first. *)
Lemma detail_is_diagnosis (line : string) :
  Re.matches Pat.HUAWEI_DIAG_DETAIL_CMD_RE line = true ->
  Re.matches Pat.HUAWEI_DIAG_CMD_RE line = true.
Proof.
  rewrite !matches_occurs.
  intros (pre & suf & p' & s' & E & R).
  change Pat.HUAWEI_DIAG_DETAIL_CMD_RE
    with (Re.seq ((display_transceiver ++ [Pat.ci "diagnosis"; Pat.ws1])
                  ++ [Pat.ci "interface"]
                  ++ [Pat.ws1; Pat.ci "detail"; Re.Wb])) in R.
  apply reads_seq_app in R as (p1 & s1 & R1 & R).
  apply reads_seq_app in R as (p2 & s2 & R2 & R3).
  exists pre, suf, p2, s2. split; [exact E|].
  change Pat.HUAWEI_DIAG_CMD_RE
    with (Re.seq ((display_transceiver ++ [Pat.ci "diagnosis"; Pat.ws1])
                  ++ [Pat.ci "interface"] ++ [Re.Wb])).
  apply reads_seq_app. exists p1, s1. split; [exact R1|].
  apply reads_seq_app. exists p2, s2. split; [exact R2|].
  cbn [Re.seq fold_right]. econstructor; [|constructor]. constructor.
  assert (Hw : Re.word_opt p2 = true).
  { cbn [Re.seq fold_right] in R2.
    inversion R2 as [| |a0 b0 p0 s0 pa sa pb sb Ra Rb| | | | | | |]; subst.
    inversion Rb; subst.
    apply (reads_literal_word "interface" _ _ _ _ eq_refl Ra).
    right. discriminate. }
  assert (Hs : Re.word_opt (Re.head s2) = false).
  { cbn [Re.seq fold_right] in R3.
    inversion R3 as [| |a0 b0 p0 s0 pa sa pb sb Ra Rb| | | | | | |]; subst.
    unfold Pat.ws1, Re.plus in Ra.
    inversion Ra as [| |a1 b1 p3 s3 pc sc pd sd Rc Rd| | | | | | |]; subst.
    inversion Rc as [|f p0 a s0 Hf| | | | | | | |]; subst.
    cbn [Re.head Re.word_opt]. now apply space_not_word. }
  now rewrite Hw, Hs.
Qed.

Lemma mark_command_not_detail (e : Env) (line : string) (ct : CommandType) :
  not_detail ct -> not_detail (mark_command e line ct).
Proof.
  unfold not_detail, mark_command. intros Hct.
  destruct (String.eqb (vendor e) "Huawei").
  - destruct (Re.matches Pat.HUAWEI_DIAG_CMD_RE line) eqn:Hd; [discriminate|].
    destruct (Re.matches Pat.HUAWEI_DIAG_DETAIL_CMD_RE line) eqn:Hdd.
    + apply detail_is_diagnosis in Hdd. congruence.
    + destruct (Re.matches Pat.HUAWEI_VERB_CMD_RE line);
        [discriminate | exact Hct].
  - destruct (String.eqb (vendor e) "H3C"); [|exact Hct].
    destruct (Re.matches Pat.H3C_DIAG_CMD_RE line); [discriminate|].
    destruct (Re.matches Pat.H3C_VERB_CMD_RE line);
      [discriminate | exact Hct].
Qed.

Lemma run_not_detail (e : Env) (segment : list string) :
  forall st : state,
    not_detail (command_type (fst st)) ->
    not_detail (command_type (fst (run e st segment))).
Proof.
  induction segment as [|raw rest IH]; intros st H; [exact H|].
  rewrite run_cons. apply IH. destruct st as [c out]. cbn [fst] in *.
  destruct (Re.search Pat.PORT_RE (Str.strip raw)) as [pm|] eqn:Hp.
  - rewrite (step_port e _ _ _ _ Hp). discriminate.
  - rewrite (step_no_port e _ _ _ Hp). cbn [fst].
    rewrite (proj1 (classify_fields e (Str.strip raw) (marked e c raw))).
    now apply mark_command_not_detail.
Qed.

(** X16. The tag ['huawei_diag_detail'] is never set.  Every line the
    detail pattern matches is also matched by the plain diagnosis pattern,
    which the command-type rule tests first; so the rule never answers
    with the detail tag, and no context a scan reaches carries it. *)
Theorem detail_tag_never_set (e : Env) :
  (forall line, Re.matches Pat.HUAWEI_DIAG_DETAIL_CMD_RE line = true ->
                Re.matches Pat.HUAWEI_DIAG_CMD_RE line = true)
  /\ (forall line ct, ct <> huawei_diag_detail ->
                      mark_command e line ct <> huawei_diag_detail)
  /\ (forall ppd out segment,
         command_type (fst (run e (init_ctx ppd, out) segment))
         <> huawei_diag_detail).
Proof.
  split; [exact detail_is_diagnosis|]. split.
  - intros line ct. apply mark_command_not_detail.
  - intros ppd out segment. apply (run_not_detail e segment).
    discriminate.
Qed.

Lemma detail_tag_never_set_witness :
  mark_command huawei_env
               "display transceiver diagnosis interface detail" cmd_unknown
  = huawei_diag.
Proof.
  pose proof (proj1 (detail_tag_never_set huawei_env)
                    "display transceiver diagnosis interface detail") as H.
  unfold mark_command. cbn [vendor huawei_env].
  rewrite H; by_eval.
Defined.

(* ================================================================== *)
(** ** Properties of the device summaries *)

Lemma h3c_line_skip (lim : PyNum.Limits) (st : H3CStats) (ln : string) :
  h3c_relevant ln = false -> h3c_line lim st ln = Some st.
Proof.
  unfold h3c_relevant, Re.matches. intros H.
  apply orb_false_iff in H as [H Hs]. apply orb_false_iff in H as [Hm Hc].
  unfold h3c_line, on_mem, on_cpu, on_sn.
  destruct (Re.search SumPat.MEM_RE ln); [discriminate|]. cbn [bind].
  destruct (Re.search SumPat.CPU_RE ln); [discriminate|]. cbn [bind].
  destruct (Re.search SumPat.SN_RE ln); [discriminate|].
  now destruct st.
Qed.

Lemma h3c_lines_filter (lim : PyNum.Limits) (lines : list string) :
  forall st : H3CStats,
    h3c_lines lim (filter h3c_relevant lines) st = h3c_lines lim lines st.
Proof.
  induction lines as [|ln rest IH]; intros st; [reflexivity|].
  cbn [filter]. destruct (h3c_relevant ln) eqn:E.
  - cbn [h3c_lines].
    destruct (h3c_line lim st ln); cbn [bind]; [apply IH | reflexivity].
  - cbn [h3c_lines]. rewrite (h3c_line_skip lim st ln E). cbn [bind].
    apply IH.
Qed.

(** X17. The H3C summary reads three kinds of line only.  Two files that
    agree on their first 50 lines (where the device name is looked for) and
    on their lines matched by the memory, CPU or serial-number pattern, in
    order, give the same result: every other line is ignored, wherever it
    stands. *)
Theorem h3c_summary_reads_three_kinds
        (lim : PyNum.Limits) (lines1 lines2 : list string)
        (base vendor network_type : string) :
  firstn 50 lines1 = firstn 50 lines2 ->
  filter h3c_relevant lines1 = filter h3c_relevant lines2 ->
  parse_h3c_logs lim lines1 base vendor network_type
  = parse_h3c_logs lim lines2 base vendor network_type.
Proof.
  intros Hh Hf. unfold parse_h3c_logs, h3c_device.
  rewrite <- (h3c_lines_filter lim lines1), <- (h3c_lines_filter lim lines2).
  now rewrite Hh, Hf.
Qed.

Lemma h3c_summary_reads_three_kinds_witness :
  parse_h3c_logs default_limits
                 (h3c_head ++ ["uptime is 3 weeks"; mem_line; "<SW>quit"])
                 "sw.log" "H3C" INTERNAL
  = parse_h3c_logs default_limits (h3c_head ++ [mem_line])
                   "sw.log" "H3C" INTERNAL.
Proof.
  apply (h3c_summary_reads_three_kinds default_limits
           (h3c_head ++ ["uptime is 3 weeks"; mem_line; "<SW>quit"])
           (h3c_head ++ [mem_line])); by_eval.
Defined.

Lemma reads_suffix (r : Re.regex) (p : option ascii) (s : string)
                   (p' : option ascii) (s' : string) :
  reads r p s p' s' -> exists w, s = (w ++ s')%string.
Proof.
  intros R. induction R as
      [p s|f p a s Hf|a b p s p1 s1 p2 s2 R1 IH1 R2 IH2
       |a b p s p' s' R IH|a b p s p' s' R IH|a p s
       |a p s p1 s1 p2 s2 R1 IH1 L R2 IH2|n a p s p' s' R IH|s|p s Hx].
  - now exists EmptyString.
  - now exists (String a EmptyString).
  - destruct IH1 as [w1 ->]. destruct IH2 as [w2 ->].
    exists (w1 ++ w2)%string. now rewrite str_app_assoc.
  - exact IH.
  - exact IH.
  - now exists EmptyString.
  - destruct IH1 as [w1 ->]. destruct IH2 as [w2 ->].
    exists (w1 ++ w2)%string. now rewrite str_app_assoc.
  - exact IH.
  - now exists EmptyString.
  - now exists EmptyString.
Qed.

Lemma mentions_app (a : ascii) (x y : string) :
  mentions a (x ++ y) = mentions a x || mentions a y.
Proof.
  induction x as [|b x IH]; [reflexivity|].
  cbn [append mentions]. now rewrite IH, orb_assoc.
Qed.

(** A pattern that is a sequence with the character [a] in it reads only
    texts that hold [a]. *)
Lemma reads_mentions (a : ascii) (l1 l2 : list Re.regex)
      (p : option ascii) (s : string) (p' : option ascii) (s' : string) :
  reads (Re.seq (l1 ++ Re.ch a :: l2)) p s p' s' -> mentions a s = true.
Proof.
  intros R. apply reads_seq_app in R as (p1 & s1 & R1 & R2).
  change (Re.seq (Re.ch a :: l2)) with (Re.Cat (Re.ch a) (Re.seq l2)) in R2.
  inversion R2 as [| |a0 b0 p0 s0 pa sa pb sb Ra Rb| | | | | | |]; subst.
  inversion Ra as [|f p0 x s0 Hf| | | | | | | |]; subst.
  destruct (reads_suffix _ _ _ _ _ R1) as [w ->].
  rewrite mentions_app. cbn [mentions]. unfold Chars.is_char in Hf.
  rewrite Hf. now rewrite orb_true_r.
Qed.

Lemma find_none_without (a : ascii) (l1 l2 : list Re.regex) (txt : string)
      (prev : option ascii) (skipped : string) :
  mentions a txt = false ->
  Re.find (Re.seq (l1 ++ Re.ch a :: l2)) prev skipped txt = None.
Proof.
  intros H.
  destruct (Re.find (Re.seq (l1 ++ Re.ch a :: l2)) prev skipped txt)
    as [mt|] eqn:E; [|reflexivity].
  apply find_sound in E as (pre & suf & p' & s' & -> & R).
  apply reads_mentions in R. rewrite mentions_app, R, orb_true_r in H.
  discriminate.
Qed.

(** What follows a match is an end of the text searched. *)
Lemma find_after (r : Re.regex) (s : string) :
  forall (prev : option ascii) (skipped : string) (mt : Re.rmatch),
    Re.find r prev skipped s = Some mt ->
    exists w, s = (w ++ Re.m_after mt)%string.
Proof.
  assert (At : forall prev t res,
             Re.match_at r prev t = Some res ->
             exists w, t = (w ++ snd (fst (fst res)))%string).
  { intros prev t res E. unfold Re.match_at in E.
    apply m_sound in E as (p' & s' & c' & R & K).
    injection K as <-. cbn [fst snd]. exact (reads_suffix _ _ _ _ _ R). }
  induction s as [|x s IH]; intros prev skipped mt H.
  - cbn [Re.find] in H.
    destruct (Re.match_at r prev EmptyString) as [res|] eqn:E;
      [|discriminate].
    apply At in E. destruct res as [[[txt rest] lst] cp].
    injection H as <-. exact E.
  - cbn [Re.find] in H.
    destruct (Re.match_at r prev (String x s)) as [res|] eqn:E.
    + apply At in E. destruct res as [[[txt rest] lst] cp].
      injection H as <-. exact E.
    + apply IH in H as [w ->]. now exists (String x w).
Qed.

(** X18. A Huawei text without a percent sign always gives its row.  The
    three patterns that feed [float] each need a percent sign, so none of
    them matches, no conversion is attempted, and the one row has empty
    CPU and memory-percentage cells. *)
Theorem huawei_without_percent (txt base vendor network_type : string) :
  mentions "%" txt = false ->
  exists row,
    parse_huawei_logs txt base vendor network_type = [row]
    /\ blank_figures row.
Proof.
  intros H.
  assert (Hm : Re.search SumPat.MEM_PCT_RE txt = None).
  { unfold Re.search.
    change SumPat.MEM_PCT_RE
      with (Re.seq ([Re.lit "Memory Using Percentage Is:"; Re.Star Re.ws;
                     SumPat.figure 1] ++ Re.ch "%" :: [])).
    now apply find_none_without. }
  assert (Hs : Re.search SumPat.CPU_SIMPLE_RE txt = None).
  { unfold Re.search.
    change SumPat.CPU_SIMPLE_RE
      with (Re.seq ([Re.lit "CPU Usage"; Re.Star Re.ws; Re.ch ":";
                     Re.Star Re.ws; SumPat.figure 1]
                    ++ Re.ch "%"
                    :: [Re.Star Re.ws; Re.lit "Max"; Re.Star Re.ws;
                        Re.ch ":"; Re.Star Re.ws; SumPat.figure 2;
                        Re.ch "%"])).
    now apply find_none_without. }
  assert (Hc : SumPat.search_cpu_ctrl txt = None).
  { unfold SumPat.search_cpu_ctrl.
    destruct (Re.search SumPat.CPU_CTRL_HEAD txt) as [hd|] eqn:E;
      [|reflexivity].
    unfold Re.search in E. apply find_after in E as [w E].
    rewrite E, mentions_app in H. apply orb_false_iff in H as [_ H].
    change SumPat.CPU_CTRL_TAIL
      with (Re.seq ([Re.lit "CPU Usage:"; Re.Star Re.ws; SumPat.figure 1]
                    ++ Re.ch "%"
                    :: [Re.Star Re.ws; Re.lit "Max:"; Re.Star Re.ws;
                        SumPat.figure 2; Re.ch "%"])).
    now apply find_none_without. }
  unfold parse_huawei_logs. rewrite Hm, Hs, Hc. cbn [first_some].
  eexists. split; [reflexivity|]. now repeat split.
Qed.

Lemma huawei_without_percent_witness :
  exists row,
    parse_huawei_logs plain_huawei_text "sw.log" "Huawei" INTERNAL = [row]
    /\ blank_figures row.
Proof.
  apply (huawei_without_percent plain_huawei_text). by_eval.
Defined.

(* ================================================================== *)
(** ** Properties of the driver *)

Lemma detect_type_answers (f : list string) (v : string) :
  detect_type f = Some v -> v = "Huawei" \/ v = "H3C".
Proof.
  rewrite detect_type_first. unfold first_vendor. intros H.
  apply vendor_of_batch_some in H as (pre & l & post & _ & _ & H).
  unfold vendor_of_line in H.
  destruct (Str.contains "huawei" l); [left; congruence|].
  destruct (Str.contains "h3c" l || Str.contains "new h3c technologies" l);
    [right; congruence | discriminate].
Qed.

Lemma classify_file_acc (lim : PyNum.Limits) (zone : string)
                        (acc : results) (f : LogFile) :
  classify_file lim zone acc f
  = (fst acc ++ file_rows lim zone f, snd acc ++ file_records lim zone f).
Proof.
  unfold file_rows, file_records, classify_file.
  destruct (detect_type (file_lines (decoded f))) as [t|].
  - destruct (String.eqb t "H3C"); [reflexivity|].
    destruct (String.eqb t "Huawei"); [reflexivity|].
    cbn [fst snd]. rewrite !app_nil_r. now destruct acc.
  - cbn [fst snd]. rewrite !app_nil_r. now destruct acc.
Qed.

Lemma classify_fold (lim : PyNum.Limits) (zone : string)
                    (files : list LogFile) :
  forall acc : results,
    fold_left (classify_file lim zone) files acc
    = (fst acc ++ flat_map (file_rows lim zone) files,
       snd acc ++ flat_map (file_records lim zone) files).
Proof.
  induction files as [|f rest IH]; intros acc.
  - cbn [fold_left flat_map]. rewrite !app_nil_r. now destruct acc.
  - cbn [fold_left flat_map]. rewrite IH, classify_file_acc. cbn [fst snd].
    now rewrite !app_assoc.
Qed.

Lemma classify_logs_eq (lim : PyNum.Limits) (internal external : list LogFile) :
  classify_logs lim internal external
  = (flat_map (file_rows lim INTERNAL) internal
     ++ flat_map (file_rows lim EXTERNAL) external,
     flat_map (file_records lim INTERNAL) internal
     ++ flat_map (file_records lim EXTERNAL) external).
Proof. unfold classify_logs. now rewrite !classify_fold. Qed.

Lemma in_two_zones {A B : Type} (g : string -> A -> list B)
      (internal external : list A) (x : B) :
  In x (flat_map (g INTERNAL) internal ++ flat_map (g EXTERNAL) external) ->
  exists f zone,
    ((In f internal /\ zone = INTERNAL) \/ (In f external /\ zone = EXTERNAL))
    /\ In x (g zone f).
Proof.
  intros H. apply in_app_or in H as [H|H];
    apply in_flat_map in H as (f & Hf & Hx).
  - exists f, INTERNAL. split; [left; now split | exact Hx].
  - exists f, EXTERNAL. split; [right; now split | exact Hx].
Qed.

Lemma file_records_from (lim : PyNum.Limits) (zone : string) (f : LogFile)
                        (r : PortRecord) :
  In r (file_records lim zone f) ->
  detected f = Some (Vendor r)
  /\ NetworkType r = zone
  /\ LogFileName r = base_name f
  /\ In r (extract_power_info (splitlines (decoded f)) (base_name f)
                              (Vendor r) zone).
Proof.
  unfold file_records, classify_file, detected.
  destruct (detect_type (file_lines (decoded f))) as [t|];
    [|intros []].
  destruct (String.eqb t "H3C") eqn:E1.
  - apply String.eqb_eq in E1. subst t. cbn [snd app]. intros H.
    destruct (extract_from _ _ _ _ _ H) as ((Hv & Hn & _ & Hl) & _).
    cbn [vendor network_type logname] in *. rewrite Hv. now repeat split.
  - destruct (String.eqb t "Huawei") eqn:E2; [|intros []].
    apply String.eqb_eq in E2. subst t. cbn [snd app]. intros H.
    destruct (extract_from _ _ _ _ _ H) as ((Hv & Hn & _ & Hl) & _).
    cbn [vendor network_type logname] in *. rewrite Hv. now repeat split.
Qed.

Lemma huawei_row_fields (txt base vendor zone : string) (row : SummaryRow) :
  In row (parse_huawei_logs txt base vendor zone) ->
  sVendor row = vendor /\ sNetworkType row = zone /\ sLogFileName row = base.
Proof.
  unfold parse_huawei_logs.
  destruct (match Re.search SumPat.MEM_PCT_RE txt with
            | Some mt => option_map percent (PyFloat.float (Re.group 1 mt))
            | None => Some EmptyString
            end) as [pct|]; [|intros []].
  match goal with
  | |- In row (match ?c with Some _ => _ | None => _ end) -> _ =>
      destruct c as [[usage top]|]; [|intros []]
  end.
  intros [<-|[]]. now repeat split.
Qed.

Lemma h3c_row_fields (lim : PyNum.Limits) (lines : list string)
      (base vendor zone : string) (row : SummaryRow) :
  In row (parse_h3c_logs lim lines base vendor zone) ->
  sVendor row = vendor /\ sNetworkType row = zone /\ sLogFileName row = base.
Proof.
  unfold parse_h3c_logs.
  destruct (h3c_device lines base) as [dev|]; cbn [bind]; [|intros []].
  destruct (h3c_lines lim lines h3c_start) as [st|]; cbn [bind];
    [|intros []].
  unfold h3c_row.
  destruct (used_pct_cell st) as [pct|]; cbn [bind]; [|intros []].
  destruct (int_cell (cpu_min (cpu_stats st))) as [usage|]; cbn [bind];
    [|intros []].
  destruct (int_cell (cpu_max (cpu_stats st))) as [top|]; cbn [bind];
    [|intros []].
  intros [<-|[]]. now repeat split.
Qed.

Lemma file_rows_from (lim : PyNum.Limits) (zone : string) (f : LogFile)
                     (row : SummaryRow) :
  In row (file_rows lim zone f) ->
  detected f = Some (sVendor row)
  /\ sNetworkType row = zone
  /\ sLogFileName row = base_name f.
Proof.
  unfold file_rows, classify_file, detected.
  destruct (detect_type (file_lines (decoded f))) as [t|];
    [|intros []].
  destruct (String.eqb t "H3C") eqn:E1.
  - apply String.eqb_eq in E1. subst t. cbn [fst app]. intros H.
    apply h3c_row_fields in H as (Hv & Hn & Hl). rewrite Hv.
    now repeat split.
  - destruct (String.eqb t "Huawei") eqn:E2; [|intros []].
    apply String.eqb_eq in E2. subst t. cbn [fst app]. intros H.
    apply huawei_row_fields in H as (Hv & Hn & Hl). rewrite Hv.
    now repeat split.
Qed.

Lemma file_rows_short (lim : PyNum.Limits) (zone : string) (f : LogFile) :
  List.length (file_rows lim zone f) <= 1.
Proof.
  unfold file_rows, classify_file.
  destruct (detect_type (file_lines (decoded f))) as [t|]; [|cbn; lia].
  destruct (String.eqb t "H3C").
  - cbn [fst app]. unfold parse_h3c_logs.
    match goal with
    | |- List.length (match ?c with Some _ => _ | None => _ end) <= 1 =>
        destruct c; cbn; lia
    end.
  - destruct (String.eqb t "Huawei"); [|cbn; lia].
    cbn [fst app]. unfold parse_huawei_logs.
    match goal with
    | |- List.length (match ?c with Some _ => _ | None => _ end) <= 1 =>
        destruct c as [pct|]; [|cbn; lia]
    end.
    match goal with
    | |- List.length (match ?c with Some _ => _ | None => _ end) <= 1 =>
        destruct c as [[usage top]|]; cbn; lia
    end.
Qed.

Lemma flat_map_short {A B : Type} (g : A -> list B) (l : list A) :
  (forall x, List.length (g x) <= 1) ->
  List.length (flat_map g l) <= List.length l.
Proof.
  intros Hg. induction l as [|x l IH]; [cbn; lia|].
  cbn [flat_map]. rewrite length_app. specialize (Hg x). cbn [List.length].
  lia.
Qed.

(** X20. Every power record the driver collects follows the detection of
    its file.  It comes from a file listed in one of the two directories;
    its vendor is what [detect_type] answered for that file, hence one of
    the two vendors the scanner knows; its zone is the directory's label,
    its file name the file's base name; and it is one of the records
    [extract_power_info] gives for that file under that vendor and zone. *)
Theorem power_records_follow_detection
        (lim : PyNum.Limits) (internal external : list LogFile)
        (r : PortRecord) :
  In r (snd (classify_logs lim internal external)) ->
  exists f zone,
    listed internal external f zone
    /\ detected f = Some (Vendor r)
    /\ (Vendor r = "Huawei" \/ Vendor r = "H3C")
    /\ NetworkType r = zone
    /\ LogFileName r = base_name f
    /\ In r (extract_power_info (splitlines (decoded f)) (base_name f)
                                (Vendor r) zone).
Proof.
  rewrite classify_logs_eq. cbn [snd]. intros H.
  apply (in_two_zones (file_records lim)) in H as (f & zone & Hl & Hr).
  exists f, zone. split; [exact Hl|].
  apply file_records_from in Hr as (Hd & Hn & Hb & Hin).
  repeat split; try assumption.
  exact (detect_type_answers _ _ Hd).
Qed.

Lemma power_records_follow_detection_witness :
  exists f zone,
    listed [stray_file] [huawei_file] f zone
    /\ detected f = Some (Vendor huawei_file_record)
    /\ (Vendor huawei_file_record = "Huawei"
        \/ Vendor huawei_file_record = "H3C")
    /\ NetworkType huawei_file_record = zone
    /\ LogFileName huawei_file_record = base_name f
    /\ In huawei_file_record
          (extract_power_info (splitlines (decoded f)) (base_name f)
                              (Vendor huawei_file_record) zone).
Proof.
  apply (power_records_follow_detection default_limits
           [stray_file] [huawei_file] huawei_file_record).
  vm_compute. left. reflexivity.
Defined.

(** X21. At most one summary row per file, and each follows the detection
    of its file: the row's vendor is what [detect_type] answered, its zone
    the directory's label and its file name the file's base name. *)
Theorem summary_rows_follow_detection
        (lim : PyNum.Limits) (internal external : list LogFile) :
  List.length (fst (classify_logs lim internal external))
  <= List.length internal + List.length external
  /\ forall row,
       In row (fst (classify_logs lim internal external)) ->
       exists f zone,
         listed internal external f zone
         /\ detected f = Some (sVendor row)
         /\ sNetworkType row = zone
         /\ sLogFileName row = base_name f.
Proof.
  rewrite classify_logs_eq. cbn [fst]. split.
  - rewrite length_app.
    pose proof (flat_map_short (file_rows lim INTERNAL) internal
                  (file_rows_short lim INTERNAL)).
    pose proof (flat_map_short (file_rows lim EXTERNAL) external
                  (file_rows_short lim EXTERNAL)).
    lia.
  - intros row H.
    apply (in_two_zones (file_rows lim)) in H as (f & zone & Hl & Hr).
    exists f, zone. split; [exact Hl|].
    exact (file_rows_from lim zone f row Hr).
Qed.

Lemma files_skipped (lim : PyNum.Limits) (zone : string)
                    (files : list LogFile) :
  flat_map (file_rows lim zone) (filter recognised files)
  = flat_map (file_rows lim zone) files
  /\ flat_map (file_records lim zone) (filter recognised files)
     = flat_map (file_records lim zone) files.
Proof.
  induction files as [|f rest [IH1 IH2]]; [now split|].
  cbn [filter]. destruct (recognised f) eqn:E.
  - cbn [flat_map]. now rewrite IH1, IH2.
  - cbn [flat_map]. rewrite IH1, IH2.
    unfold recognised, detected in E.
    unfold file_rows, file_records, classify_file.
    destruct (detect_type (file_lines (decoded f))); [discriminate|].
    now split.
Qed.

(** X22. Files of no known vendor add nothing.  Taking out of both
    directories the files in whose text [detect_type] finds neither
    keyword leaves the summary rows and the power records as they are, a
    power command in such a file notwithstanding. *)
Theorem unrecognised_files_add_nothing
        (lim : PyNum.Limits) (internal external : list LogFile) :
  classify_logs lim (filter recognised internal) (filter recognised external)
  = classify_logs lim internal external.
Proof.
  rewrite !classify_logs_eq.
  destruct (files_skipped lim INTERNAL internal) as [-> ->].
  destruct (files_skipped lim EXTERNAL external) as [-> ->].
  reflexivity.
Qed.

Lemma summary_rows_follow_detection_witness :
  exists f zone,
    listed [stray_file] [huawei_file] f zone
    /\ detected f = Some (sVendor huawei_file_row)
    /\ sNetworkType huawei_file_row = zone
    /\ sLogFileName huawei_file_row = base_name f.
Proof.
  apply (proj2 (summary_rows_follow_detection default_limits
                  [stray_file] [huawei_file]) huawei_file_row).
  vm_compute. left. reflexivity.
Defined.

(* ================================================================== *)
(** ** White space around a line *)

Lemma lstrip_no_lead (s : string) : no_lead (Str.lstrip s).
Proof.
  induction s as [|a s IH]; [exact I|].
  cbn [Str.lstrip]. destruct (Chars.is_space a) eqn:E; [exact IH | exact E].
Qed.

Lemma lstrip_fixed (s : string) : no_lead s -> Str.lstrip s = s.
Proof.
  destruct s as [|a s]; [reflexivity|]. cbn [no_lead Str.lstrip].
  now intros ->.
Qed.

Lemma rev_cons (x : ascii) (s : string) :
  Str.rev (String x s) = (Str.rev s ++ String x EmptyString)%string.
Proof. unfold Str.rev at 1. cbn [Str.rev_onto]. apply rev_onto_app. Qed.

(** An end of the reversed text starts, once reversed back, as the text
    starts. *)
Lemma no_lead_rev_suffix (v u w : string) :
  no_lead v -> Str.rev v = (w ++ u)%string -> no_lead (Str.rev u).
Proof.
  intros Hv E. destruct (Str.rev u) as [|x t] eqn:Eu; [exact I|].
  cbn [no_lead].
  assert (Hu : u = (Str.rev t ++ String x EmptyString)%string).
  { rewrite <- (rev_rev u), Eu. apply rev_cons. }
  assert (Ev : v = String x (t ++ Str.rev w)%string).
  { rewrite <- (rev_rev v), E, Hu, rev_app, rev_app, rev_rev.
    reflexivity. }
  rewrite Ev in Hv. exact Hv.
Qed.

Lemma strip_strip (s : string) : Str.strip (Str.strip s) = Str.strip s.
Proof.
  unfold Str.strip.
  destruct (lstrip_suffix (Str.rev (Str.lstrip s))) as [w E].
  pose proof (no_lead_rev_suffix _ _ _ (lstrip_no_lead s) E) as H.
  rewrite (lstrip_fixed _ H), rev_rev.
  now rewrite (lstrip_fixed _ (lstrip_no_lead _)).
Qed.

Lemma step_strip (e : Env) (st : state) (raw : string) :
  step e st (Str.strip raw) = step e st raw.
Proof. unfold step. now rewrite strip_strip. Qed.

Lemma run_strip (e : Env) (segment : list string) :
  forall st : state, run e st (map Str.strip segment) = run e st segment.
Proof.
  induction segment as [|raw rest IH]; intros st; [reflexivity|].
  cbn [map]. rewrite !run_cons, step_strip. apply IH.
Qed.

(** X23. White space around a line never matters to the scan.  Every rule
    of the segment loop looks at the stripped line, and stripping twice is
    stripping once; so a segment and the same segment with every line
    stripped beforehand give the same records, from any starting state. *)
Theorem scan_ignores_margins (e : Env) (segment : list string) (st : state) :
  (forall raw, step e st (Str.strip raw) = step e st raw)
  /\ scan_segment e st (map Str.strip segment) = scan_segment e st segment
  /\ segment_records e (map Str.strip segment) = segment_records e segment.
Proof.
  split; [intros raw; apply step_strip|].
  assert (H : forall s, scan_segment e s (map Str.strip segment)
                        = scan_segment e s segment).
  { intros [c out]. unfold scan_segment. now rewrite run_strip. }
  split; [apply H|]. unfold segment_records. now rewrite H.
Qed.

(* ================================================================== *)
(** ** What the groups of a match hold *)

Lemma captures_reads (r : Re.regex) (p : option ascii) (s : string)
      (c : Re.caps) (p' : option ascii) (s' : string) (c' : Re.caps) :
  captures r p s c p' s' c' -> reads r p s p' s'.
Proof.
  intros R. induction R; try (now constructor);
    econstructor; eassumption.
Qed.

Section MatcherCaptures.

Context {A : Type}.

Lemma m_captures (r : Re.regex) :
  forall (prev : option ascii) (s : string) (c : Re.caps)
         (k : @Re.cont A) (x : A),
    Re.m r prev s c k = Some x ->
    exists p' s' c', captures r prev s c p' s' c' /\ k p' s' c' = Some x.
Proof.
  induction r as [|f|a IHa b IHb|a IHa b IHb|a IHa|n a IHa| |];
    intros prev s c k x H.
  - exists prev, s, c. split; [constructor | exact H].
  - cbn [Re.m] in H. destruct s as [|ch s]; [discriminate|].
    destruct (f ch) eqn:E; [|discriminate].
    exists (Some ch), s, c. split; [now constructor | exact H].
  - cbn [Re.m] in H.
    apply IHa in H as (p1 & s1 & c1 & R1 & H).
    apply IHb in H as (p2 & s2 & c2 & R2 & H).
    exists p2, s2, c2. split; [econstructor; eassumption | exact H].
  - cbn [Re.m] in H. unfold Re.orelse in H.
    destruct (Re.m a prev s c k) as [v|] eqn:E.
    + injection H as <-. apply IHa in E as (p' & s' & c' & R & E).
      exists p', s', c'. split; [now apply cap_alt_l | exact E].
    + apply IHb in H as (p' & s' & c' & R & H).
      exists p', s', c'. split; [now apply cap_alt_r | exact H].
  - cbn [Re.m] in H. revert H.
    generalize (String.length s) at 1. intros fuel. revert prev s c.
    induction fuel as [|fuel IHf]; intros prev s c H.
    + exists prev, s, c. split; [constructor | exact H].
    + unfold Re.orelse in H at 1.
      match type of H with
      | match ?t with _ => _ end = _ => destruct t as [v|] eqn:E
      end.
      * injection H as <-.
        apply IHa in E as (p1 & s1 & c1 & R1 & E).
        destruct (String.length s1 <? String.length s) eqn:L;
          [|discriminate].
        apply IHf in E as (p2 & s2 & c2 & R2 & E).
        exists p2, s2, c2. split; [|exact E].
        apply Nat.ltb_lt in L. econstructor; eassumption.
      * exists prev, s, c. split; [constructor | exact H].
  - cbn [Re.m] in H. apply IHa in H as (p' & s' & c' & R & H).
    eexists p', s', _. split; [constructor; exact R | exact H].
  - cbn [Re.m] in H. destruct prev; [discriminate|].
    exists None, s, c. split; [constructor | exact H].
  - cbn [Re.m] in H.
    destruct (xorb (Re.word_opt prev) (Re.word_opt (Re.head s))) eqn:E;
      [|discriminate].
    exists prev, s, c. split; [now constructor | exact H].
Qed.

End MatcherCaptures.

(** The groups of a match found are the captures of one reading of the
    pattern, started without captures at the place of the match. *)
Lemma find_captures (r : Re.regex) (s : string) :
  forall (prev : option ascii) (skipped : string) (mt : Re.rmatch),
    Re.find r prev skipped s = Some mt ->
    exists pre suf p' s',
      s = (pre ++ suf)%string
      /\ captures r (last_of prev pre) suf [] p' s' (Re.m_caps mt).
Proof.
  assert (At : forall prev t res,
             Re.match_at r prev t = Some res ->
             exists p' s', captures r prev t [] p' s' (snd res)).
  { intros prev t res E. unfold Re.match_at in E.
    apply m_captures in E as (p' & s' & c' & R & K).
    injection K as <-. cbn [snd]. now exists p', s'. }
  induction s as [|x s IH]; intros prev skipped mt H.
  - cbn [Re.find] in H.
    destruct (Re.match_at r prev EmptyString) as [res|] eqn:E;
      [|discriminate].
    apply At in E as (p' & s' & R). destruct res as [[[txt rest] lst] cp].
    injection H as <-. now exists EmptyString, EmptyString, p', s'.
  - cbn [Re.find] in H.
    destruct (Re.match_at r prev (String x s)) as [res|] eqn:E.
    + apply At in E as (p' & s' & R). destruct res as [[[txt rest] lst] cp].
      injection H as <-. now exists EmptyString, (String x s), p', s'.
    + apply IH in H as (pre & suf & p' & s' & -> & R).
      now exists (String x pre), suf, p', s'.
Qed.

Lemma captures_group_free (r : Re.regex) (p : option ascii) (s : string)
      (c : Re.caps) (p' : option ascii) (s' : string) (c' : Re.caps) :
  captures r p s c p' s' c' -> group_free r = true -> c' = c.
Proof.
  intros R. induction R; cbn [group_free]; intros G;
    try reflexivity; try discriminate.
  - apply andb_true_iff in G as [Ga Gb].
    rewrite (IHR2 Gb). exact (IHR1 Ga).
  - apply andb_true_iff in G as [Ga _]. exact (IHR Ga).
  - apply andb_true_iff in G as [_ Gb]. exact (IHR Gb).
  - rewrite (IHR2 G). exact (IHR1 G).
Qed.

Lemma captures_seq_app (l1 l2 : list Re.regex) :
  forall (p : option ascii) (s : string) (c : Re.caps)
         (p' : option ascii) (s' : string) (c' : Re.caps),
    captures (Re.seq (l1 ++ l2)) p s c p' s' c' ->
    exists p1 s1 c1, captures (Re.seq l1) p s c p1 s1 c1
                     /\ captures (Re.seq l2) p1 s1 c1 p' s' c'.
Proof.
  induction l1 as [|r l1 IH]; intros p s c p' s' c' R.
  - exists p, s, c. split; [constructor | exact R].
  - change (Re.seq ((r :: l1) ++ l2))
      with (Re.Cat r (Re.seq (l1 ++ l2))) in R.
    inversion R as [| |a0 b0 p0 s0 c0 pa sa ca pb sb cb Ra Rb| | | | | | |];
      subst.
    apply IH in Rb as (p1 & s1 & c1 & R1 & R2).
    exists p1, s1, c1. split; [|exact R2].
    change (Re.seq (r :: l1)) with (Re.Cat r (Re.seq l1)).
    econstructor; eassumption.
Qed.

Lemma take_consumed (w s' : string) :
  Str.take (String.length (w ++ s') - String.length s') (w ++ s') = w.
Proof.
  rewrite str_length_app.
  replace (String.length w + String.length s' - String.length s')
    with (String.length w) by lia.
  induction w as [|a w IH]; cbn [String.length append Str.take].
  - now destruct s'.
  - now rewrite IH.
Qed.

(** A group that ends the pattern: its text is the last capture, and its
    body reads that text. *)
Lemma captures_last_group (l : list Re.regex) (g : nat) (a : Re.regex)
      (p : option ascii) (s : string) (c : Re.caps)
      (p' : option ascii) (s' : string) (c' : Re.caps) :
  captures (Re.seq (l ++ [Re.Grp g a])) p s c p' s' c' ->
  exists w q,
    Re.cap_get g c' = Some w
    /\ reads a q (w ++ s') p' s'
    /\ exists u, s = (u ++ w ++ s')%string.
Proof.
  intros R. apply captures_seq_app in R as (p1 & s1 & c1 & R1 & R2).
  change (Re.seq [Re.Grp g a]) with (Re.Cat (Re.Grp g a) Re.Eps) in R2.
  inversion R2 as [| |a0 b0 p0 s0 c0 pa sa ca pb sb cb Ra Rb| | | | | | |];
    subst.
  inversion Rb; subst.
  inversion Ra as [| | | | | | |n0 a0 p0 s0 c0 p0' s0' c0' Rg| |]; subst.
  apply captures_reads in Rg.
  destruct (reads_suffix _ _ _ _ _ Rg) as [w ->].
  destruct (reads_suffix _ _ _ _ _ (captures_reads _ _ _ _ _ _ _ R1))
    as [u ->].
  exists w, p1. rewrite take_consumed. cbn [Re.cap_get].
  rewrite Nat.eqb_refl. split; [reflexivity|]. split; [exact Rg|].
  now exists u.
Qed.

(** *** Runs of one class *)

Lemma all_chars_app (f : ascii -> bool) (x y : string) :
  all_chars f (x ++ y) = all_chars f x && all_chars f y.
Proof.
  induction x as [|a x IH]; [reflexivity|].
  cbn [append all_chars]. now rewrite IH, andb_assoc.
Qed.

Lemma reads_star_class (f : ascii -> bool) :
  forall (p : option ascii) (s : string) (p' : option ascii) (s' : string),
    reads (Re.Star (Re.Chr f)) p s p' s' ->
    exists w, s = (w ++ s')%string /\ all_chars f w = true.
Proof.
  intros p s p' s' R.
  remember (Re.Star (Re.Chr f)) as r eqn:Er.
  induction R as
      [p s|g p a s Hf|a b p s p1 s1 p2 s2 R1 IH1 R2 IH2
       |a b p s p' s' R IH|a b p s p' s' R IH|a p s
       |a p s p1 s1 p2 s2 R1 IH1 L R2 IH2|n a p s p' s' R IH|s|p s Hx];
    try discriminate.
  - now exists EmptyString.
  - injection Er as ->.
    inversion R1 as [|g p0 x s0 Hf| | | | | | | |]; subst.
    destruct (IH2 eq_refl) as (w & -> & Hw).
    exists (String x w). split; [reflexivity|].
    cbn [all_chars]. now rewrite Hf, Hw.
Qed.

Lemma reads_plus_class (f : ascii -> bool)
      (p : option ascii) (s : string) (p' : option ascii) (s' : string) :
  reads (Re.plus (Re.Chr f)) p s p' s' ->
  exists w, s = (w ++ s')%string /\ w <> EmptyString /\ all_chars f w = true.
Proof.
  unfold Re.plus. intros R.
  inversion R as [| |a0 b0 p0 s0 p1 s1 p2 s2 R1 R2| | | | | | |]; subst.
  inversion R1 as [|g p0 x s0 Hf| | | | | | | |]; subst.
  apply reads_star_class in R2 as (w & -> & Hw).
  exists (String x w). split; [reflexivity|]. split; [discriminate|].
  cbn [all_chars]. now rewrite Hf, Hw.
Qed.

Lemma reads_digit_run (p : option ascii) (s : string)
                      (p' : option ascii) (s' : string) :
  reads (Re.plus Re.dg) p s p' s' ->
  exists w, s = (w ++ s')%string /\ digit_run w.
Proof.
  intros R. apply reads_plus_class in R as (w & E & Hn & Hw).
  exists w. now repeat split.
Qed.

Lemma str_app_inv_tail (a b s : string) :
  (a ++ s)%string = (b ++ s)%string -> a = b.
Proof.
  intros E.
  assert (L : String.length a = String.length b).
  { apply (f_equal String.length) in E. rewrite !str_length_app in E. lia. }
  revert b E L. induction a as [|x a IH]; intros [|y b] E L;
    try discriminate; [reflexivity|].
  cbn [append] in E. injection E as -> E. f_equal. apply (IH b E).
  cbn in L. lia.
Qed.

(** What [-?\d+(?:\.\d+)?] reads is a numeral. *)
Lemma reads_numeral_text (q : option ascii) (s : string)
                         (p' : option ascii) (s' : string) :
  reads Re.number q s p' s' ->
  exists w, s = (w ++ s')%string /\ numeral w.
Proof.
  unfold Re.number. intros R.
  change (Re.seq [Re.opt (Re.ch "-"); Re.plus Re.dg;
                  Re.opt (Re.Cat (Re.ch ".") (Re.plus Re.dg))])
    with (Re.Cat (Re.opt (Re.ch "-"))
            (Re.Cat (Re.plus Re.dg)
               (Re.Cat (Re.opt (Re.Cat (Re.ch ".") (Re.plus Re.dg)))
                       Re.Eps))) in R.
  inversion R as [| |a0 b0 p0 s0 p1 s1 p2 s2 Rs R1| | | | | | |]; subst.
  inversion R1 as [| |a0 b0 p0 s0 p2 s2 p3 s3 Rd R2| | | | | | |]; subst.
  inversion R2 as [| |a0 b0 p0 s0 p3 s3 p4 s4 Rf R3| | | | | | |]; subst.
  inversion R3; subst.
  apply reads_digit_run in Rd as (ds & -> & Hds).
  assert (Hfrac : exists frac,
             s2 = (frac ++ s')%string
             /\ (frac = EmptyString
                 \/ exists fs, frac = String "." fs /\ digit_run fs)).
  { unfold Re.opt in Rf.
    inversion Rf as [| | |a0 b0 p0 s0 p0' s0' Ra|a0 b0 p0 s0 p0' s0' Ra
                     | | | | |]; subst.
    - inversion Ra as [| |a0 b0 p0 s0 p5 s5 p6 s6 Rdot Rfs| | | | | | |];
        subst.
      inversion Rdot as [|g p0 x s0 Hf| | | | | | | |]; subst.
      apply Ascii.eqb_eq in Hf. subst x.
      apply reads_digit_run in Rfs as (fs & -> & Hfs).
      exists (String "." fs). split; [reflexivity|]. right. now exists fs.
    - inversion Ra; subst. exists EmptyString. split; [reflexivity|].
      now left. }
  destruct Hfrac as (frac & -> & Hfrac).
  unfold Re.opt in Rs.
  inversion Rs as [| | |a0 b0 p0 s0 p0' s0' Ra|a0 b0 p0 s0 p0' s0' Ra
                   | | | | |]; subst.
  - inversion Ra as [|g p0 x s0 Hf| | | | | | | |]; subst.
    apply Ascii.eqb_eq in Hf. subst x.
    exists (String "-" (ds ++ frac))%string. split.
    + cbn [append]. now rewrite !str_app_assoc.
    + exists true, ds, frac. split; [reflexivity|]. now split.
  - inversion Ra; subst.
    exists (ds ++ frac)%string. split.
    + now rewrite !str_app_assoc.
    + exists false, ds, frac. split; [reflexivity|]. now split.
Qed.

Lemma reads_numeral (q : option ascii) (w s' : string) (p' : option ascii) :
  reads Re.number q (w ++ s') p' s' -> numeral w.
Proof.
  intros R. apply reads_numeral_text in R as (w' & E & N).
  apply str_app_inv_tail in E. now subst.
Qed.

(** *** Numerals are numbers for [float] and [int] *)

Lemma digit_facts (a : ascii) :
  Chars.is_digit a = true ->
  Chars.is_space a = false
  /\ Chars.is_char "-" a = false
  /\ Chars.is_char "+" a = false
  /\ Chars.is_char "_" a = false
  /\ Ascii.eqb (Chars.lower a) "i" = false
  /\ Ascii.eqb (Chars.lower a) "n" = false.
Proof.
  intros H.
  destruct a as [[|] [|] [|] [|] [|] [|] [|] [|]];
    vm_compute in H; try discriminate H; vm_compute; repeat split.
Qed.

Lemma all_chars_rev_onto (f : ascii -> bool) (s acc : string) :
  all_chars f (Str.rev_onto s acc) = all_chars f s && all_chars f acc.
Proof.
  revert acc. induction s as [|a s IH]; intros acc; [reflexivity|].
  cbn [Str.rev_onto all_chars]. rewrite IH. cbn [all_chars].
  now rewrite andb_assoc, (andb_comm (all_chars f s)).
Qed.

Lemma digit_run_rev (d : string) : digit_run d -> digit_run (Str.rev d).
Proof.
  intros [Hn Hd]. split.
  - intros E. apply Hn. rewrite <- (rev_rev d), E. reflexivity.
  - unfold Str.rev. rewrite all_chars_rev_onto, Hd. reflexivity.
Qed.

Lemma digit_run_no_lead (d t : string) : digit_run d -> no_lead (d ++ t).
Proof.
  intros [Hn Hd]. destruct d as [|a d]; [contradiction|].
  cbn [append no_lead]. cbn [all_chars] in Hd.
  apply andb_true_iff in Hd as [Ha _]. now apply digit_facts.
Qed.

Lemma strip_fixed (s : string) :
  no_lead s -> no_lead (Str.rev s) -> Str.strip s = s.
Proof.
  intros H1 H2. unfold Str.strip.
  now rewrite (lstrip_fixed _ H1), (lstrip_fixed _ H2), rev_rev.
Qed.

(** A run of digits is read whole by [digitpart], up to the end or to a
    dot. *)
Lemma digitpart_run (ds : string) :
  forall (seen : bool) (acc : N) (cnt : nat) (rest : string),
    all_chars Chars.is_digit ds = true ->
    rest = EmptyString \/ (exists fs, rest = String "." fs) ->
    exists v, PyFloat.digitpart seen acc cnt (ds ++ rest)
              = (v, cnt + String.length ds, rest).
Proof.
  induction ds as [|d ds IH]; intros seen acc cnt rest Hd Hr.
  - cbn [append String.length]. rewrite Nat.add_0_r. exists acc.
    destruct Hr as [->|[fs ->]]; [reflexivity|].
    cbn [PyFloat.digitpart].
    change (Chars.is_digit ".") with false.
    change (Chars.is_char "_" ".") with false.
    now rewrite andb_false_r.
  - cbn [all_chars] in Hd. apply andb_true_iff in Hd as [Ha Hd].
    cbn [append PyFloat.digitpart String.length]. rewrite Ha.
    destruct (IH true (acc * 10 + PyFloat.digit_val d)%N (S cnt) rest Hd Hr)
      as [v E].
    exists v. rewrite E. f_equal. f_equal. lia.
Qed.

Lemma number_of_numeral (neg : bool) (ds frac : string) :
  digit_run ds ->
  frac = EmptyString \/ (exists fs, frac = String "." fs /\ digit_run fs) ->
  exists v, PyFloat.number neg (ds ++ frac) = Some v.
Proof.
  intros [Hn Hd] Hf. unfold PyFloat.number.
  assert (Hr : frac = EmptyString \/ exists fs, frac = String "." fs).
  { destruct Hf as [->|(fs & -> & _)]; [now left | right; now exists fs]. }
  destruct (digitpart_run ds false 0%N 0 frac Hd Hr) as [ip ->].
  assert (Hlen : exists n, 0 + String.length ds = S n).
  { destruct ds as [|d ds]; [contradiction|]. now exists (String.length ds). }
  destruct Hlen as [n ->].
  destruct Hf as [->|(fs & -> & Hfn & Hfd)].
  - cbn. eexists. reflexivity.
  - change (Chars.is_char "." ".") with true. cbv beta iota.
    destruct (digitpart_run fs false ip 0 EmptyString Hfd (or_introl eq_refl))
      as [m E].
    rewrite str_app_nil_r in E. rewrite E. cbn. eexists. reflexivity.
Qed.

Lemma numeral_margins (w : string) :
  numeral w -> no_lead w /\ no_lead (Str.rev w).
Proof.
  intros (neg & ds & frac & -> & Hds & Hf). split.
  - destruct neg; [exact eq_refl|]. cbn [append].
    now apply digit_run_no_lead.
  - rewrite rev_app. destruct Hf as [->|(fs & -> & Hfs)].
    + rewrite str_app_nil_r, <- str_app_nil_r.
      rewrite str_app_assoc. apply digit_run_no_lead.
      now apply digit_run_rev.
    + rewrite rev_app, rev_cons, !str_app_assoc.
      apply digit_run_no_lead. now apply digit_run_rev.
Qed.

(** [float] takes every numeral. *)
Lemma float_of_numeral (w : string) :
  numeral w -> exists v, PyFloat.float w = Some v.
Proof.
  intros N. destruct (numeral_margins w N) as [H1 H2].
  unfold PyFloat.float. rewrite (strip_fixed w H1 H2).
  destruct N as (neg & ds & frac & -> & Hds & Hf).
  assert (Hbody : forall b, exists v,
             (if String.eqb (Str.lower (ds ++ frac)) "inf"
                 || String.eqb (Str.lower (ds ++ frac)) "infinity"
              then Some (S754_infinity b)
              else if String.eqb (Str.lower (ds ++ frac)) "nan"
                   then Some S754_nan
                   else PyFloat.number b (ds ++ frac)) = Some v).
  { intros b. destruct Hds as [Hn Hd]. destruct ds as [|d ds];
      [contradiction|].
    pose proof Hd as Hd'. cbn [all_chars] in Hd'.
    apply andb_true_iff in Hd' as [Ha _].
    destruct (digit_facts d Ha) as (_ & _ & _ & _ & Hi & Hnn).
    cbn [append Str.lower String.eqb]. rewrite Hi, Hnn. cbn [orb].
    apply (number_of_numeral b (String d ds) frac); [now split | exact Hf]. }
  destruct neg.
  - cbn [append PyFloat.sign_of].
    change (Chars.is_char "-" "-") with true. cbv beta iota.
    apply Hbody.
  - cbn [append].
    assert (Hs : PyFloat.sign_of (ds ++ frac) = (false, (ds ++ frac)%string)).
    { destruct Hds as [Hn Hd]. destruct ds as [|d ds]; [contradiction|].
      cbn [all_chars] in Hd. apply andb_true_iff in Hd as [Ha _].
      destruct (digit_facts d Ha) as (_ & Hm & Hp & _).
      cbn [append PyFloat.sign_of]. now rewrite Hm, Hp. }
    rewrite Hs. apply Hbody.
Qed.

(** [int] takes every run of digits that is within the limit, and answers
    with a number that is not negative. *)
Lemma int_of_digit_run (lim : PyNum.Limits) (w : string) :
  digit_run w ->
  PyNum.int_max_str_digits lim = 0
  \/ String.length w <= PyNum.int_max_str_digits lim ->
  exists z, PyNum.int lim w = Some z /\ (0 <= z)%Z.
Proof.
  intros Hw Hl.
  assert (N : numeral w).
  { exists false, w, EmptyString. cbn [append]. rewrite str_app_nil_r.
    split; [reflexivity|]. split; [exact Hw | now left]. }
  destruct (numeral_margins w N) as [H1 H2].
  unfold PyNum.int. rewrite (strip_fixed w H1 H2).
  destruct Hw as [Hn Hd].
  assert (Hs : PyFloat.sign_of w = (false, w)).
  { destruct w as [|d w]; [contradiction|].
    cbn [all_chars] in Hd. apply andb_true_iff in Hd as [Ha _].
    destruct (digit_facts d Ha) as (_ & Hm & Hp & _).
    cbn [PyFloat.sign_of]. now rewrite Hm, Hp. }
  rewrite Hs.
  destruct (digitpart_run w false 0%N 0 EmptyString Hd (or_introl eq_refl))
    as [v E].
  rewrite str_app_nil_r in E. rewrite E.
  destruct w as [|d w]; [contradiction|].
  cbn [String.length Nat.add].
  assert (Hc : negb (PyNum.int_max_str_digits lim =? 0)
               && (PyNum.int_max_str_digits lim <? S (String.length w))
               = false).
  { destruct Hl as [->|Hl]; [reflexivity|].
    cbn [String.length] in Hl. apply andb_false_iff. right.
    apply Nat.ltb_ge. exact Hl. }
  rewrite Hc. eexists. split; [reflexivity|]. lia.
Qed.

(** *** The groups of the power shapes *)

Lemma captures_cons (x : Re.regex) (l : list Re.regex)
      (p : option ascii) (s : string) (c : Re.caps)
      (p' : option ascii) (s' : string) (c' : Re.caps) :
  captures (Re.seq (x :: l)) p s c p' s' c' ->
  exists p1 s1 c1, captures x p s c p1 s1 c1
                   /\ captures (Re.seq l) p1 s1 c1 p' s' c'.
Proof.
  change (Re.seq (x :: l)) with (Re.Cat x (Re.seq l)). intros R.
  inversion R as [| |a0 b0 p0 s0 c0 pa sa ca pb sb cb Ra Rb| | | | | | |];
    subst.
  now exists pa, sa, ca.
Qed.

(** The value group that ends a power shape holds a numeral. *)
Lemma value_tail_group (l : list Re.regex) (g : nat)
      (p : option ascii) (s : string) (c : Re.caps)
      (p' : option ascii) (s' : string) (c' : Re.caps) :
  captures (Re.seq (l ++ [Pat.value_tail g])) p s c p' s' c' ->
  exists w, Re.cap_get g c' = Some w /\ numeral w.
Proof.
  intros R. apply captures_seq_app in R as (p1 & s1 & c1 & _ & R).
  apply captures_cons in R as (p2 & s2 & c2 & R & Re).
  inversion Re; subst.
  change (Pat.value_tail g)
    with (Re.seq ([Pat.ws0; Re.opt (Re.any_of ":="); Pat.ws0]
                  ++ [Re.Grp g Re.number])) in R.
  apply captures_last_group in R as (w & q & Hg & Rn & _).
  exists w. split; [exact Hg|]. exact (reads_numeral _ _ _ _ Rn).
Qed.

Lemma search_value_tail (l : list Re.regex) (g : nat)
                        (line : string) (mt : Re.rmatch) :
  Re.search (Re.seq (l ++ [Pat.value_tail g])) line = Some mt ->
  numeral (Re.group g mt).
Proof.
  unfold Re.search. intros H.
  apply find_captures in H as (pre & suf & p' & s' & _ & R).
  apply value_tail_group in R as (w & Hg & N).
  unfold Re.group. now rewrite Hg.
Qed.

Lemma search_h3c_power (xx : string) (line : string) (mt : Re.rmatch) :
  Re.search (Pat.h3c_power xx) line = Some mt -> numeral (Re.group 1 mt).
Proof.
  unfold Re.search. intros H.
  apply find_captures in H as (pre & suf & p' & s' & _ & R).
  change (Pat.h3c_power xx)
    with (Re.seq ([Pat.ci xx; Pat.ws0; Pat.ci "power"; Pat.ws0;
                   Pat.ci "(dBm)"; Pat.ws0] ++ [Re.Grp 1 Re.number])) in R.
  apply captures_last_group in R as (w & q & Hg & Rn & _).
  unfold Re.group. rewrite Hg. exact (reads_numeral _ _ _ _ Rn).
Qed.

Lemma search_direct_power (xx : string) (line : string) (mt : Re.rmatch) :
  Re.search (Pat.direct_power xx) line = Some mt -> numeral (Re.group 1 mt).
Proof.
  change (Pat.direct_power xx)
    with (Re.seq ([Re.opt (Re.Cat (Pat.ci "Current") Pat.ws1);
                   Re.Alt (Re.seq [Pat.ci xx; Pat.ws0; Pat.ci "Power"])
                          (Re.Cat (Pat.ci xx) (Pat.ci "Power"));
                   Re.opt (Re.Cat Pat.ws0 (Pat.ci "(dBm)"))]
                  ++ [Pat.value_tail 1])).
  apply search_value_tail.
Qed.

(** X24. [float] never rejects a reading that a power shape captured.  The
    value group of the direct shapes, of the H3C shapes and of the fallback
    shape holds a numeral (an optional minus sign, digits, an optional dot
    with digits), and [float] takes every numeral: the [ValueError]
    handlers of these rules are never entered, and a captured reading is
    refused only for lying outside the range. *)
Theorem captured_reading_always_parses (line : string) (mt : Re.rmatch) :
  (Re.search Pat.TX_POWER_RE line = Some mt
   \/ Re.search Pat.RX_POWER_RE line = Some mt
   \/ Re.search Pat.H3C_TABLE_TX_RE line = Some mt
   \/ Re.search Pat.H3C_TABLE_RX_RE line = Some mt ->
   numeral (Re.group 1 mt)
   /\ exists v, PyFloat.float (Re.group 1 mt) = Some v)
  /\ (Re.search Pat.POWER_VALUE_RE line = Some mt ->
      numeral (Re.group 2 mt)
      /\ exists v, PyFloat.float (Re.group 2 mt) = Some v).
Proof.
  split.
  - intros H.
    assert (N : numeral (Re.group 1 mt)).
    { destruct H as [H|[H|[H|H]]].
      - exact (search_direct_power "TX" line mt H).
      - exact (search_direct_power "RX" line mt H).
      - exact (search_h3c_power "TX" line mt H).
      - exact (search_h3c_power "RX" line mt H). }
    split; [exact N | exact (float_of_numeral _ N)].
  - intros H.
    assert (N : numeral (Re.group 2 mt)).
    { revert H.
      change Pat.POWER_VALUE_RE
        with (Re.seq ([Re.Grp 1 (Re.alts (Pat.ci "TX")
                                   [Pat.ci "RX"; Pat.ci "Tx"; Pat.ci "Rx"]);
                       Pat.ws0; Pat.ci "Power"] ++ [Pat.value_tail 2])).
      apply search_value_tail. }
    split; [exact N | exact (float_of_numeral _ N)].
Qed.

Lemma captured_reading_always_parses_witness :
  numeral (Re.group 1 tx_line_match)
  /\ exists v, PyFloat.float (Re.group 1 tx_line_match) = Some v.
Proof.
  apply (proj1 (captured_reading_always_parses tx_line tx_line_match)).
  left. by_eval.
Defined.

(** *** The numbers of the H3C summary *)

Lemma captures_skip (x : Re.regex) (l : list Re.regex)
      (p : option ascii) (s : string) (c : Re.caps)
      (p' : option ascii) (s' : string) (c' : Re.caps) :
  group_free x = true ->
  captures (Re.seq (x :: l)) p s c p' s' c' ->
  exists u p1 s1,
    s = (u ++ s1)%string /\ captures (Re.seq l) p1 s1 c p' s' c'.
Proof.
  intros G R. apply captures_cons in R as (p1 & s1 & c1 & Rx & R).
  rewrite (captures_group_free _ _ _ _ _ _ _ Rx G) in R.
  destruct (reads_suffix _ _ _ _ _ (captures_reads _ _ _ _ _ _ _ Rx))
    as [u E].
  now exists u, p1, s1.
Qed.

Lemma captures_group (g : nat) (a : Re.regex) (l : list Re.regex)
      (p : option ascii) (s : string) (c : Re.caps)
      (p' : option ascii) (s' : string) (c' : Re.caps) :
  group_free a = true ->
  captures (Re.seq (Re.Grp g a :: l)) p s c p' s' c' ->
  exists w p1 s1,
    s = (w ++ s1)%string
    /\ reads a p (w ++ s1) p1 s1
    /\ captures (Re.seq l) p1 s1 ((g, w) :: c) p' s' c'.
Proof.
  intros G R. apply captures_cons in R as (p1 & s1 & c1 & Rg & R).
  inversion Rg as [| | | | | | |n0 a0 p0 s0 c0 p0' s0' c0' Ra| |]; subst.
  rewrite (captures_group_free _ _ _ _ _ _ _ Ra G) in R.
  apply captures_reads in Ra.
  destruct (reads_suffix _ _ _ _ _ Ra) as [w ->].
  rewrite take_consumed in R. now exists w, p1, s1.
Qed.

Lemma captures_digits (g : nat) (l : list Re.regex)
      (p : option ascii) (s : string) (c : Re.caps)
      (p' : option ascii) (s' : string) (c' : Re.caps) :
  captures (Re.seq (Re.Grp g (Re.plus Re.dg) :: l)) p s c p' s' c' ->
  exists w p1 s1,
    s = (w ++ s1)%string /\ digit_run w
    /\ captures (Re.seq l) p1 s1 ((g, w) :: c) p' s' c'.
Proof.
  intros R. apply captures_group in R as (w & p1 & s1 & E & Ra & R);
    [|reflexivity].
  apply reads_digit_run in Ra as (w' & E' & Hw).
  apply str_app_inv_tail in E'. subst w'. now exists w, p1, s1.
Qed.

Lemma captures_end (p : option ascii) (s : string) (c : Re.caps)
      (p' : option ascii) (s' : string) (c' : Re.caps) :
  captures (Re.seq []) p s c p' s' c' -> c' = c.
Proof. intros R. now inversion R. Qed.

(** The two numbers of a memory line are runs of digits of the line. *)
Lemma mem_groups (ln : string) (mm : Re.rmatch) :
  Re.search SumPat.MEM_RE ln = Some mm ->
  (digit_run (Re.group 1 mm)
   /\ String.length (Re.group 1 mm) <= String.length ln)
  /\ (digit_run (Re.group 2 mm)
      /\ String.length (Re.group 2 mm) <= String.length ln).
Proof.
  unfold Re.search. intros H.
  apply find_captures in H as (pre & suf & p' & s' & -> & R).
  unfold SumPat.MEM_RE in R.
  apply captures_skip in R as (u1 & p1 & s1 & -> & R); [|reflexivity].
  apply captures_skip in R as (u2 & p2 & s2 & -> & R); [|reflexivity].
  apply captures_digits in R as (w1 & p3 & s3 & -> & D1 & R).
  apply captures_skip in R as (u3 & p4 & s4 & -> & R); [|reflexivity].
  apply captures_digits in R as (w2 & p5 & s5 & -> & D2 & R).
  apply captures_skip in R as (u4 & p6 & s6 & -> & R); [|reflexivity].
  apply captures_digits in R as (w3 & p7 & s7 & -> & D3 & R).
  apply captures_end in R. unfold Re.group. rewrite R. cbn [Re.cap_get Nat.eqb].
  rewrite !str_length_app. repeat split; try apply D1; try apply D2; lia.
Qed.

(** So are the two numbers of a CPU line. *)
Lemma cpu_groups (ln : string) (mc : Re.rmatch) :
  Re.search SumPat.CPU_RE ln = Some mc ->
  (digit_run (Re.group 1 mc)
   /\ String.length (Re.group 1 mc) <= String.length ln)
  /\ (digit_run (Re.group 2 mc)
      /\ String.length (Re.group 2 mc) <= String.length ln).
Proof.
  unfold Re.search. intros H.
  apply find_captures in H as (pre & suf & p' & s' & -> & R).
  unfold SumPat.CPU_RE in R.
  apply captures_digits in R as (w1 & p1 & s1 & -> & D1 & R).
  apply captures_skip in R as (u1 & p2 & s2 & -> & R); [|reflexivity].
  apply captures_skip in R as (u2 & p3 & s3 & -> & R); [|reflexivity].
  apply captures_digits in R as (w2 & p4 & s4 & -> & D2 & R).
  apply captures_skip in R as (u3 & p5 & s5 & -> & R); [|reflexivity].
  apply captures_group in R as (w3 & p6 & s6 & -> & _ & R); [|reflexivity].
  apply captures_end in R. unfold Re.group. rewrite R. cbn [Re.cap_get Nat.eqb].
  rewrite !str_length_app. repeat split; try apply D1; try apply D2; lia.
Qed.

(** The group of the device pattern is never empty. *)
Lemma bracket_group (txt : string) (m : Re.rmatch) :
  Re.search Pat.BRACKET_RE txt = Some m -> Re.group 1 m <> EmptyString.
Proof.
  unfold Re.search. intros H.
  apply find_captures in H as (pre & suf & p' & s' & -> & R).
  unfold Pat.BRACKET_RE in R.
  apply captures_skip in R as (u1 & p1 & s1 & -> & R); [|reflexivity].
  apply captures_group in R as (w & p2 & s2 & -> & Ra & R); [|reflexivity].
  apply captures_skip in R as (u2 & p3 & s3 & -> & R); [|reflexivity].
  apply captures_end in R. unfold Re.group. rewrite R. cbn [Re.cap_get Nat.eqb].
  intros ->. cbn [append] in Ra.
  change (Re.seq [Pat.ci "SD-"; Re.Alt (Pat.ci "JN") (Pat.ci "JY");
                  Re.ch "-"; Re.plus (Re.none_of "]>")])
    with (Re.Cat (Re.Cat (Re.Chr (Chars.is_char_ci "S")) (Re.lit_ci "D-"))
                 (Re.seq [Re.Alt (Pat.ci "JN") (Pat.ci "JY");
                          Re.ch "-"; Re.plus (Re.none_of "]>")])) in Ra.
  inversion Ra as [| |a0 b0 p0 s0 pa sa pb sb Rh Rt| | | | | | |]; subst.
  inversion Rh as [| |a0 b0 p0 s0 pc sc pd sd Rc Rd| | | | | | |]; subst.
  inversion Rc as [|f p0 x s0 Hf| | | | | | | |]; subst.
  destruct (reads_suffix _ _ _ _ _ Rd) as [v1 E1].
  destruct (reads_suffix _ _ _ _ _ Rt) as [v2 E2].
  match goal with
  | E : String x _ = _ |- _ =>
      apply (f_equal String.length) in E; cbn [String.length] in E;
      rewrite E1, E2, !str_length_app in E; lia
  end.
Qed.

Section H3CNumbers.

Variable lim : PyNum.Limits.

Lemma int_of_group (ln g : string) :
  PyNum.int_max_str_digits lim = 0
  \/ String.length ln <= PyNum.int_max_str_digits lim ->
  digit_run g /\ String.length g <= String.length ln ->
  exists z, PyNum.int lim g = Some z.
Proof.
  intros Hl [Hd Hlen].
  destruct (int_of_digit_run lim g Hd) as (z & E & _); [|now exists z].
  destruct Hl as [Hl|Hl]; [now left | right; lia].
Qed.

Lemma h3c_line_total (st : H3CStats) (ln : string) :
  PyNum.int_max_str_digits lim = 0
  \/ String.length ln <= PyNum.int_max_str_digits lim ->
  exists st', h3c_line lim st ln = Some st'.
Proof.
  intros Hl. unfold h3c_line.
  assert (Hm : exists st1, on_mem lim ln st = Some st1).
  { unfold on_mem.
    destruct (Re.search SumPat.MEM_RE ln) as [mm|] eqn:E;
      [|now exists st].
    destruct (mem_groups ln mm E) as [G1 G2].
    destruct (int_of_group ln _ Hl G1) as [t ->].
    destruct (int_of_group ln _ Hl G2) as [u ->].
    cbn [bind]. eexists. reflexivity. }
  destruct Hm as [st1 ->]. cbn [bind].
  assert (Hc : exists st2, on_cpu lim ln st1 = Some st2).
  { unfold on_cpu.
    destruct (Re.search SumPat.CPU_RE ln) as [mc|] eqn:E;
      [|now exists st1].
    destruct (cpu_groups ln mc E) as [G1 G2].
    destruct (int_of_group ln _ Hl G2) as [num ->].
    destruct (int_of_group ln _ Hl G1) as [pct ->].
    cbn [bind]. eexists. reflexivity. }
  destruct Hc as [st2 ->]. cbn [bind]. eexists. reflexivity.
Qed.

Lemma h3c_lines_total (lines : list string) :
  within_limit lim lines ->
  forall st, exists st', h3c_lines lim lines st = Some st'.
Proof.
  intros Hl. induction lines as [|ln rest IH]; intros st.
  - now exists st.
  - cbn [h3c_lines].
    assert (H1 : PyNum.int_max_str_digits lim = 0
                 \/ String.length ln <= PyNum.int_max_str_digits lim).
    { destruct Hl as [Hl|Hl]; [now left | right].
      now inversion Hl. }
    assert (H2 : within_limit lim rest).
    { destruct Hl as [Hl|Hl]; [now left | right].
      now inversion Hl. }
    destruct (h3c_line_total st ln H1) as [st1 ->]. cbn [bind].
    apply (IH H2).
Qed.

Lemma h3c_device_total (lines : list string) (base : string) :
  exists dev, h3c_device lines base = Some dev.
Proof.
  unfold h3c_device.
  destruct (Re.search Pat.BRACKET_RE (clean_text (firstn 50 lines)))
    as [m|] eqn:E; [|now exists base].
  pose proof (bracket_group _ m E) as Hn.
  destruct (Re.group 1 m) as [|a g]; [contradiction|].
  now exists (String a g).
Qed.

End H3CNumbers.

(* ================================================================== *)
(** ** The status column *)

Lemma reads_lit_ci (w : string) :
  forall (p : option ascii) (s : string) (p' : option ascii) (s' : string),
    reads (Re.lit_ci w) p s p' s' ->
    exists t, s = (t ++ s')%string /\ Str.lower t = Str.lower w.
Proof.
  induction w as [|c w IH]; intros p s p' s' R.
  - inversion R; subst. now exists EmptyString.
  - cbn [Re.lit_ci] in R.
    inversion R as [| |a0 b0 p0 s0 p1 s1 p2 s2 R1 R2| | | | | | |]; subst.
    inversion R1 as [|f p0 a s0 Hf| | | | | | | |]; subst.
    apply IH in R2 as (t & -> & Ht).
    exists (String a t). split; [reflexivity|].
    cbn [Str.lower]. rewrite Ht. f_equal.
    unfold Chars.is_char_ci in Hf. apply Ascii.eqb_eq in Hf. now symmetry.
Qed.

(** The group of the status token is a spelling of one of its two
    words. *)
Lemma status_group (line : string) (sm : Re.rmatch) :
  Re.search Pat.STATUS_RE line = Some sm ->
  status_word (reported (Re.group 1 sm)).
Proof.
  unfold Re.search. intros H.
  apply find_captures in H as (pre & suf & p' & s' & _ & R).
  change Pat.STATUS_RE
    with (Re.seq ([Pat.ci "status"; Pat.ws1]
                  ++ [Re.Grp 1 (Re.Alt (Pat.ci "normal")
                                       (Pat.ci "abnormal"))])) in R.
  apply captures_last_group in R as (w & q & Hg & Ra & _).
  unfold Re.group. rewrite Hg. cbn [status_word].
  inversion Ra as [| | |a0 b0 p0 s0 p0' s0' Rw|a0 b0 p0 s0 p0' s0' Rw
                   | | | | |]; subst.
  - apply (reads_lit_ci "normal") in Rw as (t & E & Ht).
    apply str_app_inv_tail in E. subst t. left. exact Ht.
  - apply (reads_lit_ci "abnormal") in Rw as (t & E & Ht).
    apply str_app_inv_tail in E. subst t. right. exact Ht.
Qed.

Section StatusColumn.

Variable e : Env.

Lemma on_values_status (line : string) (c : ScanContext) :
  status_word (status c) -> status_word (status (on_values e line c)).
Proof.
  intros Hc. unfold on_values.
  destruct (Re.search Pat.STATUS_RE line) as [sm|] eqn:E.
  - cbn [status set_status]. exact (status_group line sm E).
  - destruct (String.eqb (vendor e) "H3C"); exact Hc.
Qed.

Lemma classify_status (line : string) (c : ScanContext) :
  status_word (status c) -> status_word (status (classify e line c)).
Proof.
  intros Hc. unfold classify.
  destruct (Re.matches Pat.NON_OPTICAL_RE line); [exact I|].
  destruct (Re.matches Pat.ABSENT_RE line); [exact I|].
  destruct (Re.matches Pat.NOT_SUPPORT_RE line); [exact I|].
  destruct (negb (is_none (current_port c)) && _); [exact I|].
  destruct (negb (is_optical_port c)); [exact Hc|].
  destruct (vendor_known e && Re.matches Pat.RE_CURRENT_DIAG line);
    [exact Hc|].
  destruct (vendor_known e && Re.matches Pat.RE_ALARM_THRESHOLDS line);
    [exact Hc|].
  destruct (is_table_header e line).
  - unfold on_table_header.
    destruct (index_of "RX power" 0 _);
      [destruct (index_of "TX power" 0 _)|]; exact Hc.
  - destruct (table_header_found c);
      [exact Hc | now apply on_values_status].
Qed.

Lemma flushed_status (c : ScanContext) :
  status_word (status c) ->
  Forall (fun r => status_word (Status_ r)) (flushed e c).
Proof.
  intros Hc. unfold flushed.
  destruct (worth_saving c); constructor; [exact Hc | constructor].
Qed.

Lemma step_status (st : state) (raw : string) :
  state_status_ok st -> state_status_ok (step e st raw).
Proof.
  destruct st as [c out]. intros [Hc Ho]. cbn [fst snd] in *.
  assert (Hm : status_word (status (marked e c raw))) by exact Hc.
  destruct (Re.search Pat.PORT_RE (Str.strip raw)) as [pm|] eqn:Hp.
  - rewrite (step_port e _ _ _ _ Hp). split; cbn [fst snd].
    + exact I.
    + apply Forall_app. split; [exact Ho | now apply flushed_status].
  - rewrite (step_no_port e _ _ _ Hp). split; cbn [fst snd].
    + now apply classify_status.
    + exact Ho.
Qed.

Lemma run_status (segment : list string) :
  forall st : state,
    state_status_ok st -> state_status_ok (run e st segment).
Proof.
  induction segment as [|raw rest IH]; intros st Hst; [exact Hst|].
  rewrite run_cons. apply IH. now apply step_status.
Qed.

Lemma scan_segment_status (st : state) (segment : list string) :
  state_status_ok st -> state_status_ok (scan_segment e st segment).
Proof.
  destruct st as [c out]. intros [Hc Ho]. unfold scan_segment.
  assert (Hr : state_status_ok
                 (run e (init_ctx (parsing_power_data c), out) segment)).
  { apply run_status. split; [exact I | exact Ho]. }
  destruct (run e _ segment) as [c' out'].
  rewrite save_port_eq. destruct Hr as [Hc' Ho'].
  split; cbn [fst snd] in *.
  - exact I.
  - apply Forall_app. split; [exact Ho' | now apply flushed_status].
Qed.

Lemma segments_status (segs : list (list string)) :
  forall st : state,
    state_status_ok st ->
    state_status_ok (fold_left (scan_segment e) segs st).
Proof.
  induction segs as [|sg rest IH]; intros st Hst; [exact Hst|].
  simpl. apply IH. now apply scan_segment_status.
Qed.

End StatusColumn.

(** X26. The status column has a closed vocabulary.  The status of every
    record is ['unknown'], one of the four markers' values, or the text
    the status token captured, and that text is a spelling of [normal] or
    of [abnormal] (in the case the log has it). *)
Theorem status_column_vocabulary
        (lines : list string) (base vendor network_type : string)
        (r : PortRecord) :
  In r (extract_power_info lines base vendor network_type) ->
  status_word (Status_ r).
Proof.
  intros Hin. unfold extract_power_info in Hin.
  pose proof (segments_status
                (mkEnv vendor network_type (resolve_device lines base) base)
                (segments lines) (init_ctx None, [])) as Hok.
  destruct Hok as [_ Hall]; [split; [exact I | constructor]|].
  rewrite Forall_forall in Hall. exact (Hall r Hin).
Qed.

Lemma status_column_vocabulary_witness :
  status_word (Status_ status_record).
Proof.
  apply (status_column_vocabulary status_log "sw-a.log" "Huawei" "intranet"
           status_record).
  vm_compute. left. reflexivity.
Defined.

(* ================================================================== *)
(** ** The figures of the Huawei summary *)

Lemma figure_char_facts (a : ascii) :
  is_figure_char a = true ->
  Chars.is_space a = false
  /\ Chars.is_char "-" a = false
  /\ Chars.is_char "+" a = false
  /\ Chars.is_char "_" a = false
  /\ Chars.is_char_ci "e" a = false
  /\ Ascii.eqb (Chars.lower a) "i" = false
  /\ Ascii.eqb (Chars.lower a) "n" = false
  /\ (Chars.is_digit a = true -> Chars.is_char "." a = false).
Proof.
  intros H.
  destruct a as [[|] [|] [|] [|] [|] [|] [|] [|]];
    vm_compute in H; try discriminate H; vm_compute; repeat split;
    intros; discriminate.
Qed.

Lemma figure_split (s : string) :
  all_chars is_figure_char s = true ->
  exists ds rest,
    s = (ds ++ rest)%string
    /\ all_chars Chars.is_digit ds = true
    /\ (rest = EmptyString
        \/ exists r, rest = String "." r
                     /\ all_chars is_figure_char r = true).
Proof.
  induction s as [|a s IH]; intros H.
  - exists EmptyString, EmptyString. now repeat split; try left.
  - cbn [all_chars] in H. apply andb_true_iff in H as [Ha Hs].
    destruct (Chars.is_digit a) eqn:Ed.
    + destruct (IH Hs) as (ds & rest & -> & Hd & Hr).
      exists (String a ds), rest. repeat split; [|exact Hr].
      cbn [all_chars]. now rewrite Ed, Hd.
    + unfold is_figure_char in Ha. rewrite Ed in Ha. cbn [orb] in Ha.
      apply Ascii.eqb_eq in Ha. subst a.
      exists EmptyString, (String "." s). repeat split.
      right. now exists s.
Qed.

Lemma dots_app (x y : string) : dots (x ++ y) = dots x + dots y.
Proof.
  induction x as [|a x IH]; [reflexivity|].
  cbn [append dots]. rewrite IH. lia.
Qed.

Lemma has_digit_app (x y : string) :
  has_digit (x ++ y) = has_digit x || has_digit y.
Proof.
  induction x as [|a x IH]; [reflexivity|].
  cbn [append has_digit]. now rewrite IH, orb_assoc.
Qed.

Lemma digits_no_dot (ds : string) :
  all_chars Chars.is_digit ds = true ->
  dots ds = 0
  /\ has_digit ds = negb (String.length ds =? 0).
Proof.
  induction ds as [|d ds IH]; intros H; [now split|].
  cbn [all_chars] in H. apply andb_true_iff in H as [Hd Hs].
  destruct (IH Hs) as [I1 I2]. cbn [dots has_digit String.length].
  assert (Hf : is_figure_char d = true)
    by (unfold is_figure_char; now rewrite Hd).
  destruct (figure_char_facts d Hf) as (_ & _ & _ & _ & _ & _ & _ & Hdot).
  rewrite (Hdot Hd), Hd, I1. now split.
Qed.

(** [float] on a figure: it refuses the bad ones, and only them. *)
Lemma float_of_figure (g : string) :
  figure_text g ->
  if bad_figure g then PyFloat.float g = None
  else exists v, PyFloat.float g = Some v.
Proof.
  intros [Hn Hg].
  assert (Hhead : forall s, all_chars is_figure_char s = true -> no_lead s).
  { intros [|a s] H; [exact I|]. cbn [all_chars] in H.
    apply andb_true_iff in H as [Ha _]. cbn [no_lead].
    now apply figure_char_facts. }
  assert (H1 : no_lead g) by now apply Hhead.
  assert (H2 : no_lead (Str.rev g)).
  { apply Hhead. unfold Str.rev. rewrite all_chars_rev_onto, Hg.
    reflexivity. }
  unfold PyFloat.float. rewrite (strip_fixed g H1 H2).
  destruct g as [|a g]; [contradiction|].
  pose proof Hg as Hg'. cbn [all_chars] in Hg'.
  apply andb_true_iff in Hg' as [Ha _].
  destruct (figure_char_facts a Ha) as (_ & Hm & Hp & _ & _ & Hi & Hnn & _).
  cbn [PyFloat.sign_of]. rewrite Hm, Hp.
  cbn [Str.lower String.eqb]. rewrite Hi, Hnn. cbn [orb].
  unfold PyFloat.number.
  destruct (figure_split _ Hg) as (ds1 & rest & E & Hd1 & Hr).
  rewrite E.
  assert (Hr' : rest = EmptyString \/ exists fs, rest = String "." fs).
  { destruct Hr as [->|(r & -> & _)]; [now left | right; now exists r]. }
  destruct (digitpart_run ds1 false 0%N 0 rest Hd1 Hr') as [ip ->].
  destruct (digits_no_dot ds1 Hd1) as [D1 G1].
  unfold bad_figure. rewrite dots_app, has_digit_app, D1, G1.
  cbn [Nat.add].
  destruct Hr as [->|(r & -> & Hfr)].
  - assert (L : String.length ds1 <> 0).
    { destruct ds1; [discriminate E | discriminate]. }
    destruct (String.length ds1) as [|n]; [contradiction|].
    cbn. eexists. reflexivity.
  - change (Chars.is_char "." ".") with true. cbv beta iota.
    destruct (figure_split _ Hfr) as (ds2 & rest2 & -> & Hd2 & Hr2).
    assert (Hr2' : rest2 = EmptyString \/ exists fs, rest2 = String "." fs).
    { destruct Hr2 as [->|(r2 & -> & _)]; [now left | right; now exists r2]. }
    destruct (digitpart_run ds2 false ip 0 rest2 Hd2 Hr2') as [m ->].
    destruct (digits_no_dot ds2 Hd2) as [D2 G2].
    cbn [dots has_digit].
    change (Chars.is_char "." ".") with true.
    change (Chars.is_digit ".") with false.
    rewrite dots_app, has_digit_app, D2, G2. cbn [orb Nat.add].
    destruct Hr2 as [->|(r2 & -> & _)].
    + cbn [dots has_digit]. rewrite orb_false_r.
      destruct (String.length ds1) as [|n1]; cbn [Nat.add Nat.eqb negb orb].
      * destruct (String.length ds2) as [|n2]; [reflexivity|].
        cbn. eexists. reflexivity.
      * cbn. eexists. reflexivity.
    + cbn [dots]. change (Chars.is_char "." ".") with true.
      cbn [Nat.add Nat.leb orb].
      destruct (String.length ds1) as [|n1]; cbn [Nat.add];
        [destruct (String.length ds2) as [|n2]; cbn [Nat.add]|];
        try reflexivity.
Qed.

Lemma figure_of_group (g : nat) (l : list Re.regex)
      (p : option ascii) (s : string) (c : Re.caps)
      (p' : option ascii) (s' : string) (c' : Re.caps) :
  captures (Re.seq (SumPat.figure g :: l)) p s c p' s' c' ->
  exists w p1 s1,
    s = (w ++ s1)%string /\ figure_text w
    /\ captures (Re.seq l) p1 s1 ((g, w) :: c) p' s' c'.
Proof.
  intros R. unfold SumPat.figure in R.
  apply captures_group in R as (w & p1 & s1 & E & Ra & R); [|reflexivity].
  apply reads_plus_class in Ra as (w' & E' & Hn & Hw).
  apply str_app_inv_tail in E'. subst w'.
  exists w, p1, s1. now repeat split.
Qed.

Lemma mem_pct_group (txt : string) (mt : Re.rmatch) :
  Re.search SumPat.MEM_PCT_RE txt = Some mt -> figure_text (Re.group 1 mt).
Proof.
  unfold Re.search. intros H.
  apply find_captures in H as (pre & suf & p' & s' & _ & R).
  unfold SumPat.MEM_PCT_RE in R.
  apply captures_skip in R as (u1 & p1 & s1 & -> & R); [|reflexivity].
  apply captures_skip in R as (u2 & p2 & s2 & -> & R); [|reflexivity].
  apply figure_of_group in R as (w & p3 & s3 & -> & Hw & R).
  apply captures_skip in R as (u3 & p4 & s4 & -> & R); [|reflexivity].
  apply captures_end in R. unfold Re.group. rewrite R.
  cbn [Re.cap_get Nat.eqb]. exact Hw.
Qed.

Lemma cpu_simple_groups (txt : string) (m : Re.rmatch) :
  Re.search SumPat.CPU_SIMPLE_RE txt = Some m ->
  figure_text (Re.group 1 m) /\ figure_text (Re.group 2 m).
Proof.
  unfold Re.search. intros H.
  apply find_captures in H as (pre & suf & p' & s' & _ & R).
  unfold SumPat.CPU_SIMPLE_RE in R.
  do 4 (apply captures_skip in R as (? & ? & ? & -> & R); [|reflexivity]).
  apply figure_of_group in R as (w1 & ? & ? & -> & Hw1 & R).
  do 6 (apply captures_skip in R as (? & ? & ? & -> & R); [|reflexivity]).
  apply figure_of_group in R as (w2 & ? & ? & -> & Hw2 & R).
  apply captures_skip in R as (? & ? & ? & -> & R); [|reflexivity].
  apply captures_end in R. unfold Re.group. rewrite R.
  cbn [Re.cap_get Nat.eqb]. now split.
Qed.

Lemma cpu_ctrl_groups (txt : string) (m : Re.rmatch) :
  SumPat.search_cpu_ctrl txt = Some m ->
  figure_text (Re.group 1 m) /\ figure_text (Re.group 2 m).
Proof.
  unfold SumPat.search_cpu_ctrl.
  destruct (Re.search SumPat.CPU_CTRL_HEAD txt) as [hd|]; [|discriminate].
  intros H.
  apply find_captures in H as (pre & suf & p' & s' & _ & R).
  unfold SumPat.CPU_CTRL_TAIL in R.
  do 2 (apply captures_skip in R as (? & ? & ? & -> & R); [|reflexivity]).
  apply figure_of_group in R as (w1 & ? & ? & -> & Hw1 & R).
  do 4 (apply captures_skip in R as (? & ? & ? & -> & R); [|reflexivity]).
  apply figure_of_group in R as (w2 & ? & ? & -> & Hw2 & R).
  apply captures_skip in R as (? & ? & ? & -> & R); [|reflexivity].
  apply captures_end in R. unfold Re.group. rewrite R.
  cbn [Re.cap_get Nat.eqb]. now split.
Qed.

Lemma figure_cell_of (g : string) :
  figure_text g ->
  if bad_figure g then figure_cell g = None
  else exists cell, figure_cell g = Some cell.
Proof.
  intros Hg. pose proof (float_of_figure g Hg) as H.
  destruct Hg as [Hn _]. unfold figure_cell.
  destruct g as [|a g]; [contradiction|].
  destruct (bad_figure (String a g)).
  - now rewrite H.
  - destruct H as [v ->]. eexists. reflexivity.
Qed.

(** X19. The Huawei row is lost exactly when a figure is malformed.  The
    figures handed to [float] are the captured memory percentage and the
    two captured CPU figures, texts of digits and dots; [float] rejects
    such a text when it has two dots or more or no digit, and only then.
    With one such figure the exception leaves the result empty (device
    name and serial number are lost with it); without, there is one
    row. *)
Theorem huawei_row_lost_iff_bad_figure
        (txt base vendor network_type : string) :
  if existsb bad_figure (huawei_figures txt)
  then parse_huawei_logs txt base vendor network_type = []
  else exists row, parse_huawei_logs txt base vendor network_type = [row].
Proof.
  unfold huawei_figures, parse_huawei_logs.
  destruct (Re.search SumPat.MEM_PCT_RE txt) as [mt|] eqn:Em.
  - pose proof (float_of_figure _ (mem_pct_group txt mt Em)) as Hf.
    cbn [app existsb].
    destruct (bad_figure (Re.group 1 mt)).
    + rewrite Hf. reflexivity.
    + destruct Hf as [v ->]. cbn [option_map orb].
      destruct (first_some (SumPat.search_cpu_ctrl txt)
                           (Re.search SumPat.CPU_SIMPLE_RE txt))
        as [m|] eqn:Ec.
      * assert (G : figure_text (Re.group 1 m)
                    /\ figure_text (Re.group 2 m)).
        { unfold first_some in Ec.
          destruct (SumPat.search_cpu_ctrl txt) as [m'|] eqn:E1.
          - injection Ec as <-. exact (cpu_ctrl_groups txt m' E1).
          - exact (cpu_simple_groups txt m Ec). }
        destruct G as [G1 G2].
        pose proof (figure_cell_of _ G1) as F1.
        pose proof (figure_cell_of _ G2) as F2.
        cbn [existsb].
        destruct (bad_figure (Re.group 1 m)).
        -- rewrite F1. reflexivity.
        -- destruct F1 as [c1 ->].
           destruct (bad_figure (Re.group 2 m)).
           ++ rewrite F2. reflexivity.
           ++ destruct F2 as [c2 ->]. cbn [orb]. eexists. reflexivity.
      * cbn [existsb]. eexists. reflexivity.
  - cbn [app].
    destruct (first_some (SumPat.search_cpu_ctrl txt)
                         (Re.search SumPat.CPU_SIMPLE_RE txt))
      as [m|] eqn:Ec.
    + assert (G : figure_text (Re.group 1 m)
                  /\ figure_text (Re.group 2 m)).
      { unfold first_some in Ec.
        destruct (SumPat.search_cpu_ctrl txt) as [m'|] eqn:E1.
        - injection Ec as <-. exact (cpu_ctrl_groups txt m' E1).
        - exact (cpu_simple_groups txt m Ec). }
      destruct G as [G1 G2].
      pose proof (figure_cell_of _ G1) as F1.
      pose proof (figure_cell_of _ G2) as F2.
      cbn [existsb].
      destruct (bad_figure (Re.group 1 m)).
      * rewrite F1. reflexivity.
      * destruct F1 as [c1 ->].
        destruct (bad_figure (Re.group 2 m)).
        -- rewrite F2. reflexivity.
        -- destruct F2 as [c2 ->]. cbn [orb]. eexists. reflexivity.
    + cbn [existsb]. eexists. reflexivity.
Qed.

(** The text [bad_percentage_text], whose memory percentage is [1.2.3],
    gives no row. *)
Example bad_percentage_run :
  existsb bad_figure (huawei_figures bad_percentage_text) = true
  /\ parse_huawei_logs bad_percentage_text "sw.log" "Huawei" INTERNAL = [].
Proof. split; by_eval. Qed.

(* ================================================================== *)
(** ** The CPU cells of the H3C summary *)

Lemma int_not_negative (lim : PyNum.Limits) (w : string) (z : Z) :
  digit_run w -> PyNum.int lim w = Some z -> (0 <= z)%Z.
Proof.
  intros Hw.
  assert (N : numeral w).
  { exists false, w, EmptyString. cbn [append]. rewrite str_app_nil_r.
    split; [reflexivity|]. split; [exact Hw | now left]. }
  destruct (numeral_margins w N) as [H1 H2].
  unfold PyNum.int. rewrite (strip_fixed w H1 H2).
  destruct Hw as [Hn Hd].
  assert (Hs : PyFloat.sign_of w = (false, w)).
  { destruct w as [|d w]; [contradiction|].
    cbn [all_chars] in Hd. apply andb_true_iff in Hd as [Ha _].
    destruct (digit_facts d Ha) as (_ & Hm & Hp & _).
    cbn [PyFloat.sign_of]. now rewrite Hm, Hp. }
  rewrite Hs.
  destruct (digitpart_run w false 0%N 0 EmptyString Hd (or_introl eq_refl))
    as [v E].
  rewrite str_app_nil_r in E. rewrite E.
  destruct (0 + String.length w) as [|n]; [discriminate|].
  destruct (negb (PyNum.int_max_str_digits lim =? 0)
            && (PyNum.int_max_str_digits lim <? S n)); [discriminate|].
  intros [= <-]. lia.
Qed.

Lemma dict_set_forall (P : Z * Z -> Prop) (k v : Z) (d : list (Z * Z)) :
  Forall P d -> P (k, v) -> Forall P (dict_set k v d).
Proof.
  intros Hd Hp. induction d as [|[k' v'] d IH]; cbn [dict_set].
  - now constructor.
  - inversion Hd as [|x l Hx Hl]; subst.
    destruct (Z.eqb k' k); constructor; auto.
Qed.

Lemma h3c_line_figures (lim : PyNum.Limits) (st st' : H3CStats)
                       (ln : string) :
  figures_not_negative st -> h3c_line lim st ln = Some st' ->
  figures_not_negative st'.
Proof.
  unfold figures_not_negative, h3c_line. intros Hst H.
  destruct (on_mem lim ln st) as [st1|] eqn:E1; [|discriminate].
  cbn [bind] in H.
  destruct (on_cpu lim ln st1) as [st2|] eqn:E2; [|discriminate].
  cbn [bind] in H. injection H as <-.
  assert (H1 : cpu_stats st1 = cpu_stats st).
  { unfold on_mem in E1.
    destruct (Re.search SumPat.MEM_RE ln) as [mm|]; [|congruence].
    destruct (PyNum.int lim (Re.group 1 mm)); [|discriminate].
    destruct (PyNum.int lim (Re.group 2 mm)); [|discriminate].
    cbn [bind] in E1. injection E1 as <-. reflexivity. }
  assert (H2 : Forall (fun kv : Z * Z => (0 <= snd kv)%Z) (cpu_stats st2)).
  { unfold on_cpu in E2.
    destruct (Re.search SumPat.CPU_RE ln) as [mc|] eqn:Ec;
      [|injection E2 as <-; now rewrite H1].
    destruct (PyNum.int lim (Re.group 2 mc)) as [num|]; [|discriminate].
    cbn [bind] in E2.
    destruct (PyNum.int lim (Re.group 1 mc)) as [pct|] eqn:Ep;
      [|discriminate].
    cbn [bind] in E2. injection E2 as <-. cbn [cpu_stats].
    apply dict_set_forall; [now rewrite H1|]. cbn [snd].
    destruct (cpu_groups ln mc Ec) as [[D1 _] _].
    exact (int_not_negative lim _ _ D1 Ep). }
  unfold on_sn. now destruct (Re.search SumPat.SN_RE ln).
Qed.

Lemma h3c_lines_figures (lim : PyNum.Limits) (lines : list string) :
  forall st st' : H3CStats,
    figures_not_negative st -> h3c_lines lim lines st = Some st' ->
    figures_not_negative st'.
Proof.
  induction lines as [|ln rest IH]; intros st st' Hst H.
  - cbn [h3c_lines] in H. now injection H as <-.
  - cbn [h3c_lines] in H.
    destruct (h3c_line lim st ln) as [st1|] eqn:E; [|discriminate].
    cbn [bind] in H.
    exact (IH st1 st' (h3c_line_figures lim st st1 ln Hst E) H).
Qed.

Lemma fold_min_spec (l : list Z) :
  forall a : Z,
    In (fold_left Z.min l a) (a :: l)
    /\ forall x, In x (a :: l) -> (fold_left Z.min l a <= x)%Z.
Proof.
  induction l as [|b l IH]; intros a.
  - cbn. split; [now left|]. intros x [<-|[]]. lia.
  - cbn [fold_left]. destruct (IH (Z.min a b)) as [Hin Hle]. split.
    + destruct Hin as [E|Hin].
      * rewrite <- E. destruct (Z.min_spec a b) as [[_ ->]|[_ ->]];
          [now left | right; now left].
      * right. now right.
    + intros x [<-|[<-|Hx]].
      * specialize (Hle (Z.min a b) (or_introl eq_refl)). lia.
      * specialize (Hle (Z.min a b) (or_introl eq_refl)). lia.
      * apply Hle. now right.
Qed.

Lemma cpu_min_zero (st : H3CStats) (m : Z) :
  figures_not_negative st -> cpu_min (cpu_stats st) = Some m ->
  (m = 0%Z <-> In 0%Z (cpu_figures st)).
Proof.
  unfold figures_not_negative, cpu_min, cpu_figures. intros Hst.
  assert (Hv : Forall (fun v => (0 <= v)%Z) (map snd (cpu_stats st))).
  { rewrite Forall_map. exact Hst. }
  destruct (map snd (cpu_stats st)) as [|v vs]; [discriminate|].
  intros [= <-]. destruct (fold_min_spec vs v) as [Hin Hle]. split.
  - intros E. now rewrite <- E.
  - intros H0. specialize (Hle 0%Z H0).
    rewrite Forall_forall in Hv. specialize (Hv _ Hin). lia.
Qed.

Lemma percent_not_empty (v : PyFloat.pyfloat) : percent v <> EmptyString.
Proof.
  unfold percent. destruct (PyNum.fmt2 v); discriminate.
Qed.

(** X27. An idle window blanks the CPU usage cell.  When [parse_h3c_logs]
    gives its row, the cell [CPU_Usage(%)] is empty exactly when no CPU
    line was read or the figure kept for one of the windows is 0: the
    smallest figure is then 0, which the test [if cpu_min] takes for a
    missing value, so 0 percent is shown as nothing and not as 0.00%. *)
Theorem h3c_idle_window_blanks_usage
        (lim : PyNum.Limits) (lines : list string)
        (base vendor network_type : string) (row : SummaryRow) :
  parse_h3c_logs lim lines base vendor network_type = [row] ->
  exists st,
    h3c_lines lim lines h3c_start = Some st
    /\ (sCPU_Usage row = EmptyString
        <-> cpu_stats st = [] \/ In 0%Z (cpu_figures st)).
Proof.
  unfold parse_h3c_logs.
  destruct (h3c_device lines base) as [dev|]; cbn [bind]; [|discriminate].
  destruct (h3c_lines lim lines h3c_start) as [st|] eqn:Es; cbn [bind];
    [|discriminate].
  assert (Hst : figures_not_negative st).
  { apply (h3c_lines_figures lim lines h3c_start st);
      [constructor | exact Es]. }
  unfold h3c_row.
  destruct (used_pct_cell st) as [pct|]; cbn [bind]; [|discriminate].
  destruct (int_cell (cpu_min (cpu_stats st))) as [usage|] eqn:Eu;
    cbn [bind]; [|discriminate].
  destruct (int_cell (cpu_max (cpu_stats st))) as [top|]; cbn [bind];
    [|discriminate].
  intros [= <-]. exists st. split; [reflexivity|]. cbn [sCPU_Usage].
  unfold int_cell in Eu.
  destruct (cpu_min (cpu_stats st)) as [m|] eqn:Em.
  - pose proof (cpu_min_zero st m Hst Em) as Hz.
    assert (Hne : cpu_stats st <> []).
    { intros E. rewrite E in Em. discriminate. }
    cbn [nonzero] in Eu. destruct (Z.eqb m 0) eqn:E0; cbn [negb] in Eu.
    + apply Z.eqb_eq in E0. injection Eu as <-.
      split; [intros _; right; now apply Hz | reflexivity].
    + apply Z.eqb_neq in E0.
      destruct (PyNum.float_of_int m) as [v|]; [|discriminate].
      cbn [option_map] in Eu. injection Eu as <-. split.
      * intros E. now apply percent_not_empty in E.
      * intros [E|H0]; [contradiction|]. apply Hz in H0. contradiction.
  - cbn [nonzero] in Eu. injection Eu as <-.
    split; [intros _; left | reflexivity].
    unfold cpu_min in Em.
    destruct (cpu_stats st); [reflexivity | discriminate].
Qed.

Lemma h3c_idle_window_blanks_usage_witness :
  exists st,
    h3c_lines default_limits idle_log h3c_start = Some st
    /\ (sCPU_Usage idle_row = EmptyString
        <-> cpu_stats st = [] \/ In 0%Z (cpu_figures st)).
Proof.
  apply (h3c_idle_window_blanks_usage default_limits idle_log
           "sw.log" "H3C" INTERNAL idle_row).
  by_eval.
Defined.

(* ================================================================== *)
(** ** No overflow below the range of a float *)

Lemma digits_size (p : positive) : digits2_pos p = Pos.size p.
Proof. induction p as [p IH|p IH|]; cbn; now rewrite ?IH. Qed.

Lemma digits_not_negative (m : Z) : (0 <= Zdigits2 m)%Z.
Proof. destruct m; cbn; lia. Qed.

Lemma digits_log2 (m : Z) : (0 < m)%Z -> Zdigits2 m = (Z.log2 m + 1)%Z.
Proof.
  destruct m as [|p|p]; try lia. intros _.
  destruct p as [p|p|]; cbn; rewrite ?digits_size; lia.
Qed.

Lemma digits_mono (x y : Z) :
  (0 <= x <= y)%Z -> (Zdigits2 x <= Zdigits2 y)%Z.
Proof.
  intros [Hx Hy]. destruct (Z.eq_dec x 0) as [->|Hn].
  - apply digits_not_negative.
  - rewrite !digits_log2 by lia.
    pose proof (Z.log2_le_mono x y Hy). lia.
Qed.

Lemma digits_succ (m : Z) :
  (0 <= m)%Z -> (Zdigits2 (m + 1) <= Zdigits2 m + 1)%Z.
Proof.
  intros Hm. destruct (Z.eq_dec m 0) as [->|Hn]; [cbn; lia|].
  rewrite !digits_log2 by lia.
  pose proof (Z.log2_succ_le m). unfold Z.succ in *. lia.
Qed.

Lemma digits_below (m b : Z) :
  (0 <= m)%Z -> (0 <= b)%Z -> (m < 2 ^ b)%Z -> (Zdigits2 m <= b)%Z.
Proof.
  intros Hm Hb H. destruct (Z.eq_dec m 0) as [->|Hn]; [cbn; lia|].
  rewrite digits_log2 by lia.
  assert (Z.log2 m < b)%Z by (apply Z.log2_lt_pow2; lia). lia.
Qed.

Lemma shr_1_spec (mrs : shr_record) :
  (0 <= shr_m mrs)%Z ->
  (0 <= shr_m (shr_1 mrs))%Z
  /\ Zdigits2 (shr_m (shr_1 mrs)) = Z.max 0 (Zdigits2 (shr_m mrs) - 1).
Proof.
  destruct mrs as [m r s]. cbn [shr_m]. intros Hm.
  destruct m as [|[p|p|]|p]; try lia;
    cbn [shr_1 shr_m Zdigits2 digits2_pos orb];
    rewrite ?Pos2Z.inj_succ; split; lia.
Qed.

Lemma shr_iter_spec (p : positive) :
  forall mrs : shr_record,
    (0 <= shr_m mrs)%Z ->
    (0 <= shr_m (iter_pos shr_1 p mrs))%Z
    /\ Zdigits2 (shr_m (iter_pos shr_1 p mrs))
       = Z.max 0 (Zdigits2 (shr_m mrs) - Zpos p).
Proof.
  induction p as [p IH|p IH|]; intros mrs Hm; cbn [iter_pos].
  - destruct (shr_1_spec mrs Hm) as [H1 D1].
    destruct (IH _ H1) as [H2 D2]. destruct (IH _ H2) as [H3 D3].
    split; [exact H3|]. rewrite D3, D2, D1, Pos2Z.inj_xI. lia.
  - destruct (IH _ Hm) as [H2 D2]. destruct (IH _ H2) as [H3 D3].
    split; [exact H3|]. rewrite D3, D2, Pos2Z.inj_xO. lia.
  - apply shr_1_spec. exact Hm.
Qed.

Lemma shr_spec (mrs : shr_record) (e n : Z) :
  (0 <= shr_m mrs)%Z ->
  (0 <= shr_m (fst (shr mrs e n)))%Z
  /\ snd (shr mrs e n) = (e + Z.max 0 n)%Z
  /\ Zdigits2 (shr_m (fst (shr mrs e n)))
     = Z.max 0 (Zdigits2 (shr_m mrs) - Z.max 0 n).
Proof.
  intros Hm. pose proof (digits_not_negative (shr_m mrs)).
  destruct n as [|p|p]; cbn [shr fst snd].
  - split; [exact Hm|]. split; lia.
  - destruct (shr_iter_spec p mrs Hm) as [H1 D1].
    split; [exact H1|]. split; [lia | rewrite D1; lia].
  - split; [exact Hm|]. split; lia.
Qed.

Lemma shr_m_of_loc (m : Z) (l : location) :
  shr_m (shr_record_of_loc m l) = m.
Proof. destruct l as [|[| |]]; reflexivity. Qed.

Lemma round_nearest_even_cases (m : Z) (l : location) :
  round_nearest_even m l = m \/ round_nearest_even m l = (m + 1)%Z.
Proof.
  destruct l as [|[| |]]; cbn; auto. destruct (Z.even m); auto.
Qed.

Lemma round_aux_no_overflow (sx : bool) (mx ex : Z) (lx : location) :
  (0 <= mx)%Z -> (ex <= 971)%Z -> (Zdigits2 mx + ex <= 1023)%Z ->
  no_overflow (binary_round_aux PyFloat.prec PyFloat.emax sx mx ex lx).
Proof.
  intros Hm He Hd. unfold binary_round_aux, shr_fexp.
  set (n1 := (fexp PyFloat.prec PyFloat.emax (Zdigits2 mx + ex) - ex)%Z).
  assert (H0 : (0 <= shr_m (shr_record_of_loc mx lx))%Z)
    by now rewrite shr_m_of_loc.
  destruct (shr_spec (shr_record_of_loc mx lx) ex n1 H0) as (H1 & E1 & D1).
  rewrite shr_m_of_loc in D1.
  destruct (shr (shr_record_of_loc mx lx) ex n1) as [mrs1 e1].
  cbn [fst snd] in H1, E1, D1.
  set (m2 := round_nearest_even (shr_m mrs1) (loc_of_shr_record mrs1)).
  assert (Hm2 : (0 <= m2)%Z /\ (Zdigits2 m2 <= Zdigits2 (shr_m mrs1) + 1)%Z).
  { subst m2.
    destruct (round_nearest_even_cases (shr_m mrs1) (loc_of_shr_record mrs1))
      as [->| ->].
    - split; [exact H1 | lia].
    - split; [lia | now apply digits_succ]. }
  destruct Hm2 as [Hm2 Dm2].
  set (n2 := (fexp PyFloat.prec PyFloat.emax (Zdigits2 m2 + e1) - e1)%Z).
  assert (H0' : (0 <= shr_m (shr_record_of_loc m2 loc_Exact))%Z)
    by now rewrite shr_m_of_loc.
  destruct (shr_spec (shr_record_of_loc m2 loc_Exact) e1 n2 H0')
    as (H2 & E2 & _).
  destruct (shr (shr_record_of_loc m2 loc_Exact) e1 n2) as [mrs2 e2].
  cbn [fst snd] in H2, E2.
  destruct (shr_m mrs2) as [|q|q]; [exact I| |lia].
  assert (Hle : (e2 <= 971)%Z).
  { pose proof (digits_not_negative mx).
    subst n1 n2. unfold fexp, emin, PyFloat.prec, PyFloat.emax in *. lia. }
  unfold PyFloat.emax, PyFloat.prec.
  replace (e2 <=? 1024 - 53)%Z with true; [exact I|].
  symmetry. apply Z.leb_le. lia.
Qed.

Lemma digits_iter_double (d : positive) (p : positive) :
  Zpos (digits2_pos (Pos.iter xO p d)) = (Zpos (digits2_pos p) + Zpos d)%Z.
Proof.
  induction d as [|d IH] using Pos.peano_ind.
  - cbn. lia.
  - rewrite Pos.iter_succ. cbn [digits2_pos].
    rewrite Pos2Z.inj_succ, IH. lia.
Qed.

Lemma shl_align_spec (mx : positive) (ex ex' : Z) :
  (snd (shl_align mx ex ex') <= ex)%Z
  /\ (Zpos (digits2_pos (fst (shl_align mx ex ex')))
      + snd (shl_align mx ex ex')
      = Zpos (digits2_pos mx) + ex)%Z.
Proof.
  unfold shl_align. destruct (ex' - ex)%Z as [|d|d] eqn:E; cbn [fst snd];
    try (split; lia).
  rewrite digits_iter_double. split; lia.
Qed.

(** [float(z)] does not overflow below [2^1023]. *)
Lemma float_of_int_small (z : Z) :
  (0 <= z < 2 ^ 1023)%Z -> exists v, PyNum.float_of_int z = Some v.
Proof.
  intros [Hz Hb].
  assert (H : no_overflow (PyFloat.of_int z)).
  { unfold PyFloat.of_int, binary_normalize.
    destruct z as [|p|p]; [exact I| |lia].
    unfold binary_round.
    destruct (shl_align_spec p 0
                (fexp PyFloat.prec PyFloat.emax (Zpos (digits2_pos p) + 0)))
      as [He Hd].
    destruct (shl_align p 0 _) as [mz ez]. cbn [fst snd] in He, Hd.
    apply round_aux_no_overflow; [lia | lia|].
    cbn [Zdigits2]. rewrite Hd.
    pose proof (digits_below (Zpos p) 1023). cbn [Zdigits2] in H. lia. }
  unfold PyNum.float_of_int, PyNum.finite_or_raise.
  destruct (PyFloat.of_int z); try contradiction; eexists; reflexivity.
Qed.

(** [a / b] does not overflow for [a] below [2^1023]. *)
Lemma true_div_small (a b : Z) :
  (0 < a < 2 ^ 1023)%Z -> (0 < b)%Z -> exists v, PyNum.true_div a b = Some v.
Proof.
  intros [Ha Hb] Hpos.
  destruct a as [|pa|pa]; try lia. destruct b as [|pb|pb]; try lia.
  unfold PyNum.true_div.
  change (Zpos pa <? 0)%Z with false. change (Zpos pb <? 0)%Z with false.
  change (Z.to_pos (Z.abs (Zpos pa))) with pa.
  change (Z.to_pos (Z.abs (Zpos pb))) with pb.
  assert (H : no_overflow
                (SFdiv PyFloat.prec PyFloat.emax (S754_finite false pa 0)
                       (S754_finite false pb 0))).
  { unfold SFdiv, SFdiv_core_binary.
    set (e' := Z.min (fexp PyFloat.prec PyFloat.emax
                        (Zdigits2 (Zpos pa) + 0 - (Zdigits2 (Zpos pb) + 0)))
                     (0 - 0)).
    set (m' := match (0 - 0 - e')%Z with
               | Zpos _ => Z.shiftl (Zpos pa) (0 - 0 - e')
               | Z0 => Zpos pa
               | Zneg _ => 0%Z
               end).
    assert (He : (e' <= 0)%Z) by (subst e'; lia).
    assert (Hm : (0 <= m')%Z /\ (Zdigits2 m' + e' <= Zdigits2 (Zpos pa))%Z).
    { subst m'. destruct (0 - 0 - e')%Z as [|s|s] eqn:Es.
      - split; lia.
      - assert (Hs : (0 <= Zpos s)%Z) by lia.
        pose proof (Z.shiftl_nonneg (Zpos pa) (Zpos s)) as Hn.
        assert (H1 : (0 < Z.shiftl (Zpos pa) (Zpos s))%Z).
        { rewrite Z.shiftl_mul_pow2 by lia.
          apply Z.mul_pos_pos; [lia|]. apply Z.pow_pos_nonneg; lia. }
        split; [lia|].
        rewrite !digits_log2 by lia.
        rewrite Z.log2_shiftl by lia. lia.
      - lia. }
    destruct Hm as [Hm Hd].
    destruct (Z.div_eucl m' (Zpos pb)) as [q r] eqn:E.
    assert (Hq : q = (m' / Zpos pb)%Z) by (unfold Z.div; now rewrite E).
    assert (Hq0 : (0 <= q <= m')%Z).
    { rewrite Hq. split; [apply Z.div_pos; lia|].
      apply Z.div_le_upper_bound; [lia|]. nia. }
    apply round_aux_no_overflow; [lia | lia|].
    pose proof (digits_mono q m' Hq0).
    pose proof (digits_below (Zpos pa) 1023). lia. }
  unfold PyNum.finite_or_raise.
  destruct (SFdiv _ _ _ _); try contradiction; eexists; reflexivity.
Qed.

Lemma digit_val_le (d : ascii) :
  Chars.is_digit d = true -> (PyFloat.digit_val d <= 9)%N.
Proof.
  unfold Chars.is_digit, Chars.between, PyFloat.digit_val. intros H.
  apply andb_true_iff in H as [H1 H2].
  apply Nat.leb_le in H1, H2. lia.
Qed.

(** The value [digitpart] gives for a run of [n] digits is below
    [(acc + 1) * 10^n]. *)
Lemma digitpart_value (ds : string) :
  forall (seen : bool) (acc : N) (cnt : nat),
    all_chars Chars.is_digit ds = true ->
    exists v, PyFloat.digitpart seen acc cnt ds
              = (v, cnt + String.length ds, EmptyString)
              /\ (v + 1 <= (acc + 1) * 10 ^ N.of_nat (String.length ds))%N.
Proof.
  induction ds as [|d ds IH]; intros seen acc cnt Hd.
  - exists acc. cbn [PyFloat.digitpart String.length]. split.
    + now rewrite Nat.add_0_r.
    + cbn. lia.
  - cbn [all_chars] in Hd. apply andb_true_iff in Hd as [Ha Hd].
    cbn [PyFloat.digitpart String.length]. rewrite Ha.
    destruct (IH true (acc * 10 + PyFloat.digit_val d)%N (S cnt) Hd)
      as (v & E & B).
    exists v. split; [rewrite E; f_equal; f_equal; lia|].
    pose proof (digit_val_le d Ha).
    replace (N.of_nat (S (String.length ds)))
      with (N.succ (N.of_nat (String.length ds))) by lia.
    rewrite N.pow_succ_r'.
    set (k := (10 ^ N.of_nat (String.length ds))%N) in *. nia.
Qed.

Lemma int_value (lim : PyNum.Limits) (w : string) (z : Z) :
  digit_run w -> PyNum.int lim w = Some z ->
  (0 <= z < 10 ^ Z.of_nat (String.length w))%Z.
Proof.
  intros Hw.
  assert (N : numeral w).
  { exists false, w, EmptyString. cbn [append]. rewrite str_app_nil_r.
    split; [reflexivity|]. split; [exact Hw | now left]. }
  destruct (numeral_margins w N) as [H1 H2].
  unfold PyNum.int. rewrite (strip_fixed w H1 H2).
  destruct Hw as [Hn Hd].
  assert (Hs : PyFloat.sign_of w = (false, w)).
  { destruct w as [|d w]; [contradiction|].
    cbn [all_chars] in Hd. apply andb_true_iff in Hd as [Ha _].
    destruct (digit_facts d Ha) as (_ & Hm & Hp & _).
    cbn [PyFloat.sign_of]. now rewrite Hm, Hp. }
  rewrite Hs.
  destruct (digitpart_value w false 0%N 0 Hd) as (v & E & B).
  rewrite E.
  destruct (0 + String.length w) as [|n]; [discriminate|].
  destruct (negb (PyNum.int_max_str_digits lim =? 0)
            && (PyNum.int_max_str_digits lim <? S n)); [discriminate|].
  intros [= <-]. split; [lia|].
  assert (Hv : (v < 10 ^ N.of_nat (String.length w))%N) by lia.
  apply N2Z.inj_lt in Hv. rewrite N2Z.inj_pow, nat_N_Z in Hv. exact Hv.
Qed.

Lemma int_small (lim : PyNum.Limits) (ln g : string) (z : Z) :
  String.length ln <= 300 ->
  digit_run g /\ String.length g <= String.length ln ->
  PyNum.int lim g = Some z -> small z.
Proof.
  intros Hl [Hd Hg] E. destruct (int_value lim g z Hd E) as [H0 H1].
  split; [exact H0|].
  apply Z.lt_le_trans with (1 := H1).
  apply Z.pow_le_mono_r; lia.
Qed.

Lemma h3c_line_small (lim : PyNum.Limits) (st st' : H3CStats) (ln : string) :
  String.length ln <= 300 ->
  stats_small st -> h3c_line lim st ln = Some st' -> stats_small st'.
Proof.
  intros Hl (Ht & Hu & Hc) H. unfold h3c_line in H.
  destruct (on_mem lim ln st) as [st1|] eqn:E1; [|discriminate].
  cbn [bind] in H.
  destruct (on_cpu lim ln st1) as [st2|] eqn:E2; [|discriminate].
  cbn [bind] in H. injection H as <-.
  assert (S1 : stats_small st1).
  { unfold on_mem in E1.
    destruct (Re.search SumPat.MEM_RE ln) as [mm|] eqn:Em;
      [|injection E1 as <-; exact (conj Ht (conj Hu Hc))].
    destruct (mem_groups ln mm Em) as [G1 G2].
    destruct (PyNum.int lim (Re.group 1 mm)) as [t|] eqn:I1; [|discriminate].
    destruct (PyNum.int lim (Re.group 2 mm)) as [u|] eqn:I2; [|discriminate].
    cbn [bind] in E1. injection E1 as <-.
    split; [|split]; cbn [total_kb used_kb cpu_stats].
    - intros t' [= <-]. exact (int_small lim ln _ t Hl G1 I1).
    - intros u' [= <-]. exact (int_small lim ln _ u Hl G2 I2).
    - exact Hc. }
  destruct S1 as (Ht1 & Hu1 & Hc1).
  assert (S2 : stats_small st2).
  { unfold on_cpu in E2.
    destruct (Re.search SumPat.CPU_RE ln) as [mc|] eqn:Ec;
      [|injection E2 as <-; exact (conj Ht1 (conj Hu1 Hc1))].
    destruct (cpu_groups ln mc Ec) as [G1 G2].
    destruct (PyNum.int lim (Re.group 2 mc)) as [num|]; [|discriminate].
    cbn [bind] in E2.
    destruct (PyNum.int lim (Re.group 1 mc)) as [pct|] eqn:Ip;
      [|discriminate].
    cbn [bind] in E2. injection E2 as <-.
    split; [|split]; cbn [total_kb used_kb cpu_stats]; try assumption.
    apply dict_set_forall; [exact Hc1|]. cbn [snd].
    exact (int_small lim ln _ pct Hl G1 Ip). }
  unfold on_sn. now destruct (Re.search SumPat.SN_RE ln).
Qed.

Lemma h3c_lines_small (lim : PyNum.Limits) (lines : list string) :
  short_lines lines ->
  forall st st' : H3CStats,
    stats_small st -> h3c_lines lim lines st = Some st' -> stats_small st'.
Proof.
  intros Hs. induction lines as [|ln rest IH]; intros st st' Hst H.
  - cbn [h3c_lines] in H. now injection H as <-.
  - cbn [h3c_lines] in H. inversion Hs as [|x l Hx Hl]; subst.
    destruct (h3c_line lim st ln) as [st1|] eqn:E; [|discriminate].
    cbn [bind] in H.
    exact (IH Hl st1 st' (h3c_line_small lim st st1 ln Hx Hst E) H).
Qed.

Lemma fold_max_in (l : list Z) :
  forall a : Z, In (fold_left Z.max l a) (a :: l).
Proof.
  induction l as [|b l IH]; intros a; [now left|].
  cbn [fold_left]. destruct (IH (Z.max a b)) as [E|Hin].
  - rewrite <- E. destruct (Z.max_spec a b) as [[_ ->]|[_ ->]];
      [right; now left | now left].
  - right. now right.
Qed.

Lemma small_conversions :
  (10 ^ 300 <= 2 ^ 1023)%Z /\ (10 ^ 300 * 100 <= 2 ^ 1023)%Z.
Proof. split; apply Z.leb_le; vm_compute; reflexivity. Qed.

Lemma int_cell_small (c : option Z) :
  (forall z, c = Some z -> small z) -> exists cell, int_cell c = Some cell.
Proof.
  intros H. unfold int_cell.
  destruct (nonzero c); [|eexists; reflexivity].
  destruct c as [z|]; [|eexists; reflexivity].
  destruct (H z eq_refl) as [H0 H1].
  destruct (float_of_int_small z) as [v ->].
  - pose proof (proj1 small_conversions). lia.
  - eexists. reflexivity.
Qed.

Lemma h3c_row_total (dev base vendor zone : string) (st : H3CStats) :
  stats_small st -> exists row, h3c_row dev base vendor zone st = Some row.
Proof.
  intros (Ht & Hu & Hc). unfold h3c_row.
  assert (Hp : exists pct, used_pct_cell st = Some pct).
  { unfold used_pct_cell.
    destruct (nonzero (used_kb st) && nonzero (total_kb st)) eqn:E;
      [|eexists; reflexivity].
    apply andb_true_iff in E as [Eu Et].
    destruct (used_kb st) as [u|]; [|discriminate].
    destruct (total_kb st) as [t|]; [|discriminate].
    cbn [nonzero] in Eu, Et.
    apply negb_true_iff, Z.eqb_neq in Eu. apply negb_true_iff, Z.eqb_neq in Et.
    destruct (Hu u eq_refl) as [U0 U1]. destruct (Ht t eq_refl) as [T0 T1].
    destruct (true_div_small (u * 100) t) as [x ->].
    - pose proof (proj2 small_conversions). lia.
    - lia.
    - cbn [bind]. eexists. reflexivity. }
  destruct Hp as [pct ->]. cbn [bind].
  assert (Hv : Forall small (map snd (cpu_stats st))).
  { rewrite Forall_map. exact Hc. }
  rewrite Forall_forall in Hv.
  destruct (int_cell_small (cpu_min (cpu_stats st))) as [usage ->].
  { unfold cpu_min. destruct (map snd (cpu_stats st)) as [|v vs];
      [discriminate|].
    intros z [= <-]. apply Hv. apply (proj1 (fold_min_spec vs v)). }
  cbn [bind].
  destruct (int_cell_small (cpu_max (cpu_stats st))) as [top ->].
  { unfold cpu_max. destruct (map snd (cpu_stats st)) as [|v vs];
      [discriminate|].
    intros z [= <-]. apply Hv. apply fold_max_in. }
  cbn [bind]. eexists. reflexivity.
Qed.

(** X25. [parse_h3c_logs] keeps its row while the numbers it reads stay
    below the range of a float.  With no line longer than the digit limit
    of [int] (or the limit off) the device lookup and the line loop never
    raise: the group of the device pattern is never empty, so [m.group(2)]
    is never asked for, and the groups handed to [int] are runs of digits.
    The row is then returned whenever every number kept is below [10^300],
    for then neither [float(cpu_min)], [float(cpu_max)] nor
    [used_kb * 100 / total_kb] overflows; lines of at most 300 characters
    guarantee it.  So the row can be lost only to a number of more than
    300 digits. *)
Theorem h3c_row_kept_below_float_range
        (lim : PyNum.Limits) (lines : list string)
        (base vendor network_type : string) :
  within_limit lim lines ->
  exists st,
    h3c_lines lim lines h3c_start = Some st
    /\ (stats_small st ->
        exists row,
          parse_h3c_logs lim lines base vendor network_type = [row])
    /\ (short_lines lines ->
        exists row,
          parse_h3c_logs lim lines base vendor network_type = [row]).
Proof.
  intros Hl.
  destruct (h3c_device_total lines base) as [dev Hd].
  destruct (h3c_lines_total lim lines Hl h3c_start) as [st Hst].
  exists st. split; [exact Hst|].
  assert (Hrow : stats_small st ->
                 exists row,
                   parse_h3c_logs lim lines base vendor network_type = [row]).
  { intros Hsm.
    destruct (h3c_row_total dev base vendor network_type st Hsm)
      as [row Hr].
    exists row. unfold parse_h3c_logs. rewrite Hd. cbn [bind].
    rewrite Hst. cbn [bind]. now rewrite Hr. }
  split; [exact Hrow|].
  intros Hs. apply Hrow.
  apply (h3c_lines_small lim lines Hs h3c_start st); [|exact Hst].
  split; [|split]; try discriminate. constructor.
Qed.

Lemma h3c_row_kept_below_float_range_witness :
  exists row,
    parse_h3c_logs default_limits h3c_sample_log "sw.log" "H3C" INTERNAL
    = [row].
Proof.
  destruct (h3c_row_kept_below_float_range default_limits h3c_sample_log
              "sw.log" "H3C" INTERNAL) as (st & _ & _ & H).
  - right. repeat constructor; apply Nat.leb_le; by_eval.
  - apply H. repeat constructor; apply Nat.leb_le; by_eval.
Defined.
